(** * Sales dashboard backend: the in-memory query engine of [server.js]

    A shallow embedding of the request handlers of [server.js] and the
    properties of the engine that are stated in the specification.

    Conventions of the embedding.
    - A JavaScript number is a value of [num]: a rational, one of the two
      infinities, or [NaN].  The arithmetic is that of IEEE 754 binary64:
      each operation returns the exact result rounded to the nearest number
      of binary64, a tie going to the even significand, and an infinity on
      overflow.  The two zeros are one value: no operation of the handlers
      tells them apart (no division by a computed zero; both are written
      [0] in the response).
    - A [Date] is its time value: [Some t] with [t] the milliseconds since
      the epoch, [None] for an invalid date (time value [NaN]).
    - A plain object used as a dictionary is a list of (key, value) pairs in
      order of creation, enumerated in the order of [OrdinaryOwnPropertyKeys]
      (array indices first, ascending, then the other keys in order of
      creation).  Reading [o[k]] finds the own property or else the member
      that every object inherits from [Object.prototype] under that name.
    - What the handlers take from the host (the parser behind [new Date(s)],
      the local time zone, the collation of [localeCompare]) is a [Host]. *)

From Stdlib Require Import ZArith QArith Qround Qabs Qpower.
From Stdlib Require Import List String Ascii Bool Lia.
From Stdlib Require Import Permutation Sorted.
Import ListNotations.

Local Open Scope string_scope.
Local Open Scope Z_scope.

(** ** JavaScript numbers *)

Module Num.

Inductive num : Type :=
| Fin (q : Q)
| PInf
| NInf
| NaN.

Definition zero : num := Fin 0.

(** The number of an integer that is a time value or the length of an array:
    such integers are below [2 ^ 53] and are numbers of binary64 as they
    are. *)
Definition of_Z (z : Z) : num := Fin (inject_Z z).
Definition of_nat (n : nat) : num := of_Z (Z.of_nat n).

(** *** Rounding to binary64 *)

Definition pow2 (e : Z) : Q := (2 ^ e)%Q.

(** The binary exponent of a positive rational [a]: the [e] with
    [2 ^ e <= a < 2 ^ (e + 1)]. *)
Definition Qlog2 (a : Q) : Z :=
  let k := Z.log2 (Qnum a) - Z.log2 (Zpos (Qden a)) in
  if Qle_bool (pow2 k) a then k else k - 1.

(** The nearest integer, a tie going to the even one. *)
Definition round_half_even (x : Q) : Z :=
  let f := Qfloor x in
  match ((x - inject_Z f) ?= (1 # 2))%Q with
  | Lt => f
  | Gt => f + 1
  | Eq => if Z.even f then f else f + 1
  end.

(** The number of binary64 nearest to a positive rational [a]: a multiple of
    the unit in the last place, which is [2 ^ (e - 52)] for the binary
    exponent [e] of [a] and at least [2 ^ -1074]; [None] when the result is
    [2 ^ 1024] or more (overflow). *)
Definition round64_pos (a : Q) : option Q :=
  let ulp := pow2 (Z.max (Qlog2 a - 52) (-1074)) in
  let r := (inject_Z (round_half_even (a / ulp)) * ulp)%Q in
  if Qle_bool (pow2 1024) r then None else Some (Qred r).

(** The number of binary64 nearest to a rational: the result of an
    arithmetic operation whose exact result is [q], and the value of a
    decimal literal that denotes [q]. *)
Definition round64 (q : Q) : num :=
  match (Qred q ?= 0)%Q with
  | Eq => Fin 0
  | Gt => match round64_pos (Qred q) with Some r => Fin r | None => PInf end
  | Lt =>
      match round64_pos (- Qred q) with
      | Some r => Fin (Qred (- r))
      | None => NInf
      end
  end.

(** *** Arithmetic *)

Definition neg (a : num) : num :=
  match a with
  | Fin q => Fin (Qred (- q))
  | PInf => NInf
  | NInf => PInf
  | NaN => NaN
  end.

Definition add (a b : num) : num :=
  match a, b with
  | NaN, _ | _, NaN => NaN
  | Fin x, Fin y => round64 (x + y)
  | PInf, NInf | NInf, PInf => NaN
  | PInf, _ | _, PInf => PInf
  | NInf, _ | _, NInf => NInf
  end.

Definition sub (a b : num) : num := add a (neg b).

(** The infinity that has the sign of [q], [NaN] when [q] is zero. *)
Definition signed_inf (q : Q) (pos : num) (opp : num) : num :=
  match (q ?= 0)%Q with
  | Gt => pos
  | Lt => opp
  | Eq => NaN
  end.

Definition mul (a b : num) : num :=
  match a, b with
  | NaN, _ | _, NaN => NaN
  | Fin x, Fin y => round64 (x * y)
  | Fin x, PInf | PInf, Fin x => signed_inf x PInf NInf
  | Fin x, NInf | NInf, Fin x => signed_inf x NInf PInf
  | PInf, PInf | NInf, NInf => PInf
  | PInf, NInf | NInf, PInf => NInf
  end.

Definition div (a b : num) : num :=
  match a, b with
  | NaN, _ | _, NaN => NaN
  | Fin x, Fin y =>
      if Qeq_bool y 0 then signed_inf x PInf NInf else round64 (x / y)
  | Fin _, _ => Fin 0
  | PInf, Fin y => if Qle_bool 0 y then PInf else NInf
  | NInf, Fin y => if Qle_bool 0 y then NInf else PInf
  | _, _ => NaN
  end.

(** [a <= b] and [a < b] of JavaScript: false as soon as one side is [NaN]. *)
Definition le (a b : num) : bool :=
  match a, b with
  | NaN, _ | _, NaN => false
  | Fin x, Fin y => Qle_bool x y
  | NInf, _ | _, PInf => true
  | _, _ => false
  end.

Definition lt (a b : num) : bool :=
  match a, b with
  | NaN, _ | _, NaN => false
  | _, _ => negb (le b a)
  end.

Definition ge (a b : num) : bool := le b a.
Definition gt (a b : num) : bool := lt b a.

(** [Math.round]: the nearest integer, a tie going towards plus infinity; the
    result is a number of binary64 whenever the argument is one. *)
Definition Math_round (a : num) : num :=
  match a with
  | Fin q => Fin (inject_Z (Qfloor (q + (1 # 2))))
  | _ => a
  end.

(** [ToBoolean] of a number: zero and [NaN] are falsy. *)
Definition truthy (a : num) : bool :=
  match a with
  | Fin q => negb (Qeq_bool q 0)
  | NaN => false
  | _ => true
  end.

Definition is_finite (a : num) : Prop :=
  match a with Fin _ => True | _ => False end.

Definition is_finiteb (a : num) : bool :=
  match a with Fin _ => true | _ => false end.

Definition is_nan (a : num) : bool :=
  match a with NaN => true | _ => false end.

End Num.

Import Num.

Declare Scope num_scope.
Delimit Scope num_scope with num.
Bind Scope num_scope with num.
Infix "+" := add : num_scope.
Infix "-" := sub : num_scope.
Infix "*" := mul : num_scope.
Infix "/" := div : num_scope.

#[global] Arguments add : simpl never.
#[global] Arguments sub : simpl never.
#[global] Arguments mul : simpl never.
#[global] Arguments div : simpl never.
#[global] Arguments le : simpl never.
#[global] Arguments lt : simpl never.
#[global] Arguments ge : simpl never.
#[global] Arguments gt : simpl never.
#[global] Arguments Math_round : simpl never.
#[global] Arguments truthy : simpl never.

(** ** The host environment *)

(** A [Date] as its time value. *)
Definition Date : Type := option Z.

Class Host : Type := {
  (** the time value of [new Date(s)] for a string [s] *)
  Date_parse : string -> Date;
  (** the offset of local time from UTC at the time [t], in milliseconds *)
  LocalTZA : Z -> Z;
  (** [a.localeCompare(b)] *)
  localeCompare : string -> string -> comparison
}.

(** [new Date(x)] for a value that is a string or [undefined]. *)
Definition new_Date {H : Host} (x : option string) : Date :=
  match x with
  | Some s => Date_parse s
  | None => None
  end.

(** [a >= b] and [a <= b] on two dates: the time values are compared, and the
    comparison is false when one of them is [NaN]. *)
Definition date_ge (a b : Date) : bool :=
  match a, b with
  | Some x, Some y => y <=? x
  | _, _ => false
  end.

Definition date_le (a b : Date) : bool := date_ge b a.

(** ** Records and query parameters *)

Record SalesRecord : Type := {
  Order_Date : string;
  Customer_ID : string;
  Customer_Name : string;
  Segment : string;
  City : string;
  State : string;
  Region : string;
  Category : string;
  Sub_Category : string;
  Product_Name : string;
  Sales : num;
  Quantity : num;
  Discount : num;
  Profit : num
}.

(** A query parameter is a string or [undefined]; [undefined] and the empty
    string are falsy. *)
Definition param : Type := option string.

Definition truthy_param (p : param) : bool :=
  match p with
  | Some (String _ _) => true
  | _ => false
  end.

(** [s === p] for a string [s] and a parameter [p]. *)
Definition strict_eq (s : string) (p : param) : bool :=
  match p with
  | Some s' => String.eqb s s'
  | None => false
  end.

(** ** The filter *)

Section Filter.
Context {H : Host}.

Definition parseDate (dateString : param) : Date := new_Date dateString.

Definition filterData (data : list SalesRecord) (state fromDate toDate : param)
  : list SalesRecord :=
  filter (fun item =>
    let itemDate := parseDate (Some (Order_Date item)) in
    let stateMatch := negb (truthy_param state) || strict_eq (State item) state in
    let dateMatch :=
      (negb (truthy_param fromDate) || date_ge itemDate (parseDate fromDate)) &&
      (negb (truthy_param toDate) || date_le itemDate (parseDate toDate)) in
    stateMatch && dateMatch) data.

(** The second pass of the handlers that take a [customerId]. *)
Definition filterCustomer (filteredData : list SalesRecord) (customerId : param)
  : list SalesRecord :=
  if truthy_param customerId
  then filter (fun item => strict_eq (Customer_ID item) customerId) filteredData
  else filteredData.

Definition applyFilters (data : list SalesRecord)
  (state fromDate toDate customerId : param) : list SalesRecord :=
  filterCustomer (filterData data state fromDate toDate) customerId.

End Filter.

(** [Subseq l1 l2]: [l1] is [l2] with some elements left out, the others in
    their original order. *)
Inductive Subseq {A : Type} : list A -> list A -> Prop :=
| Subseq_nil : Subseq [] []
| Subseq_skip x l1 l2 : Subseq l1 l2 -> Subseq l1 (x :: l2)
| Subseq_keep x l1 l2 : Subseq l1 l2 -> Subseq (x :: l1) (x :: l2).

(** The filter criteria in the words of the specification. *)
Definition absent (p : param) : Prop := p = None \/ p = Some "".

Definition passes_state (item : SalesRecord) (state : param) : Prop :=
  absent state \/ state = Some (State item).

Definition passes_from {H : Host} (item : SalesRecord) (fromDate : param) : Prop :=
  absent fromDate \/
  exists d f, Date_parse (Order_Date item) = Some d /\
              new_Date fromDate = Some f /\ f <= d.

Definition passes_to {H : Host} (item : SalesRecord) (toDate : param) : Prop :=
  absent toDate \/
  exists d t, Date_parse (Order_Date item) = Some d /\
              new_Date toDate = Some t /\ d <= t.

(** ** Exceptions *)

(** A computation that returns a value or throws. *)
Inductive result (A : Type) : Type :=
| Ok (a : A)
| Throw (error : string).
Arguments Ok {A} a.
Arguments Throw {A} error.

Definition bind {A B : Type} (r : result A) (k : A -> result B) : result B :=
  match r with
  | Ok a => k a
  | Throw e => Throw e
  end.

Notation "x <- r ;; k" := (bind r (fun x => k))
  (at level 61, r at next level, right associativity).

(** [forEach] with a callback that updates a state or throws. *)
Fixpoint forEach {A S : Type} (f : S -> A -> result S) (l : list A) (s : S)
  : result S :=
  match l with
  | [] => Ok s
  | x :: l' => s' <- f s x ;; forEach f l' s'
  end.

(** ** Plain objects used as dictionaries *)

Module Obj.

(** The names of the members that an object created by [{}] inherits from
    [Object.prototype].  Each holds a function, but [__proto__], an accessor
    whose getter returns [Object.prototype] and whose setter ignores a value
    that is neither an object nor [null]: under these names [o[k]] is an
    object, and truthy, before any property is created.  The properties that
    the handlers themselves add to these inherited objects hold [NaN], which
    reads as a missing property does. *)
Definition Object_prototype : list string :=
  ["constructor"; "__defineGetter__"; "__defineSetter__"; "hasOwnProperty";
   "__lookupGetter__"; "__lookupSetter__"; "isPrototypeOf";
   "propertyIsEnumerable"; "toString"; "valueOf"; "__proto__";
   "toLocaleString"].

Definition inherited (k : string) : bool :=
  existsb (String.eqb k) Object_prototype.

Section Obj.
Context {V : Type}.

(** The own properties, in order of creation. *)
Definition t : Type := list (string * V).

(** The own property [k] of [o], [None] when there is none. *)
Fixpoint get (o : t) (k : string) : option V :=
  match o with
  | [] => None
  | (k', v) :: o' => if String.eqb k' k then Some v else get o' k
  end.

(** [o[k] = v]: an existing property keeps its place, a new one is created
    last. *)
Fixpoint set (o : t) (k : string) (v : V) : t :=
  match o with
  | [] => [(k, v)]
  | (k', v') :: o' =>
      if String.eqb k' k then (k', v) :: o' else (k', v') :: set o' k v
  end.

(** [o[k]] is an object, for an [o] whose own properties hold objects: the
    own property, or else the inherited member. *)
Definition holds_object (o : t) (k : string) : bool :=
  match get o k with
  | Some _ => true
  | None => inherited k
  end.

Definition digit (c : ascii) : option N :=
  let n := N_of_ascii c in
  if ((48 <=? n) && (n <=? 57))%N then Some (n - 48)%N else None.

Fixpoint digits_value (s : string) (acc : N) : option N :=
  match s with
  | EmptyString => Some acc
  | String c s' =>
      match digit c with
      | Some d => digits_value s' (10 * acc + d)%N
      | None => None
      end
  end.

(** A key is an array index when it is the canonical decimal form of an
    integer from 0 to 2^32 - 2. *)
Definition array_index (k : string) : option N :=
  match k with
  | EmptyString => None
  | String "0" EmptyString => Some 0%N
  | String "0" _ => None
  | _ =>
      match digits_value k 0 with
      | Some n => if (n <=? 4294967294)%N then Some n else None
      | None => None
      end
  end.

Definition is_index (p : string * V) : bool :=
  match array_index (fst p) with Some _ => true | None => false end.

Definition index_of (p : string * V) : N :=
  match array_index (fst p) with Some n => n | None => 0%N end.

Fixpoint insert_index (p : string * V) (l : list (string * V)) : list (string * V) :=
  match l with
  | [] => [p]
  | q :: l' =>
      if (index_of p <=? index_of q)%N then p :: l else q :: insert_index p l'
  end.

(** [Object.entries(o)]: the array indices in ascending order, then the other
    keys in order of creation. *)
Definition entries (o : t) : list (string * V) :=
  fold_right insert_index [] (filter is_index o)
  ++ filter (fun p => negb (is_index p)) o.

(** [Object.values(o)]. *)
Definition values (o : t) : list V := map snd (entries o).

End Obj.
Arguments t V : clear implicits.
End Obj.

(** ** Arrays *)

Section Arrays.
Context {A : Type}.

(** [Array.prototype.sort] with a comparison function: a stable sort; [x] goes
    after [y] when [comparefn(x, y) > 0], and a result of [NaN] counts as 0. *)
Fixpoint sort_insert (comparefn : A -> A -> num) (x : A) (l : list A) : list A :=
  match l with
  | [] => [x]
  | y :: l' =>
      if gt (comparefn x y) zero then y :: sort_insert comparefn x l'
      else x :: l
  end.

Definition Array_sort (comparefn : A -> A -> num) (l : list A) : list A :=
  fold_right (sort_insert comparefn) [] l.

(** [l.slice(0, n)]. *)
Definition slice0 (n : nat) (l : list A) : list A := firstn n l.

(** [new Set(l)] spread into an array: the distinct members in order of first
    occurrence, [same] being SameValueZero. *)
Definition Set_add (same : A -> A -> bool) (s : list A) (x : A) : list A :=
  if existsb (same x) s then s else s ++ [x].

Definition new_Set (same : A -> A -> bool) (l : list A) : list A :=
  fold_left (Set_add same) l [].

(** [l.reduce((sum, item) => sum + f(item), 0)]. *)
Definition reduce_sum (f : A -> num) (l : list A) : num :=
  fold_left (fun sum item => (sum + f item)%num) l zero.

End Arrays.

(** The number of a comparison result ([localeCompare], the default order of
    [sort]). *)
Definition num_of_comparison (c : comparison) : num :=
  match c with
  | Lt => of_Z (-1)
  | Eq => zero
  | Gt => of_Z 1
  end.

(** ** GET /api/states *)

(** [[...new Set(salesData.map(item => item.State))].sort()]; without a
    comparison function [sort] orders strings by their code units. *)
Definition states (salesData : list SalesRecord) : list string :=
  Array_sort (fun a b => num_of_comparison (String.compare a b))
    (new_Set String.eqb (map State salesData)).

(** ** GET /api/dashboard-data *)

Module Dashboard.

Record Cards : Type := {
  totalSales : num;
  quantitySold : num;
  discountPercentage : num;
  profit : num
}.

(** An entry of a chart: the group key, under the field name of the chart
    ([city], [productName], [category], [subCategory], [segment]), and the
    rounded sales. *)
Record ChartEntry : Type := {
  label : string;
  sales : num
}.

Record Charts : Type := {
  salesByCity : list ChartEntry;
  salesByProducts : list ChartEntry;
  salesByCategory : list ChartEntry;
  salesBySubCategory : list ChartEntry;
  salesBySegment : list ChartEntry
}.

Record Data : Type := {
  cards : Cards;
  charts : Charts
}.

(** A value that a grouping object holds: a number, or the string that [+=]
    makes of an inherited member and a number (the source text of a function,
    or ["[object Object]"], followed by the digits of the number). *)
Inductive value : Type :=
| Number (n : num)
| Text.

(** What [o[k]] evaluates to. *)
Inductive lookup : Type :=
| Undefined
| Own (v : value)
| Inherited.

Definition read (o : Obj.t value) (k : string) : lookup :=
  match Obj.get o k with
  | Some v => Own v
  | None => if Obj.inherited k then Inherited else Undefined
  end.

(** [o[k] = v] for a [v] that is a number or a string: the property is
    created or updated, but under [__proto__], whose setter ignores [v]. *)
Definition write (o : Obj.t value) (k : string) (v : value) : Obj.t value :=
  if String.eqb k "__proto__" then o else Obj.set o k v.

(** [!v]: a string of the kind above is not empty, and an object is truthy. *)
Definition falsy (v : lookup) : bool :=
  match v with
  | Undefined => true
  | Own (Number n) => negb (truthy n)
  | Own Text => false
  | Inherited => false
  end.

(** [v + n] for a number [n]. *)
Definition plus (v : lookup) (n : num) : value :=
  match v with
  | Undefined => Number NaN
  | Own (Number m) => Number (m + n)%num
  | Own Text => Text
  | Inherited => Text
  end.

(** The body of the five grouping loops:
    [if (!o[k]) { o[k] = 0; } o[k] += item.Sales;]. *)
Definition accumulate (key : SalesRecord -> string) (o : Obj.t value)
  (item : SalesRecord) : Obj.t value :=
  let k := key item in
  let o1 := if falsy (read o k) then write o k (Number zero) else o in
  write o1 k (plus (read o1 k) (Sales item)).

Definition salesBy (key : SalesRecord -> string) (filteredData : list SalesRecord)
  : Obj.t value :=
  fold_left (accumulate key) filteredData [].

(** [Math.round(v)]: a string of the kind above converts to [NaN]. *)
Definition round_value (v : value) : num :=
  match v with
  | Number n => Math_round n
  | Text => NaN
  end.

(** [Object.entries(o).map(([k, sales]) => ({ k, sales: Math.round(sales) }))]. *)
Definition rounded (o : Obj.t value) : list ChartEntry :=
  map (fun e => {| label := fst e; sales := round_value (snd e) |}) (Obj.entries o).

(** [(a, b) => b.sales - a.sales]. *)
Definition bySalesDesc (a b : ChartEntry) : num := (sales b - sales a)%num.

Definition top10 (l : list ChartEntry) : list ChartEntry :=
  slice0 10 (Array_sort bySalesDesc l).

Definition salesByCityArray (fd : list SalesRecord) : list ChartEntry :=
  top10 (rounded (salesBy City fd)).

Definition salesByProductArray (fd : list SalesRecord) : list ChartEntry :=
  top10 (rounded (salesBy Product_Name fd)).

Definition salesByCategoryArray (fd : list SalesRecord) : list ChartEntry :=
  rounded (salesBy Category fd).

Definition salesBySubCategoryArray (fd : list SalesRecord) : list ChartEntry :=
  top10 (rounded (salesBy Sub_Category fd)).

Definition salesBySegmentArray (fd : list SalesRecord) : list ChartEntry :=
  rounded (salesBy Segment fd).

Definition discountData (fd : list SalesRecord) : list SalesRecord :=
  filter (fun item => gt (Discount item) zero) fd.

Definition avgDiscount (fd : list SalesRecord) : num :=
  if (0 <? List.length (discountData fd))%nat
  then (reduce_sum Discount (discountData fd)
          / of_nat (List.length (discountData fd)) * of_Z 100)%num
  else zero.

Definition cardsOf (fd : list SalesRecord) : Cards :=
  {| totalSales := Math_round (reduce_sum Sales fd);
     quantitySold := reduce_sum Quantity fd;
     discountPercentage := (Math_round (avgDiscount fd * of_Z 10) / of_Z 10)%num;
     profit := Math_round (reduce_sum Profit fd) |}.

Definition chartsOf (fd : list SalesRecord) : Charts :=
  {| salesByCity := salesByCityArray fd;
     salesByProducts := salesByProductArray fd;
     salesByCategory := salesByCategoryArray fd;
     salesBySubCategory := salesBySubCategoryArray fd;
     salesBySegment := salesBySegmentArray fd |}.

(** The handler: the data of the response. *)
Definition dashboard_data {H : Host} (salesData : list SalesRecord)
  (state fromDate toDate customerId : param) : Data :=
  let filteredData := applyFilters salesData state fromDate toDate customerId in
  {| cards := cardsOf filteredData; charts := chartsOf filteredData |}.

End Dashboard.

(** ** GET /api/customers *)

Module Customers.

Record Customer : Type := {
  id : string;
  name : string
}.

(** Objects live in a heap and are denoted by their address: two object
    literals are two objects, whatever their fields hold. *)
Definition heap : Type := list Customer.
Definition ref : Type := nat.

Definition alloc (h : heap) (c : Customer) : heap * ref :=
  ((h ++ [c])%list, List.length h).

Definition deref (h : heap) (r : ref) : Customer :=
  nth r h {| id := ""; name := "" |}.

(** [salesData.map(item => ({ id: ..., name: ... }))]: one new object for
    each record. *)
Fixpoint map_alloc (h : heap) (salesData : list SalesRecord) : heap * list ref :=
  match salesData with
  | [] => (h, [])
  | item :: rest =>
      let (h1, r) :=
        alloc h {| id := Customer_ID item; name := Customer_Name item |} in
      let (h2, rs) := map_alloc h1 rest in
      (h2, r :: rs)
  end.

(** [(a, b) => a.name.localeCompare(b.name)]. *)
Definition byName {H : Host} (h : heap) (a b : ref) : num :=
  num_of_comparison (localeCompare (name (deref h a)) (name (deref h b))).

(** The handler; SameValueZero on two objects is the equality of their
    addresses. *)
Definition customers {H : Host} (salesData : list SalesRecord) : list Customer :=
  let (h, objects) := map_alloc [] salesData in
  map (deref h) (Array_sort (byName h) (new_Set Nat.eqb objects)).

End Customers.

(** ** Dates: calendar fields and their strings *)

Module JSDate.

Definition msPerDay : Z := 86400000.

Definition Day (t : Z) : Z := t / msPerDay.
Definition TimeWithinDay (t : Z) : Z := t mod msPerDay.

(** The proleptic Gregorian date (year, month from 1, day from 1) of a day
    number counted from 1970-01-01. *)
Definition civil_from_days (day : Z) : Z * Z * Z :=
  let z := day + 719468 in
  let era := z / 146097 in
  let doe := z - era * 146097 in
  let yoe := (doe - doe / 1460 + doe / 36524 - doe / 146096) / 365 in
  let doy := doe - (365 * yoe + yoe / 4 - yoe / 100) in
  let mp := (5 * doy + 2) / 153 in
  let d := doy - (153 * mp + 2) / 5 + 1 in
  let m := if mp <? 10 then mp + 3 else mp - 9 in
  (if m <=? 2 then yoe + era * 400 + 1 else yoe + era * 400, m, d).

(** The day number of a proleptic Gregorian date. *)
Definition days_from_civil (y m d : Z) : Z :=
  let y' := if m <=? 2 then y - 1 else y in
  let era := y' / 400 in
  let yoe := y' - era * 400 in
  let doy := (153 * (if 2 <? m then m - 3 else m + 9) + 2) / 5 + d - 1 in
  let doe := yoe * 365 + yoe / 4 - yoe / 100 + doy in
  era * 146097 + doe - 719468.

Definition YearFromTime (t : Z) : Z := fst (fst (civil_from_days (Day t))).
(** The month, from 0. *)
Definition MonthFromTime (t : Z) : Z := snd (fst (civil_from_days (Day t))) - 1.
Definition DateFromTime (t : Z) : Z := snd (civil_from_days (Day t)).

Definition HourFromTime (t : Z) : Z := TimeWithinDay t / 3600000.
Definition MinFromTime (t : Z) : Z := (TimeWithinDay t / 60000) mod 60.
Definition SecFromTime (t : Z) : Z := (TimeWithinDay t / 1000) mod 60.
Definition msFromTime (t : Z) : Z := TimeWithinDay t mod 1000.

(** The decimal digits of a natural number. *)
Definition digit_char (d : Z) : ascii := ascii_of_N (Z.to_N (48 + d)).

Fixpoint digits (fuel : nat) (n : Z) (acc : string) : string :=
  match fuel with
  | O => acc
  | S fuel' =>
      let acc' := String (digit_char (n mod 10)) acc in
      if n / 10 =? 0 then acc' else digits fuel' (n / 10) acc'
  end.

Definition nat_toString (n : Z) : string :=
  digits (S (Z.to_nat (Z.log2 n))) n "".

(** [String(v)] for [v] an integer or [NaN]. *)
Definition int_toString (v : option Z) : string :=
  match v with
  | None => "NaN"
  | Some n => if n <? 0 then "-" ++ nat_toString (- n) else nat_toString n
  end.

Fixpoint repeat_char (n : nat) (c : ascii) (s : string) : string :=
  match n with
  | O => s
  | S n' => String c (repeat_char n' c s)
  end.

(** [s.padStart(targetLength, c)] for a filler [c] of one character. *)
Definition padStart (targetLength : nat) (c : ascii) (s : string) : string :=
  repeat_char (targetLength - String.length s) c s.

Definition pad (width : nat) (n : Z) : string :=
  padStart width "0" (nat_toString n).

Section Local.
Context {H : Host}.

Definition LocalTime (t : Z) : Z := t + LocalTZA t.

(** [date.getFullYear()] and [date.getMonth()]: fields of local time, [NaN]
    (here [None]) on an invalid date. *)
Definition getFullYear (date : Date) : option Z :=
  option_map (fun t => YearFromTime (LocalTime t)) date.

Definition getMonth (date : Date) : option Z :=
  option_map (fun t => MonthFromTime (LocalTime t)) date.

End Local.

(** The year of [toISOString]: four digits from 0 to 9999, otherwise a sign
    and six digits. *)
Definition iso_year (y : Z) : string :=
  if (0 <=? y) && (y <=? 9999) then pad 4 y
  else if y <? 0 then "-" ++ pad 6 (- y)
  else "+" ++ pad 6 y.

Definition iso_date (t : Z) : string :=
  iso_year (YearFromTime t) ++ "-" ++ pad 2 (MonthFromTime t + 1)
  ++ "-" ++ pad 2 (DateFromTime t).

Definition iso_time (t : Z) : string :=
  pad 2 (HourFromTime t) ++ ":" ++ pad 2 (MinFromTime t) ++ ":"
  ++ pad 2 (SecFromTime t) ++ "." ++ pad 3 (msFromTime t) ++ "Z".

(** [date.toISOString()]: in UTC; throws on an invalid date. *)
Definition toISOString (date : Date) : result string :=
  match date with
  | Some t => Ok (iso_date t ++ "T" ++ iso_time t)
  | None => Throw "RangeError: Invalid time value"
  end.

(** [s.split("T")[0]]. *)
Fixpoint split_T_0 (s : string) : string :=
  match s with
  | EmptyString => EmptyString
  | String c s' => if Ascii.eqb c "T" then EmptyString else String c (split_T_0 s')
  end.

End JSDate.

(** ** GET /api/sales-trend *)

Module Trend.

Record Entry : Type := {
  period : string;
  sales : num;
  profit : num;
  quantity : num
}.

Section Trend.
Context {H : Host}.

(** The period key of a date, as the loop of the handler derives it;
    [granularity] is the variable [period] of the handler. *)
Definition periodKey (granularity : string) (date : Date) : result string :=
  if String.eqb granularity "monthly" then
    Ok (JSDate.int_toString (JSDate.getFullYear date) ++ "-"
        ++ JSDate.padStart 2 "0"
             (JSDate.int_toString (option_map (fun m => m + 1) (JSDate.getMonth date))))
  else if String.eqb granularity "yearly" then
    Ok (JSDate.int_toString (JSDate.getFullYear date))
  else
    s <- JSDate.toISOString date ;; Ok (JSDate.split_T_0 s).

(** The body of the grouping loop.  Under a key that names an inherited
    member no entry is created, and the three updates land on that member,
    not on [trendData]. *)
Definition accumulate (granularity : string) (trendData : Obj.t Entry)
  (item : SalesRecord) : result (Obj.t Entry) :=
  let date := parseDate (Some (Order_Date item)) in
  key <- periodKey granularity date ;;
  let trendData1 :=
    if Obj.holds_object trendData key then trendData
    else
      Obj.set trendData key
        {| period := key; sales := zero; profit := zero; quantity := zero |} in
  match Obj.get trendData1 key with
  | Some e =>
      Ok (Obj.set trendData1 key
            {| period := period e;
               sales := (sales e + Sales item)%num;
               profit := (profit e + Profit item)%num;
               quantity := (quantity e + Quantity item)%num |})
  | None => Ok trendData1
  end.

Definition trendData (granularity : string) (filteredData : list SalesRecord)
  : result (Obj.t Entry) :=
  forEach (accumulate granularity) filteredData [].

(** [(a, b) => a.period.localeCompare(b.period)]. *)
Definition byPeriod (a b : Entry) : num :=
  num_of_comparison (localeCompare (period a) (period b)).

Definition trendArray (granularity : string) (filteredData : list SalesRecord)
  : result (list Entry) :=
  o <- trendData granularity filteredData ;;
  Ok (Array_sort byPeriod
        (map (fun item =>
                {| period := period item; sales := Math_round (sales item);
                   profit := Math_round (profit item); quantity := quantity item |})
             (Obj.values o))).

(** The handler: the parameter [period] defaults to ["monthly"] when it is
    [undefined]; a thrown exception becomes the error response. *)
Definition sales_trend (salesData : list SalesRecord)
  (state fromDate toDate customerId periodParam : param) : result (list Entry) :=
  let granularity := match periodParam with Some p => p | None => "monthly" end in
  trendArray granularity (applyFilters salesData state fromDate toDate customerId).

End Trend.
End Trend.

(** ** GET /api/analytics *)

Module Analytics.

(** The accumulator of a product. *)
Record ProductPerformance : Type := {
  productName : string;
  category : string;
  totalSales : num;
  totalProfit : num;
  totalQuantity : num;
  orderCount : num
}.

(** An entry of [topProducts]: the fields of the accumulator, [totalSales] and
    [totalProfit] replaced by their rounded values, and [avgOrderValue]. *)
Record TopProduct : Type := {
  fields : ProductPerformance;
  avgOrderValue : num
}.

(** The accumulator of a region. *)
Record RegionalPerformance : Type := {
  region : string;
  sales : num;
  profit : num;
  orders : num
}.

(** An entry of [regionArray]: the fields of the accumulator, [sales] and
    [profit] replaced by their rounded values, and [regionAvgOrderValue]
    (the field [avgOrderValue] of the entry). *)
Record RegionEntry : Type := {
  regionFields : RegionalPerformance;
  regionAvgOrderValue : num
}.

(** The summary block; [summaryAvgOrderValue] is its field [avgOrderValue]. *)
Record Summary : Type := {
  totalOrders : nat;
  uniqueCustomers : nat;
  summaryAvgOrderValue : num;
  totalCategories : nat
}.

Record Data : Type := {
  topProducts : list TopProduct;
  regionalPerformance : list RegionEntry;
  summary : Summary
}.

(** The body of the loop over the products.  Under a key that names an
    inherited member no entry is created, and the four updates land on that
    member, not on [productPerformance]. *)
Definition accumulateProduct (o : Obj.t ProductPerformance) (item : SalesRecord)
  : Obj.t ProductPerformance :=
  let key := Product_Name item in
  let o1 :=
    if Obj.holds_object o key then o
    else
      Obj.set o key
        {| productName := key; category := Category item; totalSales := zero;
           totalProfit := zero; totalQuantity := zero; orderCount := zero |} in
  match Obj.get o1 key with
  | Some e =>
      Obj.set o1 key
        {| productName := productName e; category := category e;
           totalSales := (totalSales e + Sales item)%num;
           totalProfit := (totalProfit e + Profit item)%num;
           totalQuantity := (totalQuantity e + Quantity item)%num;
           orderCount := (orderCount e + of_Z 1)%num |}
  | None => o1
  end.

Definition productPerformance (filteredData : list SalesRecord)
  : Obj.t ProductPerformance :=
  fold_left accumulateProduct filteredData [].

(** [(a, b) => b.totalSales - a.totalSales]. *)
Definition byTotalSalesDesc (a b : TopProduct) : num :=
  (totalSales (fields b) - totalSales (fields a))%num.

(** The entries of the products before they are sorted: the [map] over
    [Object.values(productPerformance)]. *)
Definition productEntries (filteredData : list SalesRecord) : list TopProduct :=
  map (fun item =>
         {| fields :=
              {| productName := productName item; category := category item;
                 totalSales := Math_round (totalSales item);
                 totalProfit := Math_round (totalProfit item);
                 totalQuantity := totalQuantity item;
                 orderCount := orderCount item |};
            avgOrderValue := Math_round (totalSales item / orderCount item) |})
      (Obj.values (productPerformance filteredData)).

Definition topProductsOf (filteredData : list SalesRecord) : list TopProduct :=
  slice0 10 (Array_sort byTotalSalesDesc (productEntries filteredData)).

(** The body of the loop over the regions; an inherited member is handled as
    in the loop over the products. *)
Definition accumulateRegion (o : Obj.t RegionalPerformance) (item : SalesRecord)
  : Obj.t RegionalPerformance :=
  let key := Region item in
  let o1 :=
    if Obj.holds_object o key then o
    else
      Obj.set o key
        {| region := key; sales := zero; profit := zero; orders := zero |} in
  match Obj.get o1 key with
  | Some e =>
      Obj.set o1 key
        {| region := region e;
           sales := (sales e + Sales item)%num;
           profit := (profit e + Profit item)%num;
           orders := (orders e + of_Z 1)%num |}
  | None => o1
  end.

Definition regionalPerformanceOf (filteredData : list SalesRecord)
  : Obj.t RegionalPerformance :=
  fold_left accumulateRegion filteredData [].

Definition regionArray (filteredData : list SalesRecord) : list RegionEntry :=
  map (fun item =>
         {| regionFields :=
              {| region := region item;
                 sales := Math_round (sales item);
                 profit := Math_round (profit item);
                 orders := orders item |};
            regionAvgOrderValue := Math_round (sales item / orders item) |})
      (Obj.values (regionalPerformanceOf filteredData)).

Definition summaryOf (filteredData : list SalesRecord) : Summary :=
  {| totalOrders := List.length filteredData;
     uniqueCustomers :=
       List.length (new_Set String.eqb (map Customer_ID filteredData));
     summaryAvgOrderValue :=
       Math_round (reduce_sum Sales filteredData
                   / of_nat (List.length filteredData));
     totalCategories :=
       List.length (new_Set String.eqb (map Category filteredData)) |}.

(** The handler: the data of the response. *)
Definition analytics {H : Host} (salesData : list SalesRecord)
  (state fromDate toDate : param) : Data :=
  let filteredData := filterData salesData state fromDate toDate in
  {| topProducts := topProductsOf filteredData;
     regionalPerformance := regionArray filteredData;
     summary := summaryOf filteredData |}.

End Analytics.

(** ** A host to run the handlers on examples *)

Module NodeUTC.

Definition digit (c : ascii) : option Z :=
  let n := Z.of_N (N_of_ascii c) in
  if (48 <=? n) && (n <=? 57) then Some (n - 48) else None.

Definition number (cs : list ascii) : option Z :=
  fold_left (fun acc c =>
               match acc, digit c with
               | Some n, Some d => Some (10 * n + d)
               | _, _ => None
               end) cs (Some 0).

(** The time value of midnight of a day given by year, month and day; the
    day runs from 1 to 31 in every month, and a day past the end of the month
    counts into the next month, as in V8. *)
Definition midnight (y m d : option Z) : Date :=
  match y, m, d with
  | Some y, Some m, Some d =>
      if (1 <=? m) && (m <=? 12) && (1 <=? d) && (d <=? 31)
      then Some (JSDate.days_from_civil y m d * JSDate.msPerDay)
      else None
  | _, _, _ => None
  end.

(** The year of a date that is not written in the date-time string format:
    a year from 0 to 49 is of this century, one from 50 to 99 of the last. *)
Definition legacy_year (y : Z) : Z :=
  if (0 <=? y) && (y <=? 49) then y + 2000
  else if (50 <=? y) && (y <=? 99) then y + 1900
  else y.

(** Three numbers separated by slashes: month, day and year, unless the
    first is no day of a month, when they are year, month and day. *)
Definition slashes (a b c : option Z) : Date :=
  match a, b, c with
  | Some a, Some b, Some c =>
      if (1 <=? a) && (a <=? 31)
      then midnight (Some (legacy_year c)) (Some a) (Some b)
      else midnight (Some (legacy_year a)) (Some b) (Some c)
  | _, _, _ => None
  end.

(** Two of the forms that [new Date(s)] reads: the date-only form
    [YYYY-MM-DD] of the date-time string format (midnight UTC) and the form
    [MM/DD/YYYY] (midnight in local time, which is UTC here).  Any other
    string is taken to be an invalid date; an engine reads further forms. *)
Definition parse (s : string) : Date :=
  match list_ascii_of_string s with
  | [y1; y2; y3; y4; "-"%char; m1; m2; "-"%char; d1; d2] =>
      midnight (number [y1; y2; y3; y4]) (number [m1; m2]) (number [d1; d2])
  | [m1; m2; "/"%char; d1; d2; "/"%char; y1; y2; y3; y4] =>
      slashes (number [m1; m2]) (number [d1; d2]) (number [y1; y2; y3; y4])
  | _ => None
  end.

(** The host of the examples: these date strings, a local time that is UTC,
    and strings collated by their code units.  The collation of an engine
    orders letters of different case or with accents otherwise; the examples
    collate period keys and names that both orders put the same way. *)
Definition host : Host := {|
  Date_parse := parse;
  LocalTZA := fun _ => 0;
  localeCompare := String.compare
|}.

End NodeUTC.

(** ** GET /api/date-range/:state *)

Module DateRange.

Record Range : Type := {
  minDate : string;
  maxDate : string
}.

(** The response: the data (status 200), the 404 of a state without record,
    or the 500 of a thrown exception (the response shows its message). *)
Inductive response : Type :=
| Success (data : Range)
| NotFound
| ServerError (error : string).

(** [ToNumber] of a date: its time value. *)
Definition valueOf (date : Date) : num :=
  match date with
  | Some t => of_Z t
  | None => NaN
  end.

(** [Math.min(...values)] and [Math.max(...values)]: [NaN] as soon as one
    value is [NaN], plus and minus infinity without a value. *)
Definition min2 (a x : num) : num :=
  if is_nan a || is_nan x then NaN else if lt x a then x else a.

Definition max2 (a x : num) : num :=
  if is_nan a || is_nan x then NaN else if gt x a then x else a.

Definition Math_min (values : list num) : num := fold_left min2 values PInf.
Definition Math_max (values : list num) : num := fold_left max2 values NInf.

Definition maxTime : Z := 8640000000000000.

Definition truncate (q : Q) : Z :=
  if Qle_bool 0 q then Qfloor q else Qceiling q.

(** [new Date(n)] for a number [n]: the time value is [TimeClip(n)]. *)
Definition Date_of_number (n : num) : Date :=
  match n with
  | Fin q =>
      if Qle_bool (Qabs q) (inject_Z maxTime) then Some (truncate q) else None
  | _ => None
  end.

(** The handler; [state] is the parameter of the route, a string. *)
Definition date_range {H : Host} (salesData : list SalesRecord) (state : string)
  : response :=
  let stateData := filter (fun item => String.eqb (State item) state) salesData in
  if (List.length stateData =? 0)%nat then NotFound
  else
    let dates := map (fun item => parseDate (Some (Order_Date item))) stateData in
    match
      (minISO <- JSDate.toISOString
                   (Date_of_number (Math_min (map valueOf dates))) ;;
       maxISO <- JSDate.toISOString
                   (Date_of_number (Math_max (map valueOf dates))) ;;
       Ok {| minDate := JSDate.split_T_0 minISO;
             maxDate := JSDate.split_T_0 maxISO |})
    with
    | Ok data => Success data
    | Throw error => ServerError error
    end.

End DateRange.

(** ** Vocabulary of the properties *)

(** The customer entry of a record. *)
Definition customer_of (item : SalesRecord) : Customers.Customer :=
  {| Customers.id := Customer_ID item; Customers.name := Customer_Name item |}.

(** A record that carries the given strings, with the sales, quantity,
    discount and profit that the given decimal literals denote; used to write
    examples. *)
Definition example_record (date customer name state key : string)
  (sales quantity discount profit : Q) : SalesRecord :=
  {| Order_Date := date; Customer_ID := customer; Customer_Name := name;
     Segment := key; City := key; State := state; Region := key;
     Category := key; Sub_Category := key; Product_Name := key;
     Sales := round64 sales; Quantity := round64 quantity;
     Discount := round64 discount; Profit := round64 profit |}.

(** The rational that a finite number denotes. *)
Definition rational_of (a : num) : Q :=
  match a with
  | Fin q => q
  | _ => 0%Q
  end.

(** The arithmetic mean of a list of rationals, in exact arithmetic. *)
Definition exact_mean (l : list Q) : Q :=
  (fold_right Qplus 0 l / inject_Z (Z.of_nat (List.length l)))%Q.

(** A rational rounded to one decimal place, in exact arithmetic. *)
Definition exact_round1 (x : Q) : Q :=
  (inject_Z (Qfloor (x * 10 + (1 # 2))) / 10)%Q.

(** The arithmetic mean of a list of numbers, in binary64: their sum, added
    from left to right, divided by their number. *)
Definition mean (l : list num) : num :=
  (fold_left add l zero / of_nat (List.length l))%num.

(** A number rounded to one decimal place, in binary64. *)
Definition round1 (x : num) : num := (Math_round (x * of_Z 10) / of_Z 10)%num.

(** A fraction as a percentage. *)
Definition percent (x : num) : num := (x * of_Z 100)%num.

(** The records with a discount. *)
Definition discounted (fd : list SalesRecord) : list SalesRecord :=
  filter (fun item => gt (Discount item) zero) fd.

(** The members of a list of strings, each once, in order of first
    occurrence. *)
Fixpoint first_occurrences (l : list string) : list string :=
  match l with
  | [] => []
  | x :: l' => x :: filter (fun y => negb (String.eqb y x)) (first_occurrences l')
  end.

(** The records of a group. *)
Definition group_of (key : SalesRecord -> string) (k : string)
  (fd : list SalesRecord) : list SalesRecord :=
  filter (fun item => String.eqb (key item) k) fd.

(** The shape that the grouping loops share: the entry of the key of each
    record is replaced by [upd] of its former value, [None] when there was
    none. *)
Definition group_by {V : Type} (key : SalesRecord -> string)
  (upd : option V -> SalesRecord -> V) (fd : list SalesRecord) (o : Obj.t V)
  : Obj.t V :=
  fold_left (fun o item => Obj.set o (key item) (upd (Obj.get o (key item)) item))
    fd o.

(** What the loops of the dashboard make of the entry of a key that names no
    inherited member: an entry that is missing, zero or [NaN] restarts from
    zero. *)
Definition sales_update (v : option Dashboard.value) (item : SalesRecord)
  : Dashboard.value :=
  match v with
  | None => Dashboard.Number (zero + Sales item)%num
  | Some (Dashboard.Number n) =>
      if truthy n then Dashboard.Number (n + Sales item)%num
      else Dashboard.Number (zero + Sales item)%num
  | Some Dashboard.Text => Dashboard.Text
  end.

(** What the loop over the products makes of an entry. *)
Definition product_update (v : option Analytics.ProductPerformance)
  (item : SalesRecord) : Analytics.ProductPerformance :=
  let e :=
    match v with
    | Some e => e
    | None =>
        {| Analytics.productName := Product_Name item;
           Analytics.category := Category item;
           Analytics.totalSales := zero; Analytics.totalProfit := zero;
           Analytics.totalQuantity := zero; Analytics.orderCount := zero |}
    end in
  {| Analytics.productName := Analytics.productName e;
     Analytics.category := Analytics.category e;
     Analytics.totalSales := (Analytics.totalSales e + Sales item)%num;
     Analytics.totalProfit := (Analytics.totalProfit e + Profit item)%num;
     Analytics.totalQuantity := (Analytics.totalQuantity e + Quantity item)%num;
     Analytics.orderCount := (Analytics.orderCount e + of_Z 1)%num |}.

(** What the loop over the regions makes of an entry. *)
Definition region_update (v : option Analytics.RegionalPerformance)
  (item : SalesRecord) : Analytics.RegionalPerformance :=
  let e :=
    match v with
    | Some e => e
    | None =>
        {| Analytics.region := Region item; Analytics.sales := zero;
           Analytics.profit := zero; Analytics.orders := zero |}
    end in
  {| Analytics.region := Analytics.region e;
     Analytics.sales := (Analytics.sales e + Sales item)%num;
     Analytics.profit := (Analytics.profit e + Profit item)%num;
     Analytics.orders := (Analytics.orders e + of_Z 1)%num |}.

(** The least positive number of binary64. *)
Definition least : Q := pow2 (-1074).

(** A number that [Math.round] returns for a number other than [NaN]: an
    integer or an infinity. *)
Definition integral (a : num) : Prop :=
  match a with
  | Fin q => exists z, q = inject_Z z
  | PInf => True
  | NInf => True
  | NaN => False
  end.

(** The records whose key names no member inherited from
    [Object.prototype]. *)
Definition own_records (key : SalesRecord -> string) (fd : list SalesRecord)
  : list SalesRecord :=
  filter (fun item => negb (Obj.inherited (key item))) fd.

(** No record has a key that names an inherited member. *)
Definition own_keys (key : SalesRecord -> string) (fd : list SalesRecord)
  : Prop :=
  forall item, In item fd -> Obj.inherited (key item) = false.

(** A key that a grouping object lists in order of creation: the name of no
    inherited member, and no array index. *)
Definition plain_key (k : string) : Prop :=
  Obj.inherited k = false /\ Obj.array_index k = None.

(** What [n] increments make of a counter that starts from 0. *)
Definition count_up (n : nat) : num :=
  Nat.iter n (fun c => (c + of_Z 1)%num) zero.

(** Two numbers that are equal as numbers. *)
Definition same_num (a b : num) : bool :=
  match a, b with
  | Fin x, Fin y => Qeq_bool x y
  | PInf, PInf | NInf, NInf => true
  | _, _ => false
  end.

(** [l1] is the beginning of [l2]. *)
Definition Prefix {A : Type} (l1 l2 : list A) : Prop :=
  exists rest, l2 = (l1 ++ rest)%list.

(** Each entry is at least its successor, for the metric [m]. *)
Definition descending {A : Type} (m : A -> num) (l : list A) : Prop :=
  forall i x y,
    nth_error l i = Some x -> nth_error l (S i) = Some y -> ge (m x) (m y) = true.

(** [out] is a top-[n] selection of [grouped] for the metric [m]: at most [n]
    of its entries, in descending order of the metric, the entries of equal
    metric in the order they have in [grouped]. *)
Definition top_n_of {A : Type} (n : nat) (m : A -> num) (grouped out : list A)
  : Prop :=
  (List.length out <= n)%nat
  /\ (forall e, In e out -> In e grouped)
  /\ descending m out
  /\ (forall v,
        Prefix (filter (fun e => same_num (m e) v) out)
               (filter (fun e => same_num (m e) v) grouped)).

(** The natural number [n] is written with [S w] decimal digits. *)
Definition has_digits (w : nat) (n : Z) : Prop :=
  0 <= n < 10 ^ Z.of_nat (S w) /\ (w = 0%nat \/ 10 ^ Z.of_nat w <= n).

(** The [w] decimal digits of a natural number below [10 ^ w]. *)
Fixpoint fixed (w : nat) (n : Z) : string :=
  match w with
  | O => EmptyString
  | S w' =>
      String (JSDate.digit_char (n / 10 ^ Z.of_nat w'))
        (fixed w' (n mod 10 ^ Z.of_nat w'))
  end.

(** The order of calendar dates (year, month, day). *)
Definition civil_le (a b : Z * Z * Z) : Prop :=
  let '(y1, m1, d1) := a in
  let '(y2, m2, d2) := b in
  y1 < y2 \/ (y1 = y2 /\ (m1 < m2 \/ (m1 = m2 /\ d1 <= d2))).

(** The period key reads the local clock: the granularity is monthly or
    yearly; any other granularity reads the UTC day. *)
Definition reads_local_time (granularity : string) : bool :=
  String.eqb granularity "monthly" || String.eqb granularity "yearly".

(** The period keys of two times write the year in the same way: for the
    monthly and yearly keys, the local years are natural numbers with the
    same number of digits; for the daily keys, the UTC years are both from 0
    to 9999 (four digits) or both from 10000 to 999999 (a sign and six
    digits). *)
Definition same_year_format {H : Host} (granularity : string) (t1 t2 : Z)
  : Prop :=
  if reads_local_time granularity then
    exists w,
      has_digits w (JSDate.YearFromTime (JSDate.LocalTime t1))
      /\ has_digits w (JSDate.YearFromTime (JSDate.LocalTime t2))
  else
    (0 <= JSDate.YearFromTime t1 <= 9999 /\ 0 <= JSDate.YearFromTime t2 <= 9999)
    \/ (10000 <= JSDate.YearFromTime t1 <= 999999
        /\ 10000 <= JSDate.YearFromTime t2 <= 999999).

(** The period key of a record, the empty string standing for a key that is
    not defined. *)
Definition period_of {H : Host} (granularity : string) (item : SalesRecord)
  : string :=
  match Trend.periodKey granularity (parseDate (Some (Order_Date item))) with
  | Ok k => k
  | Throw _ => EmptyString
  end.

(** What the loop of the trend makes of the entry of the key [k]. *)
Definition trend_update (keyf : SalesRecord -> string)
  (v : option Trend.Entry) (item : SalesRecord) : Trend.Entry :=
  let e :=
    match v with
    | Some e => e
    | None =>
        {| Trend.period := keyf item; Trend.sales := zero;
           Trend.profit := zero; Trend.quantity := zero |}
    end in
  {| Trend.period := Trend.period e;
     Trend.sales := (Trend.sales e + Sales item)%num;
     Trend.profit := (Trend.profit e + Profit item)%num;
     Trend.quantity := (Trend.quantity e + Quantity item)%num |}.

(** The records are dated with valid dates, any two of which have period
    keys that write the year in the same way; and, where the key reads the
    local clock, the local clock does not go back from the earlier date to
    the later one. *)
Definition comparable_dates {H : Host} (granularity : string)
  (fd : list SalesRecord) : Prop :=
  forall r1 r2, In r1 fd -> In r2 fd ->
    exists t1 t2,
      Date_parse (Order_Date r1) = Some t1
      /\ Date_parse (Order_Date r2) = Some t2
      /\ same_year_format granularity t1 t2
      /\ (reads_local_time granularity = true -> t1 <= t2 ->
          JSDate.LocalTime t1 <= JSDate.LocalTime t2).

(** A host whose local clock is one hour ahead of UTC until
    2016-12-31T23:30:00Z and on UTC from then on: the clock is set back by
    one hour half an hour into the local new year. *)
Definition clock_set_back : Host := {|
  Date_parse := NodeUTC.parse;
  LocalTZA := fun t => if t <? 1483227000000 then 3600000 else 0;
  localeCompare := String.compare
|}.

(** A character below ["_"]: a digit, a sign, a capital letter. *)
Definition low (c : ascii) : bool := (N_of_ascii c <? 95)%N.

(** A string that is empty or begins with such a character. *)
Definition low_start (s : string) : bool :=
  match s with
  | EmptyString => true
  | String c _ => low c
  end.

(** Twelve records of twelve cities, two of them with the same sales. *)
Definition twelve_cities : list SalesRecord :=
  map (fun p => example_record "2016-01-05" "C1" "Ann" "Texas" (fst p) (snd p) 1 0 1)
    [("Austin", 50%Q); ("Boston", 120%Q); ("Chicago", 70%Q); ("Dallas", 120%Q);
     ("Denver", 10%Q); ("Houston", 90%Q); ("Miami", 30%Q); ("Omaha", 20%Q);
     ("Phoenix", 60%Q); ("Reno", 5%Q); ("Seattle", 110%Q); ("Tampa", 40%Q)].

(** The day of a time as [toISOString().split("T")[0]] writes it. *)
Definition iso_day (t : Z) : string :=
  JSDate.split_T_0 (JSDate.iso_date t ++ "T" ++ JSDate.iso_time t).

(** A time value in the range of dates. *)
Definition valid_time (t : Z) : Prop := Z.abs t <= DateRange.maxTime.

(** The records of a state. *)
Definition records_of_state (state : string) (salesData : list SalesRecord)
  : list SalesRecord :=
  filter (fun item => String.eqb (State item) state) salesData.

(** [out] holds the largest entries of [grouped] for the metric [m]: the
    entries left out are at most the entries kept. *)
Definition largest_of {A : Type} (m : A -> num) (grouped out : list A) : Prop :=
  exists rest,
    Permutation (out ++ rest) grouped
    /\ forall a b, In a out -> In b rest -> ge (m a) (m b) = true.

(** Each entry of a chart is the total of a group that is not empty: its
    sales are the rounded sum of the sales of the records of its key. *)
Definition group_totals (key : SalesRecord -> string) (fd : list SalesRecord)
  (out : list Dashboard.ChartEntry) : Prop :=
  NoDup (map Dashboard.label out)
  /\ forall e, In e out ->
       (exists item, In item fd /\ key item = Dashboard.label e)
       /\ Dashboard.sales e
          = Math_round (reduce_sum Sales (group_of key (Dashboard.label e) fd)).

(** The sum of a list of natural numbers. *)
Definition sum_nat (l : list nat) : nat := fold_right Nat.add 0%nat l.

(** * Properties *)

Local Open Scope list_scope.

(** ** The filter *)

Lemma Subseq_refl {A : Type} (l : list A) : Subseq l l.
Proof. induction l; constructor; assumption. Qed.

Lemma Subseq_trans {A : Type} (l1 l2 l3 : list A) :
  Subseq l1 l2 -> Subseq l2 l3 -> Subseq l1 l3.
Proof.
  intros H12 H23. revert l1 H12.
  induction H23 as [| x l2 l3 _ IH | x l2 l3 _ IH]; intros l1 H12.
  - assumption.
  - apply Subseq_skip, IH, H12.
  - inversion H12; subst.
    + apply Subseq_skip, IH. assumption.
    + apply Subseq_keep, IH. assumption.
Qed.

Lemma Subseq_filter {A : Type} (f : A -> bool) (l : list A) :
  Subseq (filter f l) l.
Proof.
  induction l as [| x l IH]; simpl.
  - constructor.
  - destruct (f x); constructor; assumption.
Qed.

(** A filter keeps every occurrence that passes: it is the largest
    subsequence of passing elements. *)
Lemma Subseq_filter_greatest {A : Type} (f : A -> bool) (l' l : list A) :
  Subseq l' l -> Forall (fun x => f x = true) l' -> Subseq l' (filter f l).
Proof.
  induction 1 as [| x l1 l2 _ IH | x l1 l2 _ IH]; intros Hall; simpl.
  - constructor.
  - destruct (f x); [apply Subseq_skip|]; apply IH; assumption.
  - inversion Hall; subst.
    match goal with E : f x = true |- _ => rewrite E end.
    apply Subseq_keep, IH. assumption.
Qed.

Lemma filter_all {A : Type} (f : A -> bool) (l : list A) :
  (forall x, f x = true) -> filter f l = l.
Proof.
  intros Hf. induction l as [| x l IH]; simpl.
  - reflexivity.
  - rewrite Hf, IH. reflexivity.
Qed.

Lemma filter_filter {A : Type} (f g : A -> bool) (l : list A) :
  filter f (filter g l) = filter (fun x => g x && f x) l.
Proof.
  induction l as [| x l IH]; simpl; [reflexivity |].
  destruct (g x); simpl; [destruct (f x) |]; rewrite IH; reflexivity.
Qed.

Lemma truthy_param_false (p : param) : truthy_param p = false <-> absent p.
Proof.
  unfold absent. destruct p as [[| c s] |]; simpl; split; intros Hp;
    try discriminate; auto; destruct Hp as [Hp | Hp]; discriminate.
Qed.

Lemma truthy_param_true (p : param) : truthy_param p = true -> ~ absent p.
Proof.
  intros Ht Ha. apply truthy_param_false in Ha. congruence.
Qed.

Lemma strict_eq_true (s : string) (p : param) :
  strict_eq s p = true <-> p = Some s.
Proof.
  destruct p as [s' |]; simpl.
  - rewrite String.eqb_eq. split; congruence.
  - split; discriminate.
Qed.

Lemma date_ge_true (a b : Date) :
  date_ge a b = true <-> exists x y, a = Some x /\ b = Some y /\ y <= x.
Proof.
  destruct a as [x |], b as [y |]; simpl; split;
    try discriminate; try (intros (x' & y' & Ha & Hb & _); discriminate).
  - intros Hle. exists x, y. rewrite Z.leb_le in Hle. auto.
  - intros (x' & y' & Ha & Hb & Hle). injection Ha as <-. injection Hb as <-.
    apply Z.leb_le. assumption.
Qed.

Section FilterProperties.
Context {H : Host}.

Lemma stateMatch_spec (item : SalesRecord) (state : param) :
  negb (truthy_param state) || strict_eq (State item) state = true
  <-> passes_state item state.
Proof.
  unfold passes_state. rewrite orb_true_iff, negb_true_iff.
  rewrite truthy_param_false, strict_eq_true. reflexivity.
Qed.

Lemma fromMatch_spec (item : SalesRecord) (fromDate : param) :
  negb (truthy_param fromDate)
  || date_ge (parseDate (Some (Order_Date item))) (parseDate fromDate) = true
  <-> passes_from item fromDate.
Proof.
  unfold passes_from, parseDate. rewrite orb_true_iff, negb_true_iff.
  rewrite truthy_param_false, date_ge_true. simpl. reflexivity.
Qed.

Lemma toMatch_spec (item : SalesRecord) (toDate : param) :
  negb (truthy_param toDate)
  || date_le (parseDate (Some (Order_Date item))) (parseDate toDate) = true
  <-> passes_to item toDate.
Proof.
  unfold passes_to, parseDate, date_le. rewrite orb_true_iff, negb_true_iff.
  rewrite truthy_param_false, date_ge_true. simpl.
  split; (intros [Ha | (x & y & Hx & Hy & Hle)]; [left; assumption | right]);
    exists y, x; auto.
Qed.

Lemma filterCustomer_absent (fd : list SalesRecord) (customerId : param) :
  absent customerId -> filterCustomer fd customerId = fd.
Proof.
  intros Ha. apply truthy_param_false in Ha. unfold filterCustomer.
  rewrite Ha. reflexivity.
Qed.

Lemma Subseq_filterCustomer (fd : list SalesRecord) (customerId : param) :
  Subseq (filterCustomer fd customerId) fd.
Proof.
  unfold filterCustomer. destruct (truthy_param customerId).
  - apply Subseq_filter.
  - apply Subseq_refl.
Qed.

(** C1. The filter returns a subsequence of the records, in their order; with
    [state], [fromDate], [toDate] and [customerId] absent it returns the
    records unchanged; a record is kept by [filterData] exactly when it passes
    the three criteria (the state equal to the requested one, character for
    character; the date on or after [fromDate]; the date on or before
    [toDate]; an absent criterion passing every record), and every occurrence
    that passes is kept. *)
Theorem filterData_subsequence_and_criteria
  (data : list SalesRecord) (state fromDate toDate customerId : param) :
  Subseq (applyFilters data state fromDate toDate customerId) data
  /\ (absent state -> absent fromDate -> absent toDate -> absent customerId ->
      applyFilters data state fromDate toDate customerId = data)
  /\ (forall item,
        In item (filterData data state fromDate toDate)
        <-> In item data /\ passes_state item state
            /\ passes_from item fromDate /\ passes_to item toDate)
  /\ (forall l,
        Subseq l data ->
        Forall (fun item => passes_state item state
                            /\ passes_from item fromDate
                            /\ passes_to item toDate) l ->
        Subseq l (filterData data state fromDate toDate)).
Proof.
  assert (Hkeep : forall item,
            (negb (truthy_param state) || strict_eq (State item) state)
            && ((negb (truthy_param fromDate)
                 || date_ge (parseDate (Some (Order_Date item)))
                      (parseDate fromDate))
                && (negb (truthy_param toDate)
                    || date_le (parseDate (Some (Order_Date item)))
                         (parseDate toDate))) = true
            <-> passes_state item state /\ passes_from item fromDate
                /\ passes_to item toDate).
  { intros item. rewrite !andb_true_iff.
    rewrite stateMatch_spec, fromMatch_spec, toMatch_spec. reflexivity. }
  split; [| split; [| split]].
  - unfold applyFilters.
    eapply Subseq_trans; [apply Subseq_filterCustomer | apply Subseq_filter].
  - intros Hs Hf Ht Hc. unfold applyFilters.
    rewrite (filterCustomer_absent _ _ Hc). unfold filterData.
    apply filter_all. intros item.
    apply truthy_param_false in Hs, Hf, Ht. rewrite Hs, Hf, Ht. reflexivity.
  - intros item. unfold filterData. rewrite filter_In. cbv zeta.
    rewrite Hkeep. reflexivity.
  - intros l Hsub Hall. unfold filterData. apply Subseq_filter_greatest.
    + assumption.
    + eapply Forall_impl; [| exact Hall]. cbv beta zeta.
      intros item Hp. apply Hkeep. exact Hp.
Qed.

End FilterProperties.

(** The filter on an example: with no criterion the records come back, and a
    record dated on a bound passes that bound. *)
Lemma filterData_subsequence_and_criteria_witness :
  let data := [example_record "2016-01-01" "C1" "Ann" "Texas" "k" 1 1 0 1;
               example_record "2016-06-15" "C2" "Bob" "texas" "k" 2 1 0 1] in
  applyFilters (H := NodeUTC.host) data None (Some "") None None = data
  /\ filterData (H := NodeUTC.host) data (Some "Texas")
       (Some "2016-01-01") (Some "2016-06-15")
     = [example_record "2016-01-01" "C1" "Ann" "Texas" "k" 1 1 0 1].
Proof.
  intros data. split.
  - apply (proj1 (proj2 (filterData_subsequence_and_criteria
                           (H := NodeUTC.host) data None (Some "") None None)));
      unfold absent; auto.
  - vm_compute. reflexivity.
Defined.

(** ** Sorting and sets of the arrays *)

Section ArrayProperties.
Context {A : Type}.

Lemma sort_insert_Permutation (c : A -> A -> num) (x : A) (l : list A) :
  Permutation (sort_insert c x l) (x :: l).
Proof.
  induction l as [| y l IH]; simpl.
  - apply Permutation_refl.
  - destruct (gt (c x y) zero).
    + eapply perm_trans; [apply perm_skip, IH | apply perm_swap].
    + apply Permutation_refl.
Qed.

Lemma Array_sort_Permutation (c : A -> A -> num) (l : list A) :
  Permutation (Array_sort c l) l.
Proof.
  induction l as [| x l IH]; simpl.
  - apply Permutation_refl.
  - eapply perm_trans; [apply sort_insert_Permutation | apply perm_skip, IH].
Qed.

Lemma Array_sort_length (c : A -> A -> num) (l : list A) :
  List.length (Array_sort c l) = List.length l.
Proof. apply Permutation_length, Array_sort_Permutation. Qed.

Lemma Array_sort_In (c : A -> A -> num) (l : list A) (x : A) :
  In x (Array_sort c l) <-> In x l.
Proof.
  split; apply Permutation_in;
    [| apply Permutation_sym]; apply Array_sort_Permutation.
Qed.

Variable same : A -> A -> bool.
Hypothesis same_spec : forall x y, same x y = true <-> x = y.

Lemma existsb_same (x : A) (s : list A) : existsb (same x) s = true <-> In x s.
Proof.
  rewrite existsb_exists. split.
  - intros (y & Hin & Hs). apply same_spec in Hs. subst. assumption.
  - intros Hin. exists x. split; [assumption | apply same_spec; reflexivity].
Qed.

(** A set built from members that are all distinct keeps them all. *)
Lemma new_Set_from (l s : list A) :
  NoDup (s ++ l) -> fold_left (Set_add same) l s = s ++ l.
Proof.
  revert s. induction l as [| x l IH]; intros s Hnd; simpl.
  - rewrite app_nil_r. reflexivity.
  - unfold Set_add at 2.
    destruct (existsb (same x) s) eqn:E.
    + apply existsb_same in E. apply NoDup_remove_2 in Hnd.
      exfalso. apply Hnd. apply in_or_app. left. assumption.
    + rewrite IH; rewrite <- app_assoc; simpl; [reflexivity | assumption].
Qed.

Lemma new_Set_NoDup_id (l : list A) : NoDup l -> new_Set same l = l.
Proof. intros Hnd. unfold new_Set. rewrite new_Set_from; auto. Qed.

End ArrayProperties.

(** ** The customer directory *)

Section CustomersProperties.
Import Customers.

Lemma map_alloc_spec (data : list SalesRecord) (h : heap) :
  map_alloc h data
  = ((h ++ map customer_of data)%list, seq (List.length h) (List.length data)).
Proof.
  revert h. induction data as [| item data IH]; intros h; simpl.
  - rewrite app_nil_r. reflexivity.
  - rewrite IH. rewrite <- app_assoc, length_app. simpl.
    rewrite Nat.add_1_r. reflexivity.
Qed.

Lemma map_deref_seq (h : heap) :
  map (deref h) (seq 0 (List.length h)) = h.
Proof.
  unfold deref. induction h as [| c h IH]; simpl.
  - reflexivity.
  - f_equal. rewrite <- seq_shift, map_map. simpl. exact IH.
Qed.

(** The handler returns one entry for each record: the objects that the set
    receives are all distinct, so that none is dropped. *)
Lemma customers_Permutation {H : Host} (salesData : list SalesRecord) :
  Permutation (customers salesData) (map customer_of salesData).
Proof.
  unfold customers. rewrite map_alloc_spec. simpl.
  rewrite new_Set_NoDup_id.
  - set (h := map customer_of salesData).
    replace (List.length salesData) with (List.length h) by apply length_map.
    eapply perm_trans; [apply Permutation_map, Array_sort_Permutation |].
    rewrite map_deref_seq. apply Permutation_refl.
  - intros x y. apply Nat.eqb_eq.
  - apply seq_NoDup.
Qed.

(** C2. Two records with the same customer id and the same customer name
    yield two entries of the customer directory, not one: each record is
    mapped to a new object, and the set keeps every object. *)
Theorem customers_identical_pair_listed_twice {H : Host} (item : SalesRecord) :
  Customers.customers [item; item] = [customer_of item; customer_of item].
Proof.
  unfold customers. simpl. unfold new_Set, Set_add. simpl.
  destruct (gt (byName _ 0%nat 1%nat) zero); reflexivity.
Qed.

End CustomersProperties.

(** ** The cards of the dashboard *)

Lemma reduce_sum_map {A : Type} (f : A -> num) (l : list A) :
  reduce_sum f l = fold_left add (map f l) zero.
Proof.
  unfold reduce_sum. generalize zero.
  induction l as [| x l IH]; intros acc; simpl; [reflexivity | apply IH].
Qed.

Lemma discountData_nonempty (fd : list SalesRecord) :
  (exists item, In item fd /\ gt (Discount item) zero = true) ->
  (0 <? List.length (Dashboard.discountData fd))%nat = true.
Proof.
  intros (item & Hin & Hgt). apply Nat.ltb_lt.
  assert (Hd : In item (Dashboard.discountData fd)).
  { unfold Dashboard.discountData. apply filter_In. auto. }
  destruct (Dashboard.discountData fd); [destruct Hd | simpl; lia].
Qed.

Lemma discountData_empty (fd : list SalesRecord) :
  (forall item, In item fd -> gt (Discount item) zero = false) ->
  Dashboard.discountData fd = [].
Proof.
  intros Hno. unfold Dashboard.discountData.
  induction fd as [| item fd IH]; simpl.
  - reflexivity.
  - rewrite (Hno item) by (left; reflexivity).
    apply IH. intros item' Hin. apply Hno. right. assumption.
Qed.

Lemma discounted_idempotent (fd : list SalesRecord) :
  discounted (discounted fd) = discounted fd.
Proof.
  unfold discounted. rewrite filter_filter. apply filter_ext.
  intros item. apply andb_diag.
Qed.

(** [Math.round] returns the integer [k] with [k - 1/2 <= x < k + 1/2]. *)
Lemma Math_round_nearest (x : Q) :
  exists k : Z,
    Math_round (Fin x) = of_Z k
    /\ (inject_Z k - (1 # 2) <= x)%Q /\ (x < inject_Z k + (1 # 2))%Q.
Proof.
  exists (Qfloor (x + (1 # 2))). split; [reflexivity |].
  pose proof (Qfloor_le (x + (1 # 2))) as Hlo.
  pose proof (Qlt_floor (x + (1 # 2))) as Hhi.
  rewrite inject_Z_plus in Hhi. split.
  - apply (Qplus_le_l _ _ (1 # 2)). ring_simplify.
    ring_simplify in Hlo. exact Hlo.
  - apply (Qplus_lt_l _ _ (1 # 2)).
    setoid_replace (inject_Z (Qfloor (x + (1 # 2))) + (1 # 2) + (1 # 2))%Q
      with (inject_Z (Qfloor (x + (1 # 2))) + inject_Z 1)%Q by ring.
    exact Hhi.
Qed.

(** C3, as stated, fails: for four records with the discounts 0.1, 0.1, 0.15
    and 0.8 the mean of the discounts is 0.2875 and a little more (the
    numbers of binary64 that the literals denote add up to a little more
    than 1.15), which is 28.8 as a percentage rounded to one decimal place;
    the handler returns 28.7, the sum and the products being rounded to
    binary64 on the way. *)
Lemma discountPercentage_exact_mean_counterexample :
  let fd := [example_record "2016-01-05" "C1" "Ann" "Texas" "k" 10 1 0.1 1;
             example_record "2016-01-06" "C2" "Bob" "Texas" "k" 10 1 0.1 1;
             example_record "2016-01-07" "C3" "Cid" "Texas" "k" 10 1 0.15 1;
             example_record "2016-01-08" "C4" "Dan" "Texas" "k" 10 1 0.8 1] in
  (exact_round1
     (exact_mean (map rational_of (map Discount (discounted fd))) * 100)
   == 28.8)%Q
  /\ Dashboard.discountPercentage (Dashboard.cardsOf fd) = round64 28.7
  /\ round64 28.7 <> round64 28.8.
Proof.
  intros fd. split; [vm_compute; reflexivity |].
  split; [vm_compute; reflexivity |].
  vm_compute. discriminate.
Qed.

(** C3, amended. When some record of the filtered set has a discount above
    zero, the discount percentage of the cards is computed in binary64 from
    exactly the records with a discount above zero: their discounts are
    added in the order of the records, the sum is divided by their number
    and multiplied by 100, and the result [p] is rounded to one decimal place
    as [Math.round(p * 10) / 10], the quotient by 10 of the integer nearest
    to [p * 10]; the other records change nothing.  The records with sales
    100 and 200, quantity 1 and 2, discount 0 and 0.2, profit 10 and 20 give
    total sales 300, quantity 3, profit 30 and discount percentage 20.0. *)
Theorem discountPercentage_mean_of_discounted :
  (forall fd : list SalesRecord,
     (exists item, In item fd /\ gt (Discount item) zero = true) ->
     Dashboard.discountPercentage (Dashboard.cardsOf fd)
     = round1 (percent (mean (map Discount (discounted fd))))
     /\ Dashboard.discountPercentage (Dashboard.cardsOf fd)
        = Dashboard.discountPercentage (Dashboard.cardsOf (discounted fd))
     /\ (forall x : Q,
           (percent (mean (map Discount (discounted fd))) * of_Z 10)%num = Fin x ->
           exists k : Z,
             Dashboard.discountPercentage (Dashboard.cardsOf fd)
             = (of_Z k / of_Z 10)%num
             /\ (inject_Z k - (1 # 2) <= x)%Q /\ (x < inject_Z k + (1 # 2))%Q))
  /\ Dashboard.cardsOf
       [example_record "2016-01-05" "C1" "Ann" "Texas" "k" 100 1 0 10;
        example_record "2016-01-20" "C2" "Bob" "Texas" "k" 200 2 0.2 20]
     = {| Dashboard.totalSales := Fin 300; Dashboard.quantitySold := Fin 3;
          Dashboard.discountPercentage := Fin 20; Dashboard.profit := Fin 30 |}.
Proof.
  assert (Hcard : forall fd : list SalesRecord,
            (exists item, In item fd /\ gt (Discount item) zero = true) ->
            Dashboard.discountPercentage (Dashboard.cardsOf fd)
            = round1 (percent (mean (map Discount (discounted fd))))).
  { intros fd Hex. unfold Dashboard.cardsOf, Dashboard.avgDiscount. simpl.
    rewrite (discountData_nonempty fd Hex).
    unfold round1, percent, mean, discounted, Dashboard.discountData.
    rewrite reduce_sum_map, length_map. reflexivity. }
  split; [| vm_compute; reflexivity].
  intros fd Hex. split; [apply Hcard, Hex |]. split.
  - rewrite !Hcard; [rewrite discounted_idempotent; reflexivity | | exact Hex].
    destruct Hex as (item & Hin & Hgt). exists item.
    split; [| assumption]. unfold discounted. apply filter_In. auto.
  - intros x Hx. rewrite (Hcard fd Hex). unfold round1. rewrite Hx.
    destruct (Math_round_nearest x) as (k & -> & Hlo & Hhi).
    exists k. auto.
Qed.

Lemma discountPercentage_mean_of_discounted_witness :
  let fd := [example_record "2016-01-05" "C1" "Ann" "Texas" "k" 100 1 0 10;
             example_record "2016-01-20" "C2" "Bob" "Texas" "k" 200 2 0.2 20] in
  Dashboard.discountPercentage (Dashboard.cardsOf fd)
  = round1 (percent (mean [round64 0.2])).
Proof.
  intros fd.
  apply (proj1 discountPercentage_mean_of_discounted fd).
  exists (example_record "2016-01-20" "C2" "Bob" "Texas" "k" 200 2 0.2 20).
  split; [right; left; reflexivity | vm_compute; reflexivity].
Defined.

(** C4, as stated, fails: with no discounted record the discount percentage
    is not [NaN]. *)
Lemma discountPercentage_no_discount_counterexample :
  let fd := [example_record "2016-01-05" "C1" "Ann" "Texas" "k" 100 1 0 10] in
  (forall item, In item fd -> gt (Discount item) zero = false)
  /\ Dashboard.discountPercentage (Dashboard.cardsOf fd) <> NaN.
Proof.
  intros fd. split.
  - intros item [<- | []]. vm_compute. reflexivity.
  - vm_compute. discriminate.
Qed.

(** C4, amended. When no record of the filtered set has a discount above
    zero, the discount percentage of the cards is 0: the handler puts 0 in
    the place of the average when there is nothing to average. *)
Theorem discountPercentage_zero_without_discount (fd : list SalesRecord) :
  (forall item, In item fd -> gt (Discount item) zero = false) ->
  Dashboard.discountPercentage (Dashboard.cardsOf fd) = Fin 0.
Proof.
  intros Hno. unfold Dashboard.cardsOf, Dashboard.avgDiscount. simpl.
  rewrite (discountData_empty fd Hno). simpl. vm_compute. reflexivity.
Qed.

Lemma discountPercentage_zero_without_discount_witness :
  Dashboard.discountPercentage
    (Dashboard.cardsOf
       [example_record "2016-01-05" "C1" "Ann" "Texas" "k" 100 1 0 10])
  = Fin 0.
Proof.
  apply discountPercentage_zero_without_discount.
  intros item [<- | []]. vm_compute. reflexivity.
Defined.

(** ** The analytics of an empty selection *)

(** C5. When the filters match no record, the analytics handler returns its
    data (no step of it can throw): no top product, no region, a summary
    with 0 orders, 0 customers, 0 categories, and an average order value that
    is [NaN], the quotient of 0 by 0. *)
Theorem analytics_of_empty_selection {H : Host}
  (salesData : list SalesRecord) (state fromDate toDate : param) :
  filterData salesData state fromDate toDate = [] ->
  Analytics.analytics salesData state fromDate toDate
  = {| Analytics.topProducts := [];
       Analytics.regionalPerformance := [];
       Analytics.summary :=
         {| Analytics.totalOrders := 0;
            Analytics.uniqueCustomers := 0;
            Analytics.summaryAvgOrderValue := NaN;
            Analytics.totalCategories := 0 |} |}.
Proof.
  intros Hempty. unfold Analytics.analytics. rewrite Hempty.
  vm_compute. reflexivity.
Qed.

Lemma analytics_of_empty_selection_witness :
  Analytics.summaryAvgOrderValue
    (Analytics.summary
       (Analytics.analytics (H := NodeUTC.host)
          [example_record "2016-01-05" "C1" "Ann" "Texas" "k" 100 1 0 10]
          (Some "Ohio") None None))
  = NaN.
Proof.
  rewrite (analytics_of_empty_selection (H := NodeUTC.host)
             [example_record "2016-01-05" "C1" "Ann" "Texas" "k" 100 1 0 10]
             (Some "Ohio") None None).
  - reflexivity.
  - vm_compute. reflexivity.
Defined.

(** ** Dictionaries and the grouping loops *)

Lemma filter_partition_Permutation {A : Type} (f : A -> bool) (l : list A) :
  Permutation (filter f l ++ filter (fun x => negb (f x)) l) l.
Proof.
  induction l as [| x l IH]; simpl; [apply Permutation_refl |].
  destruct (f x); simpl.
  - apply perm_skip, IH.
  - apply Permutation_sym, Permutation_cons_app, Permutation_sym, IH.
Qed.

Lemma filter_none {A : Type} (f : A -> bool) (l : list A) :
  (forall x, In x l -> f x = false) -> filter f l = [].
Proof.
  induction l as [| x l IH]; intros Hf; simpl; [reflexivity |].
  rewrite (Hf x) by (left; reflexivity).
  apply IH. intros y Hy. apply Hf. right. assumption.
Qed.

Lemma filter_every {A : Type} (f : A -> bool) (l : list A) :
  (forall x, In x l -> f x = true) -> filter f l = l.
Proof.
  induction l as [| x l IH]; intros Hf; simpl; [reflexivity |].
  rewrite (Hf x) by (left; reflexivity).
  f_equal. apply IH. intros y Hy. apply Hf. right. assumption.
Qed.

Section ObjProperties.
Context {V : Type}.
Implicit Types (o : Obj.t V) (k : string) (v : V).

Lemma get_set_same o k v : Obj.get (Obj.set o k v) k = Some v.
Proof.
  induction o as [| [k0 v0] o IH]; simpl.
  - rewrite String.eqb_refl. reflexivity.
  - destruct (String.eqb k0 k) eqn:E; simpl; rewrite E; auto.
Qed.

Lemma get_set_other o k k' v :
  k' <> k -> Obj.get (Obj.set o k v) k' = Obj.get o k'.
Proof.
  intros Hne. induction o as [| [k0 v0] o IH]; simpl.
  - apply String.eqb_neq in Hne. rewrite String.eqb_sym, Hne. reflexivity.
  - destruct (String.eqb k0 k) eqn:E; simpl.
    + apply String.eqb_eq in E. subst k0.
      destruct (String.eqb k k') eqn:E'; [| reflexivity].
      apply String.eqb_eq in E'. congruence.
    + rewrite IH. reflexivity.
Qed.

Lemma set_set o k v v' : Obj.set (Obj.set o k v) k v' = Obj.set o k v'.
Proof.
  induction o as [| [k0 v0] o IH]; simpl.
  - rewrite String.eqb_refl. reflexivity.
  - destruct (String.eqb k0 k) eqn:E; simpl; rewrite E; [| rewrite IH]; reflexivity.
Qed.

Lemma keys_set o k v :
  map fst (Obj.set o k v) = Set_add String.eqb (map fst o) k.
Proof.
  unfold Set_add. induction o as [| [k0 v0] o IH]; simpl.
  - reflexivity.
  - rewrite (String.eqb_sym k k0).
    destruct (String.eqb k0 k) eqn:E; simpl.
    + reflexivity.
    + rewrite IH. destruct (existsb (String.eqb k) (map fst o)); reflexivity.
Qed.

Lemma get_In o k v : In (k, v) o -> NoDup (map fst o) -> Obj.get o k = Some v.
Proof.
  induction o as [| [k0 v0] o IH]; simpl; intros Hin Hnd.
  - destruct Hin.
  - inversion Hnd as [| ? ? Hnotin Hnd']; subst.
    destruct Hin as [Heq | Hin].
    + injection Heq as -> ->. rewrite String.eqb_refl. reflexivity.
    + destruct (String.eqb k0 k) eqn:E.
      * apply String.eqb_eq in E. subst. exfalso. apply Hnotin.
        apply (in_map fst) in Hin. assumption.
      * apply IH; assumption.
Qed.

Lemma insert_index_Permutation (p : string * V) (l : list (string * V)) :
  Permutation (Obj.insert_index p l) (p :: l).
Proof.
  induction l as [| q l IH]; simpl.
  - apply Permutation_refl.
  - destruct (Obj.index_of p <=? Obj.index_of q)%N.
    + apply Permutation_refl.
    + eapply perm_trans; [apply perm_skip, IH | apply perm_swap].
Qed.

Lemma entries_Permutation o : Permutation (Obj.entries o) o.
Proof.
  unfold Obj.entries.
  eapply perm_trans; [| apply (filter_partition_Permutation Obj.is_index)].
  apply Permutation_app_tail.
  induction (filter Obj.is_index o) as [| p l IH]; simpl.
  - apply Permutation_refl.
  - eapply perm_trans; [apply insert_index_Permutation | apply perm_skip, IH].
Qed.

Lemma entries_In o (p : string * V) : In p (Obj.entries o) <-> In p o.
Proof.
  split; apply Permutation_in;
    [| apply Permutation_sym]; apply entries_Permutation.
Qed.

(** Without a key that is an array index, the entries come in order of
    creation. *)
Lemma entries_creation_order o :
  (forall k, In k (map fst o) -> Obj.array_index k = None) ->
  Obj.entries o = o.
Proof.
  intros Hno. unfold Obj.entries.
  assert (Hidx : forall p, In p o -> Obj.is_index p = false).
  { intros p Hp. unfold Obj.is_index. rewrite Hno; [reflexivity |].
    apply in_map. assumption. }
  rewrite (filter_none _ _ Hidx). simpl.
  apply filter_every. intros p Hp. rewrite (Hidx p Hp). reflexivity.
Qed.

Variable key : SalesRecord -> string.
Variable upd : option V -> SalesRecord -> V.

Lemma group_by_keys (fd : list SalesRecord) o :
  map fst (group_by key upd fd o)
  = fold_left (Set_add String.eqb) (map key fd) (map fst o).
Proof.
  unfold group_by. revert o.
  induction fd as [| item fd IH]; intros o; simpl.
  - reflexivity.
  - rewrite IH, keys_set. reflexivity.
Qed.

Lemma group_by_get (fd : list SalesRecord) o k :
  Obj.get (group_by key upd fd o) k
  = fold_left (fun acc item => Some (upd acc item)) (group_of key k fd)
      (Obj.get o k).
Proof.
  unfold group_by, group_of. revert o.
  induction fd as [| item fd IH]; intros o; simpl.
  - reflexivity.
  - rewrite IH. destruct (String.eqb (key item) k) eqn:E; simpl.
    + apply String.eqb_eq in E. subst k. rewrite get_set_same. reflexivity.
    + apply String.eqb_neq in E. rewrite get_set_other by congruence.
      reflexivity.
Qed.

End ObjProperties.

Lemma first_occurrences_from (l s : list string) :
  fold_left (Set_add String.eqb) l s
  = s ++ filter (fun y => negb (existsb (String.eqb y) s)) (first_occurrences l).
Proof.
  revert s. induction l as [| x l IH]; intros s; simpl.
  - rewrite app_nil_r. reflexivity.
  - rewrite IH. unfold Set_add. rewrite filter_filter.
    destruct (existsb (String.eqb x) s) eqn:E; simpl.
    + f_equal. apply filter_ext. intros y.
      destruct (String.eqb y x) eqn:Eyx; simpl.
      * apply String.eqb_eq in Eyx. subst y. rewrite E. reflexivity.
      * reflexivity.
    + rewrite <- app_assoc. simpl. f_equal. f_equal.
      apply filter_ext. intros y. rewrite existsb_app. simpl.
      destruct (String.eqb y x), (existsb (String.eqb y) s); reflexivity.
Qed.

Lemma new_Set_first_occurrences (l : list string) :
  new_Set String.eqb l = first_occurrences l.
Proof.
  unfold new_Set. rewrite first_occurrences_from. simpl.
  apply filter_every. reflexivity.
Qed.

Lemma first_occurrences_NoDup (l : list string) : NoDup (first_occurrences l).
Proof.
  induction l as [| x l IH]; simpl; constructor.
  - rewrite filter_In. intros [_ Hx]. rewrite String.eqb_refl in Hx. discriminate.
  - apply NoDup_filter, IH.
Qed.

Lemma first_occurrences_In (l : list string) (x : string) :
  In x (first_occurrences l) <-> In x l.
Proof.
  induction l as [| y l IH]; simpl; [reflexivity |].
  rewrite filter_In, IH. destruct (String.eqb x y) eqn:E.
  - apply String.eqb_eq in E. subst. intuition discriminate.
  - apply String.eqb_neq in E. simpl. intuition congruence.
Qed.

(** The keys of a grouping loop that starts from the empty object: the keys of
    the records in order of first occurrence. *)
Lemma group_by_first_occurrences {V : Type} (key : SalesRecord -> string)
  (upd : option V -> SalesRecord -> V) (fd : list SalesRecord) :
  map fst (group_by key upd fd []) = first_occurrences (map key fd).
Proof. rewrite group_by_keys. apply new_Set_first_occurrences. Qed.

(** ** Numbers of binary64 *)

Section Rounding.
Local Open Scope Q_scope.

Lemma pow2_pos (e : Z) : 0 < pow2 e.
Proof. apply Qpower_0_lt. reflexivity. Qed.

Lemma pow2_le (e1 e2 : Z) : (e1 <= e2)%Z -> pow2 e1 <= pow2 e2.
Proof. intros He. apply Qpower_le_compat_l; [assumption | discriminate]. Qed.

Lemma pow2_Z (e : Z) : (0 <= e)%Z -> pow2 e == inject_Z (2 ^ e).
Proof. intros He. unfold pow2. rewrite Zpower_Qpower by assumption. reflexivity. Qed.

Lemma Qlog2_le (a : Q) : 0 < a -> pow2 (Qlog2 a) <= a.
Proof.
  intros Ha. unfold Qlog2.
  set (k := (Z.log2 (Qnum a) - Z.log2 (Zpos (Qden a)))%Z).
  destruct (Qle_bool (pow2 k) a) eqn:E; [apply Qle_bool_iff; assumption |].
  destruct a as [n d]. unfold Qlt in Ha. cbn [Qnum Qden] in *.
  assert (Hn : (0 < n)%Z) by lia.
  pose proof (Z.log2_spec n Hn) as [Hn1 _].
  pose proof (Z.log2_spec (Zpos d) ltac:(lia)) as [_ Hd2].
  pose proof (Z.log2_nonneg n) as Hln. pose proof (Z.log2_nonneg (Zpos d)) as Hld.
  replace (k - 1)%Z with (Z.log2 n + - (Z.log2 (Zpos d) + 1))%Z by (subst k; lia).
  unfold pow2. rewrite Qpower_plus by discriminate. rewrite Qpower_opp.
  fold (pow2 (Z.log2 n)). fold (pow2 (Z.log2 (Z.pos d) + 1)).
  rewrite !pow2_Z by lia.
  set (A := (2 ^ Z.log2 n)%Z) in *. set (B := (2 ^ (Z.log2 (Z.pos d) + 1))%Z) in *.
  replace (Z.succ (Z.log2 (Z.pos d))) with (Z.log2 (Z.pos d) + 1)%Z in Hd2 by lia.
  fold B in Hd2.
  assert (HA : (0 < A)%Z) by (subst A; apply Z.pow_pos_nonneg; lia).
  assert (HB : (0 < B)%Z) by lia.
  apply Qle_shift_div_r.
  - unfold Qlt, inject_Z; simpl; lia.
  - unfold Qle, Qmult, inject_Z; simpl. nia.
Qed.

Lemma round_half_even_bounds (x : Q) :
  (Qfloor x <= round_half_even x <= Qfloor x + 1)%Z.
Proof.
  unfold round_half_even.
  destruct ((x - inject_Z (Qfloor x)) ?= (1 # 2)); [destruct (Z.even _) | |]; lia.
Qed.

Lemma round_half_even_Z (z : Z) : round_half_even (inject_Z z) = z.
Proof.
  unfold round_half_even. rewrite Qfloor_Z.
  assert (E : ((inject_Z z - inject_Z z) ?= (1 # 2)) = Lt).
  { apply Qlt_alt. setoid_replace (inject_Z z - inject_Z z) with 0 by ring.
    reflexivity. }
  rewrite E. reflexivity.
Qed.

Lemma round64_pos_eq (a r : Q) :
  round64_pos a = Some r ->
  r == inject_Z (round_half_even (a / pow2 (Z.max (Qlog2 a - 52) (-1074))))
       * pow2 (Z.max (Qlog2 a - 52) (-1074)).
Proof.
  unfold round64_pos. cbv zeta.
  destruct (Qle_bool _ _); [discriminate |]. intros E.
  assert (Hr : r = Qred (inject_Z
                   (round_half_even (a / pow2 (Z.max (Qlog2 a - 52) (-1074))))
                 * pow2 (Z.max (Qlog2 a - 52) (-1074))))
    by congruence.
  rewrite Hr. apply Qred_correct.
Qed.

Lemma round64_pos_nonneg (a r : Q) : 0 < a -> round64_pos a = Some r -> 0 <= r.
Proof.
  intros Ha E. rewrite (round64_pos_eq a r E).
  set (ulp := pow2 (Z.max _ _)).
  assert (Hu : 0 < ulp) by apply pow2_pos.
  apply Qmult_le_0_compat; [| apply Qlt_le_weak; assumption].
  assert (Hq : 0 <= a / ulp).
  { apply Qle_shift_div_l; [assumption |]. rewrite Qmult_0_l.
    apply Qlt_le_weak. assumption. }
  pose proof (round_half_even_bounds (a / ulp)) as [Hb _].
  pose proof (Qfloor_resp_le _ _ Hq) as Hf. change (Qfloor 0) with 0%Z in Hf.
  change 0 with (inject_Z 0). rewrite <- Zle_Qle. lia.
Qed.

Lemma round64_pos_positive (a r : Q) :
  least <= a -> round64_pos a = Some r -> 0 < r.
Proof.
  intros Ha E. assert (Ha0 : 0 < a).
  { eapply Qlt_le_trans; [apply (pow2_pos (-1074)) | exact Ha]. }
  rewrite (round64_pos_eq a r E).
  set (ulp := pow2 (Z.max _ _)).
  assert (Hu : 0 < ulp) by apply pow2_pos.
  assert (Hle : ulp <= a).
  { subst ulp. apply Z.max_case.
    - eapply Qle_trans; [| apply Qlog2_le; assumption]. apply pow2_le. lia.
    - exact Ha. }
  assert (Hq : 1 <= a / ulp).
  { apply Qle_shift_div_l; [assumption |]. rewrite Qmult_1_l. assumption. }
  pose proof (round_half_even_bounds (a / ulp)) as [Hb _].
  pose proof (Qfloor_resp_le _ _ Hq) as Hf. change (Qfloor 1) with 1%Z in Hf.
  apply Qmult_lt_0_compat; [| assumption].
  change 0 with (inject_Z 0). rewrite <- Zlt_Qlt. lia.
Qed.

Lemma round64_morph (q q' : Q) : q == q' -> round64 q = round64 q'.
Proof. intros E. unfold round64. rewrite (Qred_complete q q' E). reflexivity. Qed.

Lemma round64_zero (q : Q) : q == 0 -> round64 q = Fin 0.
Proof. intros E. rewrite (round64_morph q 0 E). reflexivity. Qed.

(** The sign of a rounded number. *)
Lemma round64_sign_pos (q : Q) :
  least <= q -> round64 q = PInf \/ exists r, round64 q = Fin r /\ 0 < r.
Proof.
  intros Hq. unfold round64.
  assert (Hr : least <= Qred q) by (rewrite Qred_correct; assumption).
  assert (H0 : 0 < Qred q).
  { eapply Qlt_le_trans; [apply (pow2_pos (-1074)) | exact Hr]. }
  rewrite (proj1 (Qgt_alt _ _) H0).
  destruct (round64_pos (Qred q)) as [r |] eqn:E; [right | left; reflexivity].
  exists r. split; [reflexivity |]. eapply round64_pos_positive; eassumption.
Qed.

Lemma round64_sign_nonpos (q : Q) :
  q <= 0 -> round64 q = NInf \/ exists r, round64 q = Fin r /\ r <= 0.
Proof.
  intros Hq. unfold round64.
  assert (Hr : Qred q <= 0) by (rewrite Qred_correct; assumption).
  destruct (Qred q ?= 0) eqn:Ec.
  - right. exists 0. split; [reflexivity | apply Qle_refl].
  - apply Qlt_alt in Ec.
    destruct (round64_pos (- Qred q)) as [r |] eqn:E; [right | left; reflexivity].
    exists (Qred (- r)). split; [reflexivity |]. rewrite Qred_correct.
    assert (Hn : 0 <= r).
    { eapply round64_pos_nonneg; [| eassumption].
      apply (Qopp_lt_compat (Qred q) 0). assumption. }
    apply (Qopp_le_compat 0 r). assumption.
  - apply Qgt_alt in Ec. exfalso. apply (Qlt_irrefl 0).
    eapply Qlt_le_trans; eassumption.
Qed.

Lemma round_half_even_morph (x y : Q) :
  x == y -> round_half_even x = round_half_even y.
Proof.
  intros E. unfold round_half_even.
  assert (Ef : Qfloor x = Qfloor y) by (apply Qfloor_comp; assumption).
  rewrite Ef.
  assert (Ec : ((x - inject_Z (Qfloor y)) ?= (1 # 2))
               = ((y - inject_Z (Qfloor y)) ?= (1 # 2))).
  { apply Qcompare_comp; [rewrite E |]; reflexivity. }
  rewrite Ec. reflexivity.
Qed.

Lemma Qred_inject_Z (z : Z) : Qred (inject_Z z) = inject_Z z.
Proof.
  unfold Qred, inject_Z.
  pose proof (Z.ggcd_gcd z 1) as Hg.
  pose proof (Z.ggcd_correct_divisors z 1) as Hd.
  destruct (Z.ggcd z 1) as [g [aa bb]]. simpl in Hg, Hd.
  rewrite Z.gcd_1_r in Hg. subst g. destruct Hd as [Ha Hb].
  rewrite Z.mul_1_l in Ha, Hb. subst aa bb. reflexivity.
Qed.

Lemma Qlog2_Z (z : Z) : (0 < z)%Z -> Qlog2 (inject_Z z) = Z.log2 z.
Proof.
  intros Hz. unfold Qlog2. cbn [inject_Z Qnum Qden].
  change (Z.log2 1) with 0%Z. rewrite Z.sub_0_r.
  assert (E : Qle_bool (pow2 (Z.log2 z)) (inject_Z z) = true).
  { apply Qle_bool_iff. rewrite pow2_Z by apply Z.log2_nonneg.
    rewrite <- Zle_Qle.
    apply Z.log2_spec. assumption. }
  rewrite E. reflexivity.
Qed.

(** The integers up to [2 ^ 53] are numbers of binary64. *)
Lemma round64_pos_Z (z : Z) :
  (0 < z < 2 ^ 53)%Z -> round64_pos (inject_Z z) = Some (inject_Z z).
Proof.
  intros Hz. unfold round64_pos. cbv zeta.
  rewrite Qlog2_Z by lia.
  assert (Hl : (0 <= Z.log2 z < 53)%Z).
  { split; [apply Z.log2_nonneg |]. apply Z.log2_lt_pow2; lia. }
  rewrite Z.max_l by lia.
  set (s := (52 - Z.log2 z)%Z).
  assert (Hs : (0 <= s)%Z) by lia.
  assert (Hp : pow2 (Z.log2 z - 52) == / inject_Z (2 ^ s)).
  { replace (Z.log2 z - 52)%Z with (- s)%Z by lia.
    unfold pow2. rewrite Qpower_opp. fold (pow2 s). rewrite pow2_Z by lia.
    reflexivity. }
  assert (H2 : (0 < 2 ^ s)%Z) by (apply Z.pow_pos_nonneg; lia).
  assert (Hnz : ~ inject_Z (2 ^ s) == 0).
  { intros E. unfold Qeq, inject_Z in E. cbn [Qnum Qden] in E. lia. }
  assert (Hm : inject_Z z / pow2 (Z.log2 z - 52) == inject_Z (z * 2 ^ s)).
  { rewrite Hp, inject_Z_mult. field. assumption. }
  rewrite (round_half_even_morph _ _ Hm), round_half_even_Z.
  assert (Hr : inject_Z (z * 2 ^ s) * pow2 (Z.log2 z - 52) == inject_Z z).
  { rewrite Hp, inject_Z_mult. field. assumption. }
  assert (Hov : Qle_bool (pow2 1024)
                  (inject_Z (z * 2 ^ s) * pow2 (Z.log2 z - 52)) = false).
  { apply not_true_iff_false. intros Hle. apply Qle_bool_iff in Hle.
    rewrite Hr in Hle. rewrite (pow2_Z 1024) in Hle by lia.
    rewrite <- Zle_Qle in Hle.
    assert ((2 ^ 53 < 2 ^ 1024)%Z) by (apply Z.pow_lt_mono_r; lia). lia. }
  rewrite Hov. f_equal. rewrite (Qred_complete _ _ Hr). apply Qred_inject_Z.
Qed.

Lemma round64_Z (z : Z) :
  (Z.abs z <= 2 ^ 53)%Z -> round64 (inject_Z z) = Fin (inject_Z z).
Proof.
  intros Hz.
  destruct (Z.eq_dec z (2 ^ 53)) as [-> | Hp]; [vm_compute; reflexivity |].
  destruct (Z.eq_dec z (- 2 ^ 53)) as [-> | Hn]; [vm_compute; reflexivity |].
  unfold round64. rewrite Qred_inject_Z.
  destruct (Z.compare_spec z 0) as [-> | Hlt | Hgt].
  - reflexivity.
  - assert (E : (inject_Z z ?= 0) = Lt).
    { apply (proj1 (Qlt_alt _ _)). unfold Qlt, inject_Z. cbn [Qnum Qden]. lia. }
    rewrite E. change (- inject_Z z) with (inject_Z (- z)).
    rewrite round64_pos_Z by lia.
    change (- inject_Z (- z)) with (inject_Z (- - z)).
    rewrite Z.opp_involutive, Qred_inject_Z. reflexivity.
  - assert (E : (inject_Z z ?= 0) = Gt).
    { apply (proj1 (Qgt_alt _ _)). unfold Qlt, inject_Z. cbn [Qnum Qden]. lia. }
    rewrite E. rewrite round64_pos_Z by lia. reflexivity.
Qed.

Lemma least_le_1 : least <= 1.
Proof. apply (pow2_le (-1074) 0). lia. Qed.

Lemma round64_not_nan (q : Q) : is_nan (round64 q) = false.
Proof.
  unfold round64.
  destruct (Qred q ?= 0); [reflexivity | |];
    destruct (round64_pos _); reflexivity.
Qed.

End Rounding.

(** Sums and products of binary64 on decimal literals, as an engine prints
    them. *)
Lemma binary64_examples :
  (round64 0.1 + round64 0.2)%num = round64 0.30000000000000004
  /\ round64 0.30000000000000004 <> round64 0.3
  /\ (round64 0.15 + round64 0.3 + round64 0.05)%num
     = round64 0.49999999999999994
  /\ (round64 1.77 + round64 4.43 + round64 1.30)%num
     = round64 7.499999999999999
  /\ (round64 0.0295 * of_Z 100 * of_Z 10)%num = round64 29.499999999999996
  /\ (round64 1e308 + round64 1e308)%num = PInf
  /\ (of_Z (2 ^ 53) + of_Z 1)%num = of_Z (2 ^ 53).
Proof.
  vm_compute. repeat split; try reflexivity. discriminate.
Qed.

Lemma add_of_Z (a b : Z) :
  Z.abs (a + b) <= 2 ^ 53 -> (of_Z a + of_Z b)%num = of_Z (a + b).
Proof.
  intros Hab. unfold add, of_Z.
  rewrite (round64_morph _ (inject_Z (a + b))).
  - apply round64_Z. assumption.
  - rewrite inject_Z_plus. reflexivity.
Qed.

Lemma add_zero_like (q : Q) (b : num) :
  (q == 0)%Q -> (Fin q + b)%num = (zero + b)%num.
Proof.
  intros E. unfold add, zero. destruct b as [y | | |]; try reflexivity.
  apply round64_morph. rewrite E. reflexivity.
Qed.

Lemma add_not_nan (a b : num) :
  is_nan a = false -> is_finite b -> is_nan (a + b)%num = false.
Proof.
  destruct a as [x | | |], b as [y | | |]; simpl; intros Ha Hb;
    try discriminate; try destruct Hb; try reflexivity.
  apply round64_not_nan.
Qed.

Lemma reduce_sum_from_not_nan {A : Type} (f : A -> num) (l : list A) (a : num) :
  is_nan a = false -> Forall (fun x => is_finite (f x)) l ->
  is_nan (fold_left (fun sum item => (sum + f item)%num) l a) = false.
Proof.
  revert a. induction l as [| x l IH]; intros a Ha Hl; simpl.
  - assumption.
  - inversion Hl; subst. apply IH; [apply add_not_nan |]; assumption.
Qed.

Lemma reduce_sum_not_nan {A : Type} (f : A -> num) (l : list A) :
  Forall (fun x => is_finite (f x)) l -> is_nan (reduce_sum f l) = false.
Proof. apply reduce_sum_from_not_nan. reflexivity. Qed.

(** ** Order of the numbers *)

Lemma is_finite_inv (a : num) : is_finite a -> exists q, a = Fin q.
Proof. destruct a; simpl; intros Hf; try destruct Hf. exists q. reflexivity. Qed.

Lemma Math_round_integral (a : num) : is_nan a = false -> integral (Math_round a).
Proof.
  destruct a as [q | | |]; simpl; intros Ha; try discriminate; try exact I.
  eexists. reflexivity.
Qed.

Lemma gt_zero_Fin (r : Q) : gt (Fin r) zero = true <-> (0 < r)%Q.
Proof.
  unfold gt, lt, le, zero. rewrite negb_true_iff, <- not_true_iff_false.
  rewrite Qle_bool_iff. split.
  - apply Qnot_le_lt.
  - apply Qlt_not_le.
Qed.

Lemma lt_of_Z (a b : Z) : lt (of_Z a) (of_Z b) = (a <? b).
Proof.
  unfold lt, le, of_Z, Qle_bool, inject_Z. simpl.
  rewrite !Z.mul_1_r. rewrite Z.ltb_antisym. reflexivity.
Qed.

(** The comparison function [(a, b) => b - a] on integers and infinities:
    the difference is above zero exactly when [a] is below [b]. *)
Lemma gt_sub_integral (a b : num) :
  integral a -> integral b -> gt (b - a) zero = lt a b.
Proof.
  destruct a as [qa | | |], b as [qb | | |]; simpl; intros Ha Hb;
    try contradiction; try reflexivity.
  destruct Ha as [za ->]. destruct Hb as [zb ->].
  change (lt (Fin (inject_Z za)) (Fin (inject_Z zb)))
    with (lt (of_Z za) (of_Z zb)).
  rewrite lt_of_Z. unfold sub, neg, add.
  set (q := (inject_Z zb + Qred (- inject_Z za))%Q).
  assert (Hq : (q == inject_Z (zb - za))%Q).
  { subst q. rewrite Qred_correct. unfold Z.sub.
    rewrite inject_Z_plus, inject_Z_opp. reflexivity. }
  destruct (Z.ltb_spec za zb) as [Hlt | Hge].
  - assert (Hl : (least <= q)%Q).
    { eapply Qle_trans; [apply least_le_1 |]. rewrite Hq.
      change 1%Q with (inject_Z 1). rewrite <- Zle_Qle. lia. }
    destruct (round64_sign_pos q Hl) as [-> | (r & -> & Hr)];
      [reflexivity | apply gt_zero_Fin; assumption].
  - assert (Hl : (q <= 0)%Q).
    { rewrite Hq. change 0%Q with (inject_Z 0). rewrite <- Zle_Qle. lia. }
    destruct (round64_sign_nonpos q Hl) as [-> | (r & -> & Hr)];
      [reflexivity |].
    apply not_true_iff_false. intros Hgt. apply gt_zero_Fin in Hgt.
    apply (Qlt_irrefl 0). eapply Qlt_le_trans; eassumption.
Qed.

Lemma le_trans (a b c : num) :
  le a b = true -> le b c = true -> le a c = true.
Proof.
  destruct a as [x | | |], b as [y | | |], c as [z | | |]; simpl;
    try discriminate; try reflexivity.
  unfold le. rewrite !Qle_bool_iff. apply Qle_trans.
Qed.

Lemma lt_le (a b : num) : lt a b = true -> le a b = true.
Proof.
  destruct a as [x | | |], b as [y | | |]; simpl;
    try discriminate; try reflexivity.
  unfold lt, le. rewrite negb_true_iff, <- not_true_iff_false.
  rewrite !Qle_bool_iff. intros Hn. apply Qlt_le_weak, Qnot_le_lt, Hn.
Qed.

Lemma not_lt_le (a b : num) :
  is_nan a = false -> is_nan b = false -> lt a b = false -> le b a = true.
Proof.
  destruct a as [x | | |], b as [y | | |]; simpl;
    try discriminate; try reflexivity.
  unfold lt, le. intros _ _ Hn. apply negb_false_iff in Hn. assumption.
Qed.

Lemma integral_not_nan (a : num) : integral a -> is_nan a = false.
Proof. destruct a; simpl; intros Ha; try destruct Ha; reflexivity. Qed.

Lemma same_num_not_lt (a b v : num) :
  same_num a v = true -> same_num b v = true -> lt a b = false.
Proof.
  destruct a as [x | | |], b as [y | | |], v as [z | | |]; simpl;
    try discriminate; try reflexivity.
  rewrite !Qeq_bool_iff. intros Ex Ey. unfold lt, le.
  apply negb_false_iff, Qle_bool_iff. rewrite Ex, Ey. apply Qle_refl.
Qed.

(** ** Sorting in descending order of a metric *)

Section SortDescending.
Context {A : Type}.
Variable m : A -> num.

(** [byMetricDesc] is the comparison function [(a, b) => m(b) - m(a)]. *)
Local Abbreviation byMetricDesc := (fun a b : A => (m b - m a)%num).
Local Abbreviation atLeast := (fun a b : A => ge (m a) (m b) = true).
Local Abbreviation whole := (fun a : A => integral (m a)).

Lemma sort_insert_sorted (x : A) (l : list A) :
  whole x -> Forall whole l -> StronglySorted atLeast l ->
  StronglySorted atLeast (sort_insert byMetricDesc x l).
Proof.
  intros Hx Hl Hs.
  induction l as [| y l IH]; simpl.
  - repeat constructor.
  - inversion Hl as [| ? ? Hy Hl']; subst.
    apply StronglySorted_inv in Hs. destruct Hs as [Hs Hall].
    cbv beta in Hx, Hy. rewrite (gt_sub_integral (m x) (m y) Hx Hy).
    destruct (lt (m x) (m y)) eqn:E.
    + constructor.
      * apply IH; assumption.
      * eapply Permutation_Forall.
        { apply Permutation_sym, sort_insert_Permutation. }
        constructor; [| assumption].
        cbv beta. unfold ge. apply lt_le. assumption.
    + assert (Hle : ge (m x) (m y) = true).
      { unfold ge. apply not_lt_le; try assumption;
          apply integral_not_nan; assumption. }
      constructor; [constructor; assumption |].
      constructor; [exact Hle |].
      rewrite Forall_forall in Hall |- *. intros z Hz.
      specialize (Hall z Hz). cbv beta in Hall |- *. unfold ge in *.
      eapply le_trans; eassumption.
Qed.

Lemma Array_sort_sorted (l : list A) :
  Forall whole l -> StronglySorted atLeast (Array_sort byMetricDesc l).
Proof.
  induction l as [| x l IH]; intros Hl; simpl.
  - constructor.
  - inversion Hl; subst. apply sort_insert_sorted; auto.
    eapply Permutation_Forall;
      [apply Permutation_sym, Array_sort_Permutation | assumption].
Qed.

(** The sort is stable: the entries of one metric keep their order. *)
Lemma sort_insert_stable (v : num) (x : A) (l : list A) :
  whole x -> Forall whole l ->
  filter (fun e => same_num (m e) v) (sort_insert byMetricDesc x l)
  = filter (fun e => same_num (m e) v) (x :: l).
Proof.
  intros Hx Hl.
  induction l as [| y l IH]; [reflexivity |].
  inversion Hl as [| ? ? Hy Hl']; subst.
  cbn [sort_insert]. cbv beta in Hx, Hy |- *.
  rewrite (gt_sub_integral (m x) (m y) Hx Hy).
  destruct (lt (m x) (m y)) eqn:E; [| reflexivity].
  cbn [filter] in *. rewrite (IH Hl').
  destruct (same_num (m x) v) eqn:Ex, (same_num (m y) v) eqn:Ey;
    try reflexivity.
  rewrite (same_num_not_lt _ _ _ Ex Ey) in E. discriminate.
Qed.

Lemma Array_sort_stable (v : num) (l : list A) :
  Forall whole l ->
  filter (fun e => same_num (m e) v) (Array_sort byMetricDesc l)
  = filter (fun e => same_num (m e) v) l.
Proof.
  induction l as [| x l IH]; intros Hl; [reflexivity |].
  inversion Hl; subst. cbn [Array_sort fold_right].
  rewrite sort_insert_stable.
  - cbn [filter]. fold (Array_sort byMetricDesc l). rewrite IH by assumption.
    reflexivity.
  - assumption.
  - eapply Permutation_Forall;
      [apply Permutation_sym, Array_sort_Permutation | assumption].
Qed.

Lemma StronglySorted_descending (l : list A) :
  StronglySorted atLeast l -> descending m l.
Proof.
  intros Hs. unfold descending. induction Hs as [| x l Hs IH Hall].
  - intros [| i] x y Hx; discriminate.
  - intros [| i] a b Ha Hb; simpl in Ha, Hb.
    + injection Ha as <-. destruct l as [| z l]; [discriminate |].
      injection Hb as <-. inversion Hall; subst. assumption.
    + eapply IH; eassumption.
Qed.

Lemma nth_error_firstn_Some (n i : nat) (l : list A) (x : A) :
  nth_error (firstn n l) i = Some x -> nth_error l i = Some x.
Proof.
  revert i l. induction n as [| n IH]; intros i l; simpl.
  - destruct i; discriminate.
  - destruct l as [| y l]; [destruct i; discriminate |].
    destruct i as [| i]; simpl; [auto | apply IH].
Qed.

Lemma firstn_In_inv (n : nat) (l : list A) (x : A) :
  In x (firstn n l) -> In x l.
Proof.
  revert l. induction n as [| n IH]; intros l; simpl; [intros [] |].
  destruct l as [| y l]; simpl; [auto |].
  intros [Hx | Hx]; [left; assumption | right; apply IH, Hx].
Qed.

Lemma descending_firstn (n : nat) (l : list A) :
  descending m l -> descending m (firstn n l).
Proof.
  intros Hd i x y Hx Hy.
  apply (Hd i); apply nth_error_firstn_Some with (n := n); assumption.
Qed.

Lemma Prefix_filter_firstn (f : A -> bool) (n : nat) (l : list A) :
  Prefix (filter f (firstn n l)) (filter f l).
Proof.
  exists (filter f (skipn n l)).
  rewrite <- filter_app, firstn_skipn. reflexivity.
Qed.

(** The first [n] entries of the sorted array are a top-[n] selection. *)
Lemma slice_sort_top_n (n : nat) (l : list A) :
  Forall whole l ->
  top_n_of n m l (slice0 n (Array_sort byMetricDesc l)).
Proof.
  intros Hl. unfold top_n_of, slice0. repeat split.
  - apply firstn_le_length.
  - intros e He. apply firstn_In_inv in He.
    apply (Array_sort_In byMetricDesc). assumption.
  - apply descending_firstn, StronglySorted_descending, Array_sort_sorted, Hl.
  - intros v. rewrite <- (Array_sort_stable v l Hl).
    apply Prefix_filter_firstn.
Qed.

End SortDescending.

(** ** The grouping loops of the handlers *)

Lemma fold_left_pointwise {A B : Type} (f g : A -> B -> A) (l : list B) (a : A) :
  (forall a b, In b l -> f a b = g a b) -> fold_left f l a = fold_left g l a.
Proof.
  revert a. induction l as [| b l IH]; intros a Hfg; simpl.
  - reflexivity.
  - rewrite Hfg by (left; reflexivity).
    apply IH. intros a' b' Hb'. apply Hfg. right. assumption.
Qed.

(** The entry of a key after a grouping loop: the fold of the update over
    the records of the group. *)
Lemma group_by_In {V : Type} (key : SalesRecord -> string)
  (upd : option V -> SalesRecord -> V) (fd : list SalesRecord) (k : string)
  (v : V) :
  In (k, v) (group_by key upd fd []) ->
  fold_left (fun acc item => Some (upd acc item)) (group_of key k fd) None
  = Some v.
Proof.
  intros Hin.
  transitivity (Obj.get (group_by key upd fd []) k);
    [symmetry; apply (group_by_get key upd fd [] k) |].
  apply get_In.
  - assumption.
  - rewrite group_by_first_occurrences. apply first_occurrences_NoDup.
Qed.

Lemma own_keys_own_records (key : SalesRecord -> string) (fd : list SalesRecord) :
  own_keys key fd -> own_records key fd = fd.
Proof.
  intros Hown. unfold own_records. apply filter_every.
  intros item Hin. rewrite (Hown item Hin). reflexivity.
Qed.

Lemma group_of_own_records (key : SalesRecord -> string) (k : string)
  (fd : list SalesRecord) :
  Obj.inherited k = false ->
  group_of key k (own_records key fd) = group_of key k fd.
Proof.
  intros Hk. unfold group_of, own_records. rewrite filter_filter.
  apply filter_ext. intros item.
  destruct (String.eqb_spec (key item) k) as [-> | Hne].
  - rewrite Hk. reflexivity.
  - apply andb_false_r.
Qed.

(** A loop that creates no entry under an inherited name groups the records
    of the other keys. *)
Lemma skip_inherited_fold {V : Type} (key : SalesRecord -> string)
  (upd : option V -> SalesRecord -> V)
  (f : Obj.t V -> SalesRecord -> Obj.t V) :
  (forall o item,
     Obj.inherited (key item) = false ->
     f o item = Obj.set o (key item) (upd (Obj.get o (key item)) item)) ->
  (forall o item,
     Obj.inherited (key item) = true -> Obj.get o (key item) = None ->
     f o item = o) ->
  forall (fd : list SalesRecord) (o : Obj.t V),
    (forall k, Obj.inherited k = true -> Obj.get o k = None) ->
    fold_left f fd o = group_by key upd (own_records key fd) o.
Proof.
  intros Hupd Hskip. unfold group_by, own_records.
  induction fd as [| item fd IH]; intros o Ho; [reflexivity |].
  cbn [fold_left filter].
  destruct (Obj.inherited (key item)) eqn:E; cbn [negb fold_left].
  - rewrite Hskip by auto. apply IH. assumption.
  - rewrite Hupd by assumption. apply IH.
    intros k Hk. rewrite get_set_other; [apply Ho; assumption |].
    intros ->. congruence.
Qed.

Lemma inherited___proto__ (k : string) :
  Obj.inherited k = false -> String.eqb k "__proto__" = false.
Proof.
  intros Hk. destruct (String.eqb_spec k "__proto__") as [-> | Hne];
    [discriminate | reflexivity].
Qed.

Lemma accumulate_update (key : SalesRecord -> string) (o : Obj.t Dashboard.value)
  (item : SalesRecord) :
  Obj.inherited (key item) = false ->
  Dashboard.accumulate key o item
  = Obj.set o (key item) (sales_update (Obj.get o (key item)) item).
Proof.
  intros Hk. unfold Dashboard.accumulate, Dashboard.write, Dashboard.read.
  cbv zeta. rewrite (inherited___proto__ _ Hk), Hk.
  destruct (Obj.get o (key item)) as [[n |] |] eqn:E; cbn [Dashboard.falsy].
  - destruct (truthy n) eqn:Et; cbn [negb sales_update].
    + rewrite E, Et. reflexivity.
    + rewrite get_set_same, set_set, Et. reflexivity.
  - rewrite E. reflexivity.
  - rewrite get_set_same, set_set. reflexivity.
Qed.

Lemma salesBy_group_by (key : SalesRecord -> string) (fd : list SalesRecord) :
  own_keys key fd ->
  Dashboard.salesBy key fd = group_by key sales_update fd [].
Proof.
  intros Hown. unfold Dashboard.salesBy, group_by. apply fold_left_pointwise.
  intros o item Hin. apply accumulate_update, Hown, Hin.
Qed.

Lemma holds_object_own {V : Type} (o : Obj.t V) (k : string) :
  Obj.inherited k = false ->
  Obj.holds_object o k = match Obj.get o k with Some _ => true | None => false end.
Proof. intros Hk. unfold Obj.holds_object. rewrite Hk. reflexivity. Qed.

Lemma holds_object_inherited {V : Type} (o : Obj.t V) (k : string) :
  Obj.inherited k = true -> Obj.holds_object o k = true.
Proof.
  intros Hk. unfold Obj.holds_object. rewrite Hk.
  destruct (Obj.get o k); reflexivity.
Qed.

Lemma accumulateProduct_update (o : Obj.t Analytics.ProductPerformance)
  (item : SalesRecord) :
  Obj.inherited (Product_Name item) = false ->
  Analytics.accumulateProduct o item
  = Obj.set o (Product_Name item)
      (product_update (Obj.get o (Product_Name item)) item).
Proof.
  intros Hk. unfold Analytics.accumulateProduct, product_update. cbv zeta.
  rewrite (holds_object_own _ _ Hk).
  destruct (Obj.get o (Product_Name item)) as [e |] eqn:E.
  - rewrite E. reflexivity.
  - rewrite get_set_same, set_set. reflexivity.
Qed.

Lemma accumulateProduct_skip (o : Obj.t Analytics.ProductPerformance)
  (item : SalesRecord) :
  Obj.inherited (Product_Name item) = true ->
  Obj.get o (Product_Name item) = None ->
  Analytics.accumulateProduct o item = o.
Proof.
  intros Hk Hg. unfold Analytics.accumulateProduct. cbv zeta.
  rewrite (holds_object_inherited _ _ Hk), Hg. reflexivity.
Qed.

Lemma productPerformance_group_by (fd : list SalesRecord) :
  Analytics.productPerformance fd
  = group_by Product_Name product_update (own_records Product_Name fd) [].
Proof.
  unfold Analytics.productPerformance.
  apply (skip_inherited_fold Product_Name product_update).
  - apply accumulateProduct_update.
  - apply accumulateProduct_skip.
  - reflexivity.
Qed.

Lemma accumulateRegion_update (o : Obj.t Analytics.RegionalPerformance)
  (item : SalesRecord) :
  Obj.inherited (Region item) = false ->
  Analytics.accumulateRegion o item
  = Obj.set o (Region item) (region_update (Obj.get o (Region item)) item).
Proof.
  intros Hk. unfold Analytics.accumulateRegion, region_update. cbv zeta.
  rewrite (holds_object_own _ _ Hk).
  destruct (Obj.get o (Region item)) as [e |] eqn:E.
  - rewrite E. reflexivity.
  - rewrite get_set_same, set_set. reflexivity.
Qed.

Lemma accumulateRegion_skip (o : Obj.t Analytics.RegionalPerformance)
  (item : SalesRecord) :
  Obj.inherited (Region item) = true -> Obj.get o (Region item) = None ->
  Analytics.accumulateRegion o item = o.
Proof.
  intros Hk Hg. unfold Analytics.accumulateRegion. cbv zeta.
  rewrite (holds_object_inherited _ _ Hk), Hg. reflexivity.
Qed.

Lemma regionalPerformance_group_by (fd : list SalesRecord) :
  Analytics.regionalPerformanceOf fd
  = group_by Region region_update (own_records Region fd) [].
Proof.
  unfold Analytics.regionalPerformanceOf.
  apply (skip_inherited_fold Region region_update).
  - apply accumulateRegion_update.
  - apply accumulateRegion_skip.
  - reflexivity.
Qed.

(** A key of a grouping object of the analytics names no inherited member,
    and its group is made of the filtered records of that key. *)
Lemma group_by_own_In {V : Type} (key : SalesRecord -> string)
  (upd : option V -> SalesRecord -> V) (fd : list SalesRecord) (k : string)
  (v : V) :
  In (k, v) (group_by key upd (own_records key fd) []) ->
  Obj.inherited k = false
  /\ fold_left (fun acc item => Some (upd acc item)) (group_of key k fd) None
     = Some v.
Proof.
  intros Hin. apply group_by_In in Hin.
  assert (Hk : Obj.inherited k = false).
  { destruct (group_of key k (own_records key fd)) as [| item g] eqn:Eg;
      [discriminate |].
    assert (Hitem : In item (group_of key k (own_records key fd)))
      by (rewrite Eg; left; reflexivity).
    apply filter_In in Hitem. destruct Hitem as [Hitem Hkey].
    apply filter_In in Hitem. destruct Hitem as [_ Hown].
    apply String.eqb_eq in Hkey. subst k.
    apply negb_true_iff. assumption. }
  split; [assumption |].
  rewrite group_of_own_records in Hin; assumption.
Qed.

(** *** Numbers of the groups *)

Lemma count_up_fold {A : Type} (l : list A) (c : num) :
  fold_left (fun c _ => (c + of_Z 1)%num) l c
  = Nat.iter (List.length l) (fun c => (c + of_Z 1)%num) c.
Proof.
  revert c. induction l as [| x l IH]; intros c; [reflexivity |].
  cbn [fold_left List.length]. rewrite Nat.iter_succ_r. apply IH.
Qed.

(** Below [2 ^ 53] a counter holds the number of its increments. *)
Lemma count_up_of_nat (n : nat) :
  Z.of_nat n <= 2 ^ 53 -> count_up n = of_nat n.
Proof.
  unfold count_up. induction n as [| n IH]; intros Hn; [reflexivity |].
  rewrite Nat.iter_succ, IH by lia. unfold of_nat.
  rewrite add_of_Z by lia. f_equal. lia.
Qed.

Lemma group_of_In (key : SalesRecord -> string) (k : string)
  (fd : list SalesRecord) (item : SalesRecord) :
  In item (group_of key k fd) <-> In item fd /\ key item = k.
Proof. unfold group_of. rewrite filter_In, String.eqb_eq. reflexivity. Qed.

Lemma group_of_Forall (P : SalesRecord -> Prop) (key : SalesRecord -> string)
  (k : string) (fd : list SalesRecord) :
  Forall P fd -> Forall P (group_of key k fd).
Proof.
  rewrite !Forall_forall. intros HP item Hin.
  apply group_of_In in Hin. apply HP, Hin.
Qed.

(** *** The sums of the dashboard *)

Lemma sales_update_Number (n : num) (item : SalesRecord) :
  is_nan n = false ->
  sales_update (Some (Dashboard.Number n)) item
  = Dashboard.Number (n + Sales item)%num.
Proof.
  intros Hn. unfold sales_update. destruct (truthy n) eqn:Et; [reflexivity |].
  destruct n as [q | | |]; try discriminate.
  unfold truthy in Et. apply negb_false_iff, Qeq_bool_iff in Et.
  rewrite (add_zero_like q _ Et). reflexivity.
Qed.

Lemma sales_fold_sum (l : list SalesRecord) (n : num) :
  Forall (fun item => is_finite (Sales item)) l -> is_nan n = false ->
  fold_left (fun acc item => Some (sales_update acc item)) l
    (Some (Dashboard.Number n))
  = Some (Dashboard.Number
            (fold_left (fun sum item => (sum + Sales item)%num) l n)).
Proof.
  revert n. induction l as [| item l IH]; intros n Hl Hn; [reflexivity |].
  inversion Hl as [| ? ? Hs Hl']; subst. cbn [fold_left].
  rewrite sales_update_Number by assumption.
  apply IH; [assumption | apply add_not_nan; assumption].
Qed.

(** The entry of a key in a grouping object of the dashboard: the sum of the
    sales of the records of the key, of which there is one at least. *)
Lemma salesBy_In (key : SalesRecord -> string) (fd : list SalesRecord)
  (k : string) (v : Dashboard.value) :
  Forall (fun item => is_finite (Sales item)) fd -> own_keys key fd ->
  In (k, v) (Dashboard.salesBy key fd) ->
  v = Dashboard.Number (reduce_sum Sales (group_of key k fd))
  /\ exists item, In item fd /\ key item = k.
Proof.
  intros Hfd Hown Hin. rewrite salesBy_group_by in Hin by assumption.
  apply group_by_In in Hin.
  pose proof (group_of_Forall _ key k fd Hfd) as Hg.
  destruct (group_of key k fd) as [| item g] eqn:Eg; [discriminate |].
  assert (Hitem : In item fd /\ key item = k).
  { apply (group_of_In key k fd item). rewrite Eg. left. reflexivity. }
  split; [| exists item; exact Hitem].
  inversion Hg as [| ? ? Hs Hg']; subst.
  cbn [fold_left sales_update] in Hin.
  rewrite (sales_fold_sum g _ Hg') in Hin
    by (apply add_not_nan; [reflexivity | assumption]).
  unfold reduce_sum. cbn [fold_left]. congruence.
Qed.

Lemma rounded_integral (key : SalesRecord -> string) (fd : list SalesRecord) :
  Forall (fun item => is_finite (Sales item)) fd -> own_keys key fd ->
  Forall (fun e => integral (Dashboard.sales e))
    (Dashboard.rounded (Dashboard.salesBy key fd)).
Proof.
  intros Hfd Hown. unfold Dashboard.rounded. apply Forall_map, Forall_forall.
  intros [k v] Hp. cbn [Dashboard.sales snd].
  apply (proj1 (entries_In _ _)) in Hp.
  destruct (salesBy_In key fd k v Hfd Hown Hp) as [-> _].
  cbn [Dashboard.round_value].
  apply Math_round_integral, reduce_sum_not_nan, group_of_Forall, Hfd.
Qed.

Lemma rounded_labels (o : Obj.t Dashboard.value) :
  map Dashboard.label (Dashboard.rounded o) = map fst (Obj.entries o).
Proof. unfold Dashboard.rounded. rewrite map_map. reflexivity. Qed.

Lemma salesBy_keys (key : SalesRecord -> string) (fd : list SalesRecord) :
  own_keys key fd ->
  map fst (Dashboard.salesBy key fd) = first_occurrences (map key fd).
Proof.
  intros Hown. rewrite salesBy_group_by by assumption.
  apply group_by_first_occurrences.
Qed.

(** *** The accumulators of the analytics *)

Lemma product_fold (l : list SalesRecord) (e : Analytics.ProductPerformance) :
  fold_left (fun acc item => Some (product_update acc item)) l (Some e)
  = Some
      {| Analytics.productName := Analytics.productName e;
         Analytics.category := Analytics.category e;
         Analytics.totalSales :=
           fold_left (fun sum item => (sum + Sales item)%num) l
             (Analytics.totalSales e);
         Analytics.totalProfit :=
           fold_left (fun sum item => (sum + Profit item)%num) l
             (Analytics.totalProfit e);
         Analytics.totalQuantity :=
           fold_left (fun sum item => (sum + Quantity item)%num) l
             (Analytics.totalQuantity e);
         Analytics.orderCount :=
           fold_left (fun c _ => (c + of_Z 1)%num) l (Analytics.orderCount e) |}.
Proof.
  revert e. induction l as [| item l IH]; intros e; simpl.
  - destruct e; reflexivity.
  - rewrite IH. reflexivity.
Qed.

Lemma region_fold (l : list SalesRecord) (e : Analytics.RegionalPerformance) :
  fold_left (fun acc item => Some (region_update acc item)) l (Some e)
  = Some
      {| Analytics.region := Analytics.region e;
         Analytics.sales :=
           fold_left (fun sum item => (sum + Sales item)%num) l
             (Analytics.sales e);
         Analytics.profit :=
           fold_left (fun sum item => (sum + Profit item)%num) l
             (Analytics.profit e);
         Analytics.orders :=
           fold_left (fun c _ => (c + of_Z 1)%num) l (Analytics.orders e) |}.
Proof.
  revert e. induction l as [| item l IH]; intros e; simpl.
  - destruct e; reflexivity.
  - rewrite IH. reflexivity.
Qed.

Lemma count_from_zero {A : Type} (x : A) (l : list A) :
  fold_left (fun c _ => (c + of_Z 1)%num) l (zero + of_Z 1)%num
  = count_up (List.length (x :: l)).
Proof.
  rewrite count_up_fold. unfold count_up. cbn [List.length].
  rewrite Nat.iter_succ_r. reflexivity.
Qed.

(** The accumulator of a product: its name, the sum of the sales of its
    records and the counter of their number. *)
Lemma productPerformance_In (fd : list SalesRecord) (k : string)
  (acc : Analytics.ProductPerformance) :
  In (k, acc) (Analytics.productPerformance fd) ->
  Analytics.productName acc = k
  /\ Analytics.totalSales acc = reduce_sum Sales (group_of Product_Name k fd)
  /\ Analytics.orderCount acc
     = count_up (List.length (group_of Product_Name k fd)).
Proof.
  intros Hin. rewrite productPerformance_group_by in Hin.
  apply group_by_own_In in Hin. destruct Hin as [_ Hin].
  destruct (group_of Product_Name k fd) as [| item g] eqn:Eg;
    [discriminate |].
  assert (Hk : Product_Name item = k).
  { apply (group_of_In Product_Name k fd item). rewrite Eg. left. reflexivity. }
  cbn [fold_left] in Hin. rewrite product_fold in Hin.
  injection Hin as <-. cbn [Analytics.productName Analytics.totalSales
    Analytics.orderCount Analytics.region Analytics.sales Analytics.orders
    product_update region_update].
  split; [assumption |]. split; [reflexivity |].
  apply (count_from_zero item).
Qed.

Lemma regionalPerformance_In (fd : list SalesRecord) (k : string)
  (acc : Analytics.RegionalPerformance) :
  In (k, acc) (Analytics.regionalPerformanceOf fd) ->
  Analytics.region acc = k
  /\ Analytics.sales acc = reduce_sum Sales (group_of Region k fd)
  /\ Analytics.orders acc = count_up (List.length (group_of Region k fd)).
Proof.
  intros Hin. rewrite regionalPerformance_group_by in Hin.
  apply group_by_own_In in Hin. destruct Hin as [_ Hin].
  destruct (group_of Region k fd) as [| item g] eqn:Eg; [discriminate |].
  assert (Hk : Region item = k).
  { apply (group_of_In Region k fd item). rewrite Eg. left. reflexivity. }
  cbn [fold_left] in Hin. rewrite region_fold in Hin.
  injection Hin as <-. cbn [Analytics.productName Analytics.totalSales
    Analytics.orderCount Analytics.region Analytics.sales Analytics.orders
    product_update region_update].
  split; [assumption |]. split; [reflexivity |].
  apply (count_from_zero item).
Qed.

Lemma productEntries_In (fd : list SalesRecord) (e : Analytics.TopProduct) :
  In e (Analytics.productEntries fd) ->
  exists k acc,
    In (k, acc) (Analytics.productPerformance fd)
    /\ Analytics.productName (Analytics.fields e) = Analytics.productName acc
    /\ Analytics.totalSales (Analytics.fields e)
       = Math_round (Analytics.totalSales acc)
    /\ Analytics.orderCount (Analytics.fields e) = Analytics.orderCount acc
    /\ Analytics.avgOrderValue e
       = Math_round (Analytics.totalSales acc / Analytics.orderCount acc).
Proof.
  unfold Analytics.productEntries, Obj.values. rewrite map_map.
  intros Hin. apply in_map_iff in Hin. destruct Hin as ([k acc] & <- & Hin).
  apply (proj1 (entries_In _ _)) in Hin. exists k, acc. simpl. auto.
Qed.

Lemma regionArray_In (fd : list SalesRecord) (e : Analytics.RegionEntry) :
  In e (Analytics.regionArray fd) ->
  exists k acc,
    In (k, acc) (Analytics.regionalPerformanceOf fd)
    /\ Analytics.region (Analytics.regionFields e) = Analytics.region acc
    /\ Analytics.sales (Analytics.regionFields e)
       = Math_round (Analytics.sales acc)
    /\ Analytics.orders (Analytics.regionFields e) = Analytics.orders acc
    /\ Analytics.regionAvgOrderValue e
       = Math_round (Analytics.sales acc / Analytics.orders acc).
Proof.
  unfold Analytics.regionArray, Obj.values. rewrite map_map.
  intros Hin. apply in_map_iff in Hin. destruct Hin as ([k acc] & <- & Hin).
  apply (proj1 (entries_In _ _)) in Hin. exists k, acc. simpl. auto.
Qed.

Lemma topProductsOf_In (fd : list SalesRecord) (e : Analytics.TopProduct) :
  In e (Analytics.topProductsOf fd) -> In e (Analytics.productEntries fd).
Proof.
  unfold Analytics.topProductsOf, slice0. intros Hin.
  apply firstn_In_inv in Hin.
  apply (Array_sort_In Analytics.byTotalSalesDesc). assumption.
Qed.

Lemma regionArray_regions (fd : list SalesRecord) :
  map (fun e => Analytics.region (Analytics.regionFields e))
    (Analytics.regionArray fd)
  = map fst (Obj.entries (Analytics.regionalPerformanceOf fd)).
Proof.
  unfold Analytics.regionArray, Obj.values. rewrite !map_map. simpl.
  apply map_ext_in. intros [k acc] Hin.
  apply (proj1 (entries_In _ _)) in Hin.
  apply regionalPerformance_In in Hin. simpl. apply Hin.
Qed.

Lemma regionalPerformance_keys (fd : list SalesRecord) :
  map fst (Analytics.regionalPerformanceOf fd)
  = first_occurrences (map Region (own_records Region fd)).
Proof.
  rewrite regionalPerformance_group_by. apply group_by_first_occurrences.
Qed.

Lemma productPerformance_keys (fd : list SalesRecord) :
  map fst (Analytics.productPerformance fd)
  = first_occurrences (map Product_Name (own_records Product_Name fd)).
Proof.
  rewrite productPerformance_group_by. apply group_by_first_occurrences.
Qed.

Lemma productEntries_integral (fd : list SalesRecord) :
  Forall (fun item => is_finite (Sales item)) fd ->
  Forall (fun e => integral (Analytics.totalSales (Analytics.fields e)))
    (Analytics.productEntries fd).
Proof.
  intros Hfd. apply Forall_forall. intros e He.
  apply productEntries_In in He.
  destruct He as (k & acc & Hin & _ & Hsales & _).
  apply productPerformance_In in Hin. destruct Hin as (_ & Hsum & _).
  rewrite Hsales, Hsum. apply Math_round_integral, reduce_sum_not_nan.
  apply group_of_Forall, Hfd.
Qed.

Lemma top10_top_n (key : SalesRecord -> string) (fd : list SalesRecord) :
  Forall (fun item => is_finite (Sales item)) fd -> own_keys key fd ->
  top_n_of 10 Dashboard.sales
    (Dashboard.rounded (Dashboard.salesBy key fd))
    (Dashboard.top10 (Dashboard.rounded (Dashboard.salesBy key fd))).
Proof.
  intros Hfd Hown.
  exact (slice_sort_top_n Dashboard.sales 10 _ (rounded_integral key fd Hfd Hown)).
Qed.

Lemma topProductsOf_top_n (fd : list SalesRecord) :
  Forall (fun item => is_finite (Sales item)) fd ->
  top_n_of 10 (fun e => Analytics.totalSales (Analytics.fields e))
    (Analytics.productEntries fd) (Analytics.topProductsOf fd).
Proof.
  intros Hfd.
  exact (slice_sort_top_n (fun e => Analytics.totalSales (Analytics.fields e))
           10 _ (productEntries_integral fd Hfd)).
Qed.

Lemma breakdown_labels_Permutation (key : SalesRecord -> string)
  (fd : list SalesRecord) :
  own_keys key fd ->
  Permutation (map Dashboard.label (Dashboard.rounded (Dashboard.salesBy key fd)))
    (first_occurrences (map key fd)).
Proof.
  intros Hown. rewrite rounded_labels, <- salesBy_keys by assumption.
  apply Permutation_map, entries_Permutation.
Qed.

Lemma breakdown_labels_order (key : SalesRecord -> string)
  (fd : list SalesRecord) :
  (forall item, In item fd -> plain_key (key item)) ->
  map Dashboard.label (Dashboard.rounded (Dashboard.salesBy key fd))
  = first_occurrences (map key fd).
Proof.
  intros Hplain.
  assert (Hown : own_keys key fd) by (intros item Hin; apply Hplain, Hin).
  rewrite rounded_labels, entries_creation_order.
  - apply salesBy_keys, Hown.
  - intros k Hk. rewrite salesBy_keys in Hk by assumption.
    apply first_occurrences_In, in_map_iff in Hk.
    destruct Hk as (item & <- & Hin). apply Hplain, Hin.
Qed.

Lemma region_labels_Permutation (fd : list SalesRecord) :
  own_keys Region fd ->
  Permutation
    (map (fun e => Analytics.region (Analytics.regionFields e))
       (Analytics.regionArray fd))
    (first_occurrences (map Region fd)).
Proof.
  intros Hown. rewrite regionArray_regions.
  rewrite <- (own_keys_own_records Region fd Hown) at 2.
  rewrite <- regionalPerformance_keys.
  apply Permutation_map, entries_Permutation.
Qed.

Lemma region_labels_order (fd : list SalesRecord) :
  (forall item, In item fd -> plain_key (Region item)) ->
  map (fun e => Analytics.region (Analytics.regionFields e))
    (Analytics.regionArray fd)
  = first_occurrences (map Region fd).
Proof.
  intros Hplain.
  assert (Hown : own_keys Region fd) by (intros item Hin; apply Hplain, Hin).
  rewrite regionArray_regions, entries_creation_order.
  - rewrite regionalPerformance_keys, (own_keys_own_records Region fd Hown).
    reflexivity.
  - intros k Hk.
    rewrite regionalPerformance_keys, (own_keys_own_records Region fd Hown) in Hk.
    apply first_occurrences_In, in_map_iff in Hk.
    destruct Hk as (item & <- & Hin). apply Hplain, Hin.
Qed.

(** ** The average order value of the analytics *)

(** C6, as stated, fails: for one product (and one region) with two orders
    of 0.25 and 0.5 the handler returns the average order value 0, the
    rounded quotient of the sum 0.75 by 2, while the quotient of the rounded
    total of the entry, 1, by its order count rounds to 1. *)
Lemma avgOrderValue_rounded_first_counterexample :
  let fd := [example_record "2016-01-05" "C1" "Ann" "Texas" "Chair" 0.25 1 0 0;
             example_record "2016-01-20" "C2" "Bob" "Texas" "Chair" 0.5 1 0 0] in
  map Analytics.avgOrderValue (Analytics.topProductsOf fd) = [Fin 0]
  /\ map (fun e =>
            Math_round (Analytics.totalSales (Analytics.fields e)
                        / Analytics.orderCount (Analytics.fields e)))
       (Analytics.topProductsOf fd) = [Fin 1]
  /\ map Analytics.regionAvgOrderValue (Analytics.regionArray fd) = [Fin 0]
  /\ map (fun e =>
            Math_round (Analytics.sales (Analytics.regionFields e)
                        / Analytics.orders (Analytics.regionFields e)))
       (Analytics.regionArray fd) = [Fin 1].
Proof. vm_compute. repeat split; reflexivity. Qed.

(** C6, amended. For every product of the top products, with [group] the
    filtered records of that product: the total sales of the entry are the
    rounded sum of the sales of the group, added in the order of the
    records, and its average order value is the rounded quotient of that
    sum, not rounded, by the order count of the entry; the order count is
    the number of records of the group (a counter is exact up to 2^53).
    The same holds for every region of the regional performance. *)
Theorem avgOrderValue_divides_unrounded_sum (fd : list SalesRecord) :
  (forall e, In e (Analytics.topProductsOf fd) ->
     let group :=
       group_of Product_Name (Analytics.productName (Analytics.fields e)) fd in
     Analytics.totalSales (Analytics.fields e)
     = Math_round (reduce_sum Sales group)
     /\ Analytics.avgOrderValue e
        = Math_round (reduce_sum Sales group
                      / Analytics.orderCount (Analytics.fields e))
     /\ (Z.of_nat (List.length group) <= 2 ^ 53 ->
         Analytics.orderCount (Analytics.fields e)
         = of_nat (List.length group)))
  /\ (forall e, In e (Analytics.regionArray fd) ->
        let group :=
          group_of Region (Analytics.region (Analytics.regionFields e)) fd in
        Analytics.sales (Analytics.regionFields e)
        = Math_round (reduce_sum Sales group)
        /\ Analytics.regionAvgOrderValue e
           = Math_round (reduce_sum Sales group
                         / Analytics.orders (Analytics.regionFields e))
        /\ (Z.of_nat (List.length group) <= 2 ^ 53 ->
            Analytics.orders (Analytics.regionFields e)
            = of_nat (List.length group))).
Proof.
  split.
  - intros e He group. apply topProductsOf_In, productEntries_In in He.
    destruct He as (k & acc & Hin & Hname & Hsales & Hcount & Havg).
    apply productPerformance_In in Hin. destruct Hin as (Hk & Hsum & Hn).
    subst group. rewrite Hname, Hk, Hsales, Hcount, Havg, Hsum, Hn.
    split; [reflexivity |]. split; [reflexivity |].
    apply count_up_of_nat.
  - intros e He group. apply regionArray_In in He.
    destruct He as (k & acc & Hin & Hname & Hsales & Hcount & Havg).
    apply regionalPerformance_In in Hin. destruct Hin as (Hk & Hsum & Hn).
    subst group. rewrite Hname, Hk, Hsales, Hcount, Havg, Hsum, Hn.
    split; [reflexivity |]. split; [reflexivity |].
    apply count_up_of_nat.
Qed.

(** The theorem on the two orders of 0.25 and 0.5; and the three orders of
    1.77, 4.43 and 1.30, whose sum in binary64 is 7.499999999999999: the
    total is 7 and the average order value 2. *)
Lemma avgOrderValue_divides_unrounded_sum_witness :
  let fd := [example_record "2016-01-05" "C1" "Ann" "Texas" "Chair" 0.25 1 0 0;
             example_record "2016-01-20" "C2" "Bob" "Texas" "Chair" 0.5 1 0 0] in
  let e :=
    {| Analytics.fields :=
         {| Analytics.productName := "Chair"; Analytics.category := "Chair";
            Analytics.totalSales := Fin 1; Analytics.totalProfit := Fin 0;
            Analytics.totalQuantity := Fin 2; Analytics.orderCount := Fin 2 |};
       Analytics.avgOrderValue := Fin 0 |} in
  (In e (Analytics.topProductsOf fd)
   /\ Analytics.avgOrderValue e
      = Math_round (reduce_sum Sales fd / Analytics.orderCount (Analytics.fields e)))
  /\ map (fun e => (Analytics.totalSales (Analytics.fields e),
                    Analytics.avgOrderValue e))
       (Analytics.topProductsOf
          [example_record "2016-01-05" "C1" "Ann" "Texas" "Desk" 1.77 1 0 0;
           example_record "2016-01-06" "C1" "Ann" "Texas" "Desk" 4.43 1 0 0;
           example_record "2016-01-07" "C1" "Ann" "Texas" "Desk" 1.30 1 0 0])
     = [(Fin 7, Fin 2)].
Proof.
  intros fd e. split; [| vm_compute; reflexivity].
  assert (Hin : In e (Analytics.topProductsOf fd))
    by (vm_compute; left; reflexivity).
  split; [exact Hin |].
  exact (proj1 (proj2 (proj1 (avgOrderValue_divides_unrounded_sum fd) e Hin))).
Defined.

(** ** The order of the grouped outputs *)

Lemma own_keys_forallb (key : SalesRecord -> string) (fd : list SalesRecord) :
  forallb (fun item => negb (Obj.inherited (key item))) fd = true ->
  own_keys key fd.
Proof.
  intros Hall item Hin. rewrite forallb_forall in Hall.
  apply negb_true_iff, Hall, Hin.
Qed.

Lemma finite_forallb (f : SalesRecord -> num) (fd : list SalesRecord) :
  forallb (fun item => is_finiteb (f item)) fd = true ->
  Forall (fun item => is_finite (f item)) fd.
Proof.
  intros Hall. apply Forall_forall. intros item Hin.
  rewrite forallb_forall in Hall. specialize (Hall item Hin).
  destruct (f item); simpl in *; try discriminate. exact I.
Qed.

(** C7, as stated, fails: the category breakdown of two records and that of
    the same two records in the other order list the same two groups in
    different orders, each in the order in which the categories first occur. *)
Lemma category_breakdown_order_counterexample :
  let a := example_record "2016-01-05" "C1" "Ann" "Texas" "Technology" 100 1 0 10 in
  let b := example_record "2016-01-20" "C2" "Bob" "Texas" "Furniture" 200 2 0 20 in
  Permutation [a; b] [b; a]
  /\ Dashboard.salesByCategoryArray [a; b]
     = [{| Dashboard.label := "Technology"; Dashboard.sales := Fin 100 |};
        {| Dashboard.label := "Furniture"; Dashboard.sales := Fin 200 |}]
  /\ Dashboard.salesByCategoryArray [b; a]
     = [{| Dashboard.label := "Furniture"; Dashboard.sales := Fin 200 |};
        {| Dashboard.label := "Technology"; Dashboard.sales := Fin 100 |}]
  /\ Dashboard.salesByCategoryArray [a; b] <> Dashboard.salesByCategoryArray [b; a].
Proof.
  intros a b. split; [apply perm_swap |].
  split; [vm_compute; reflexivity |].
  split; [vm_compute; reflexivity |].
  vm_compute. discriminate.
Qed.

(** C7, amended. The top-10 outputs (city, product, sub-category, top
    products) are sorted by their sales in descending order, for records with
    finite sales whose keys name no member inherited from
    [Object.prototype].  The category, segment and region breakdowns are not
    sorted: when no key is an array index or the name of an inherited
    member, each lists its groups in the order in which their keys first
    occur in the filtered records. *)
Theorem breakdowns_in_order_of_first_occurrence (fd : list SalesRecord) :
  (Forall (fun item => is_finite (Sales item)) fd ->
     (own_keys City fd ->
      descending Dashboard.sales (Dashboard.salesByCityArray fd))
     /\ (own_keys Product_Name fd ->
         descending Dashboard.sales (Dashboard.salesByProductArray fd))
     /\ (own_keys Sub_Category fd ->
         descending Dashboard.sales (Dashboard.salesBySubCategoryArray fd))
     /\ descending (fun e => Analytics.totalSales (Analytics.fields e))
          (Analytics.topProductsOf fd))
  /\ ((forall item, In item fd -> plain_key (Category item)) ->
      map Dashboard.label (Dashboard.salesByCategoryArray fd)
      = first_occurrences (map Category fd))
  /\ ((forall item, In item fd -> plain_key (Segment item)) ->
      map Dashboard.label (Dashboard.salesBySegmentArray fd)
      = first_occurrences (map Segment fd))
  /\ ((forall item, In item fd -> plain_key (Region item)) ->
      map (fun e => Analytics.region (Analytics.regionFields e))
        (Analytics.regionArray fd)
      = first_occurrences (map Region fd)).
Proof.
  split; [| split; [| split]].
  - intros Hfd.
    pose proof (topProductsOf_top_n fd Hfd) as (_ & _ & Ht & _).
    split; [| split; [| split; [| exact Ht]]]; intros Hown;
      apply (top10_top_n _ fd Hfd Hown).
  - apply breakdown_labels_order.
  - apply breakdown_labels_order.
  - apply region_labels_order.
Qed.

Lemma breakdowns_in_order_of_first_occurrence_witness :
  let a := example_record "2016-01-05" "C1" "Ann" "Texas" "Technology" 100 1 0 10 in
  let b := example_record "2016-01-20" "C2" "Bob" "Texas" "Furniture" 200 2 0 20 in
  map Dashboard.label (Dashboard.salesByCategoryArray [a; b; a])
  = ["Technology"; "Furniture"]
  /\ descending Dashboard.sales (Dashboard.salesByCityArray [a; b; a]).
Proof.
  intros a b. split.
  - apply (proj1 (proj2 (breakdowns_in_order_of_first_occurrence [a; b; a]))).
    intros item [<- | [<- | [<- | []]]]; split; vm_compute; reflexivity.
  - apply (proj1 (breakdowns_in_order_of_first_occurrence [a; b; a])).
    + apply finite_forallb. vm_compute. reflexivity.
    + apply own_keys_forallb. vm_compute. reflexivity.
Defined.

(** ** The top-10 outputs *)

(** C8, as stated, fails.  A city named ["constructor"] finds the member of
    that name that every object inherits: its entry is never set to 0, [+=]
    makes a string of it, and its rounded sales are [NaN], which no
    comparison orders; the sales of the records are finite.  And sales that
    are infinite (the literals [1e999] and [-1e999]) add up to [NaN] in one
    city.  In both cases an entry of the chart is not at least its
    successor. *)
Lemma top10_not_descending_counterexample :
  let a := example_record "2016-01-05" "C1" "Ann" "Texas" "constructor" 100 1 0 10 in
  let b := example_record "2016-01-20" "C2" "Bob" "Texas" "Austin" 50 2 0 20 in
  let c := {| Order_Date := "2016-01-05"; Customer_ID := "C1";
              Customer_Name := "Ann"; Segment := "s"; City := "Austin";
              State := "Texas"; Region := "r"; Category := "c";
              Sub_Category := "x"; Product_Name := "p"; Sales := PInf;
              Quantity := Fin 1; Discount := Fin 0; Profit := Fin 0 |} in
  let d := {| Order_Date := "2016-01-06"; Customer_ID := "C1";
              Customer_Name := "Ann"; Segment := "s"; City := "Austin";
              State := "Texas"; Region := "r"; Category := "c";
              Sub_Category := "x"; Product_Name := "p"; Sales := NInf;
              Quantity := Fin 1; Discount := Fin 0; Profit := Fin 0 |} in
  let e := example_record "2016-01-20" "C2" "Bob" "Texas" "Boston" 5 2 0 20 in
  (Forall (fun item => is_finite (Sales item)) [a; b]
   /\ Dashboard.salesByCityArray [a; b]
      = [{| Dashboard.label := "constructor"; Dashboard.sales := NaN |};
         {| Dashboard.label := "Austin"; Dashboard.sales := Fin 50 |}]
   /\ ~ descending Dashboard.sales (Dashboard.salesByCityArray [a; b]))
  /\ (own_keys City [c; d; e]
      /\ Dashboard.salesByCityArray [c; d; e]
         = [{| Dashboard.label := "Austin"; Dashboard.sales := NaN |};
            {| Dashboard.label := "Boston"; Dashboard.sales := Fin 5 |}]
      /\ ~ descending Dashboard.sales (Dashboard.salesByCityArray [c; d; e])).
Proof.
  intros a b c d e.
  assert (Eab : Dashboard.salesByCityArray [a; b]
                = [{| Dashboard.label := "constructor"; Dashboard.sales := NaN |};
                   {| Dashboard.label := "Austin"; Dashboard.sales := Fin 50 |}])
    by (vm_compute; reflexivity).
  assert (Ecde : Dashboard.salesByCityArray [c; d; e]
                 = [{| Dashboard.label := "Austin"; Dashboard.sales := NaN |};
                    {| Dashboard.label := "Boston"; Dashboard.sales := Fin 5 |}])
    by (vm_compute; reflexivity).
  split; (split; [| split; [assumption |]]).
  - apply finite_forallb. vm_compute. reflexivity.
  - rewrite Eab. intros Hd.
    specialize (Hd 0%nat _ _ eq_refl eq_refl). vm_compute in Hd. discriminate.
  - apply own_keys_forallb. vm_compute. reflexivity.
  - rewrite Ecde. intros Hd.
    specialize (Hd 0%nat _ _ eq_refl eq_refl). vm_compute in Hd. discriminate.
Qed.

(** C8, amended. Each top-10 output (city, product, sub-category, top
    products) has at most 10 entries, for every input.  When no key names a
    member inherited from [Object.prototype], the category, segment and
    region breakdowns have one entry for each distinct key: none is cut off.
    For records with finite sales whose keys name no inherited member, each
    top-10 output is made of entries of the grouping pass, each entry with
    sales at least those of its successor, and the entries of equal sales in
    the order that the grouping pass gave them. *)
Theorem top10_sorted_stable_truncated (fd : list SalesRecord) :
  ((List.length (Dashboard.salesByCityArray fd) <= 10)%nat
   /\ (List.length (Dashboard.salesByProductArray fd) <= 10)%nat
   /\ (List.length (Dashboard.salesBySubCategoryArray fd) <= 10)%nat
   /\ (List.length (Analytics.topProductsOf fd) <= 10)%nat)
  /\ ((own_keys Category fd ->
       Permutation (map Dashboard.label (Dashboard.salesByCategoryArray fd))
         (first_occurrences (map Category fd)))
      /\ (own_keys Segment fd ->
          Permutation (map Dashboard.label (Dashboard.salesBySegmentArray fd))
            (first_occurrences (map Segment fd)))
      /\ (own_keys Region fd ->
          Permutation
            (map (fun e => Analytics.region (Analytics.regionFields e))
               (Analytics.regionArray fd))
            (first_occurrences (map Region fd))))
  /\ (Forall (fun item => is_finite (Sales item)) fd ->
      (own_keys City fd ->
       top_n_of 10 Dashboard.sales
         (Dashboard.rounded (Dashboard.salesBy City fd))
         (Dashboard.salesByCityArray fd))
      /\ (own_keys Product_Name fd ->
          top_n_of 10 Dashboard.sales
            (Dashboard.rounded (Dashboard.salesBy Product_Name fd))
            (Dashboard.salesByProductArray fd))
      /\ (own_keys Sub_Category fd ->
          top_n_of 10 Dashboard.sales
            (Dashboard.rounded (Dashboard.salesBy Sub_Category fd))
            (Dashboard.salesBySubCategoryArray fd))
      /\ top_n_of 10 (fun e => Analytics.totalSales (Analytics.fields e))
           (Analytics.productEntries fd) (Analytics.topProductsOf fd)).
Proof.
  split; [| split].
  - repeat split; apply firstn_le_length.
  - split; [apply breakdown_labels_Permutation |].
    split; [apply breakdown_labels_Permutation |].
    apply region_labels_Permutation.
  - intros Hfd.
    split; [apply top10_top_n, Hfd |].
    split; [apply top10_top_n, Hfd |].
    split; [apply top10_top_n, Hfd |].
    apply topProductsOf_top_n, Hfd.
Qed.

Lemma top10_sorted_stable_truncated_witness :
  descending Dashboard.sales (Dashboard.salesByCityArray twelve_cities)
  /\ map Dashboard.label (Dashboard.salesByCityArray twelve_cities)
     = ["Boston"; "Dallas"; "Seattle"; "Houston"; "Chicago"; "Phoenix";
        "Austin"; "Tampa"; "Miami"; "Omaha"].
Proof.
  assert (Hfd : Forall (fun item => is_finite (Sales item)) twelve_cities)
    by (apply finite_forallb; vm_compute; reflexivity).
  assert (Hown : own_keys City twelve_cities)
    by (apply own_keys_forallb; vm_compute; reflexivity).
  destruct (proj1 (proj2 (proj2 (top10_sorted_stable_truncated twelve_cities))
                     Hfd) Hown)
    as (_ & _ & Hdesc & _).
  split.
  - exact Hdesc.
  - vm_compute. reflexivity.
Defined.

(** ** The calendar *)

Lemma append_assoc (s1 s2 s3 : string) :
  ((s1 ++ s2) ++ s3 = s1 ++ (s2 ++ s3))%string.
Proof. induction s1 as [| c s1 IH]; simpl; [| rewrite IH]; reflexivity. Qed.

Lemma append_nil_r (s : string) : (s ++ "" = s)%string.
Proof. induction s as [| c s IH]; simpl; [| rewrite IH]; reflexivity. Qed.

Section Calendar.
Import JSDate.

Ltac div_lia := Z.div_mod_to_equations; lia.

(** The month is from 1 to 12 and the day from 1 to 31. *)
Lemma civil_from_days_bounds (day : Z) :
  let '(y, m, d) := civil_from_days day in 1 <= m <= 12 /\ 1 <= d <= 31.
Proof.
  unfold civil_from_days.
  set (z := day + 719468).
  set (era := z / 146097).
  set (doe := z - era * 146097).
  assert (Hdoe : 0 <= doe <= 146096) by (subst doe era; div_lia).
  clearbody doe. clear z era.
  set (yoe := (doe - doe / 1460 + doe / 36524 - doe / 146096) / 365).
  set (doy := doe - (365 * yoe + yoe / 4 - yoe / 100)).
  assert (Hdoy : 0 <= doy <= 365) by (subst doy yoe; div_lia).
  clearbody doy.
  set (mp := (5 * doy + 2) / 153).
  assert (Hmp : 0 <= mp <= 11) by (subst mp; div_lia).
  destruct (mp <? 10) eqn:E;
    [apply Z.ltb_lt in E | apply Z.ltb_ge in E];
    (split; [lia | subst mp; div_lia]).
Qed.

(** A later day has a later date. *)
Lemma civil_from_days_monotone (a b : Z) :
  a <= b -> civil_le (civil_from_days a) (civil_from_days b).
Proof.
  intros Hab. unfold civil_from_days, civil_le.
  set (z1 := a + 719468). set (z2 := b + 719468).
  assert (Hz : z1 <= z2) by (subst z1 z2; lia).
  clearbody z1 z2. clear Hab a b.
  set (era1 := z1 / 146097). set (era2 := z2 / 146097).
  set (doe1 := z1 - era1 * 146097). set (doe2 := z2 - era2 * 146097).
  assert (H1 : 0 <= doe1 <= 146096) by (subst doe1 era1; div_lia).
  assert (H2 : 0 <= doe2 <= 146096) by (subst doe2 era2; div_lia).
  assert (He : era1 < era2 \/ (era1 = era2 /\ doe1 <= doe2))
    by (subst doe1 doe2 era1 era2; div_lia).
  clearbody doe1 doe2 era1 era2. clear Hz z1 z2.
  set (yoe1 := (doe1 - doe1 / 1460 + doe1 / 36524 - doe1 / 146096) / 365).
  set (yoe2 := (doe2 - doe2 / 1460 + doe2 / 36524 - doe2 / 146096) / 365).
  set (doy1 := doe1 - (365 * yoe1 + yoe1 / 4 - yoe1 / 100)).
  set (doy2 := doe2 - (365 * yoe2 + yoe2 / 4 - yoe2 / 100)).
  assert (Hy1 : 0 <= yoe1 <= 399 /\ 0 <= doy1 <= 365)
    by (subst doy1 yoe1; div_lia).
  assert (Hy2 : 0 <= yoe2 <= 399 /\ 0 <= doy2 <= 365)
    by (subst doy2 yoe2; div_lia).
  assert (Hm : era1 = era2 -> yoe1 < yoe2 \/ (yoe1 = yoe2 /\ doy1 <= doy2)).
  { intros ->. destruct He as [He | [_ He]]; [lia |].
    subst doy1 doy2 yoe1 yoe2. div_lia. }
  assert (Hera : era1 <= era2) by lia.
  clearbody doy1 doy2 yoe1 yoe2. clear H1 H2 He doe1 doe2.
  set (mp1 := (5 * doy1 + 2) / 153). set (mp2 := (5 * doy2 + 2) / 153).
  set (d1 := doy1 - (153 * mp1 + 2) / 5 + 1).
  set (d2 := doy2 - (153 * mp2 + 2) / 5 + 1).
  assert (Hp1 : 0 <= mp1 <= 11) by (subst mp1; div_lia).
  assert (Hp2 : 0 <= mp2 <= 11) by (subst mp2; div_lia).
  assert (Hd : doy1 <= doy2 -> mp1 < mp2 \/ (mp1 = mp2 /\ d1 <= d2))
    by (intros; subst d1 d2 mp1 mp2; div_lia).
  clearbody d1 d2 mp1 mp2.
  destruct (Z.ltb_spec mp1 10), (Z.ltb_spec mp2 10);
    repeat match goal with
           | |- context [?x <=? 2] => destruct (Z.leb_spec x 2)
           end; lia.
Qed.

Lemma Day_monotone (t1 t2 : Z) : t1 <= t2 -> Day t1 <= Day t2.
Proof. intros Ht. unfold Day, msPerDay. div_lia. Qed.

(** ** Decimal digits *)

Ltac norm_pow :=
  repeat match goal with
         | |- context [10 ^ Z.of_nat ?k] =>
             let p := eval vm_compute in (10 ^ Z.of_nat k) in
             change (10 ^ Z.of_nat k) with p
         end.

Lemma digit_char_eq (a b : Z) : a = b -> digit_char a = digit_char b.
Proof. congruence. Qed.

Ltac same_digits :=
  cbn [fixed Nat.add padStart repeat_char String.length Nat.sub]; norm_pow;
  repeat match goal with
         | |- String _ _ = String _ _ => f_equal
         | |- digit_char _ = digit_char _ => apply digit_char_eq; div_lia
         | |- ?c = digit_char _ =>
             change c with (digit_char 0); apply digit_char_eq; div_lia
         end;
  try reflexivity.

Lemma digits_last (fuel : nat) (n : Z) (acc : string) :
  0 <= n < 10 -> digits (S fuel) n acc = String (digit_char n) acc.
Proof.
  intros Hn. simpl. rewrite Z.mod_small by lia.
  rewrite Z.div_small by lia. reflexivity.
Qed.

Lemma digits_step (fuel : nat) (n : Z) (acc : string) :
  10 <= n ->
  digits (S fuel) n acc
  = digits fuel (n / 10) (String (digit_char (n mod 10)) acc).
Proof.
  intros Hn. simpl. destruct (Z.eqb_spec (n / 10) 0) as [E | E]; [| reflexivity].
  exfalso. div_lia.
Qed.

(** The fuel of [nat_toString] covers the digits. *)
Lemma fuel_enough (n : Z) (k : nat) :
  2 ^ Z.of_nat k <= n -> exists f, Z.to_nat (Z.log2 n) = (k + f)%nat.
Proof.
  intros Hn. exists (Z.to_nat (Z.log2 n) - k)%nat.
  assert (Z.of_nat k <= Z.log2 n) by (apply Z.log2_le_pow2; lia).
  lia.
Qed.

Lemma nat_toString_1 (n : Z) : 0 <= n < 10 -> nat_toString n = fixed 1 n.
Proof.
  intros Hn. unfold nat_toString. rewrite digits_last by assumption.
  same_digits.
Qed.

Lemma nat_toString_2 (n : Z) : 10 <= n < 100 -> nat_toString n = fixed 2 n.
Proof.
  intros Hn. unfold nat_toString.
  destruct (fuel_enough n 1) as [f ->]; [simpl; lia |]. cbn [Nat.add].
  rewrite digits_step by lia. rewrite digits_last by div_lia.
  same_digits.
Qed.

Lemma nat_toString_3 (n : Z) : 100 <= n < 1000 -> nat_toString n = fixed 3 n.
Proof.
  intros Hn. unfold nat_toString.
  destruct (fuel_enough n 2) as [f ->]; [simpl; lia |]. cbn [Nat.add].
  rewrite !digits_step by div_lia. rewrite digits_last by div_lia.
  same_digits.
Qed.

Lemma nat_toString_4 (n : Z) : 1000 <= n < 10000 -> nat_toString n = fixed 4 n.
Proof.
  intros Hn. unfold nat_toString.
  destruct (fuel_enough n 3) as [f ->]; [simpl; lia |]. cbn [Nat.add].
  rewrite !digits_step by div_lia. rewrite digits_last by div_lia.
  same_digits.
Qed.

Lemma pad_2 (n : Z) : 0 <= n < 100 -> pad 2 n = fixed 2 n.
Proof.
  intros Hn. unfold pad. destruct (Z_lt_le_dec n 10).
  - rewrite nat_toString_1 by lia. same_digits.
  - rewrite nat_toString_2 by lia. same_digits.
Qed.

Lemma pad_4 (n : Z) : 0 <= n < 10000 -> pad 4 n = fixed 4 n.
Proof.
  intros Hn. unfold pad.
  destruct (Z_lt_le_dec n 10);
    [| destruct (Z_lt_le_dec n 100); [| destruct (Z_lt_le_dec n 1000)]].
  - rewrite nat_toString_1 by lia. same_digits.
  - rewrite nat_toString_2 by lia. same_digits.
  - rewrite nat_toString_3 by lia. same_digits.
  - rewrite nat_toString_4 by lia. same_digits.
Qed.

Lemma digit_char_code (d : Z) :
  0 <= d <= 9 -> N_of_ascii (digit_char d) = Z.to_N (48 + d).
Proof. intros Hd. unfold digit_char. apply N_ascii_embedding. lia. Qed.

Lemma digit_char_compare (a b : Z) :
  0 <= a <= 9 -> 0 <= b <= 9 ->
  Ascii.compare (digit_char a) (digit_char b) = (a ?= b)%Z.
Proof.
  intros Ha Hb. unfold Ascii.compare. rewrite !digit_char_code by assumption.
  rewrite Z2N.inj_compare by lia. apply Z.add_compare_mono_l.
Qed.

Lemma digit_char_not_T (d : Z) :
  0 <= d <= 9 -> Ascii.eqb (digit_char d) "T" = false.
Proof.
  intros Hd. apply Ascii.eqb_neq. intros E.
  apply (f_equal N_of_ascii) in E. rewrite digit_char_code in E by assumption.
  change (N_of_ascii "T") with 84%N in E. lia.
Qed.

Lemma pow10_pos (w : nat) : 0 < 10 ^ Z.of_nat w.
Proof. apply Z.pow_pos_nonneg; lia. Qed.

Lemma leading_digit (w : nat) (n : Z) :
  0 <= n < 10 ^ Z.of_nat (S w) ->
  0 <= n / 10 ^ Z.of_nat w <= 9
  /\ 0 <= n mod 10 ^ Z.of_nat w < 10 ^ Z.of_nat w.
Proof.
  intros Hn. pose proof (pow10_pos w) as Hp.
  rewrite Nat2Z.inj_succ, Z.pow_succ_r in Hn by lia.
  split.
  - split; [apply Z.div_pos; lia |].
    assert (n / 10 ^ Z.of_nat w < 10); [| lia].
    apply Z.div_lt_upper_bound; lia.
  - apply Z.mod_pos_bound. assumption.
Qed.

(** Numbers written with the same number of digits compare as strings the
    way they compare as numbers. *)
Lemma fixed_compare (w : nat) : forall (a b : Z) (s1 s2 : string),
  0 <= a < 10 ^ Z.of_nat w -> 0 <= b < 10 ^ Z.of_nat w ->
  String.compare (fixed w a ++ s1) (fixed w b ++ s2)
  = match (a ?= b)%Z with Eq => String.compare s1 s2 | c => c end.
Proof.
  induction w as [| w IH]; intros a b s1 s2 Ha Hb.
  - simpl in Ha, Hb. assert (a = 0) by lia. assert (b = 0) by lia. subst.
    reflexivity.
  - destruct (leading_digit w a Ha) as [Hqa Hra].
    destruct (leading_digit w b Hb) as [Hqb Hrb].
    cbn [fixed append String.compare].
    rewrite digit_char_compare by assumption.
    rewrite (IH _ _ s1 s2 Hra Hrb).
    pose proof (pow10_pos w) as Hp.
    pose proof (Z.div_mod a (10 ^ Z.of_nat w) ltac:(lia)) as Ea.
    pose proof (Z.div_mod b (10 ^ Z.of_nat w) ltac:(lia)) as Eb.
    set (P := 10 ^ Z.of_nat w) in *.
    set (qa := a / P) in *. set (qb := b / P) in *.
    set (ra := a mod P) in *. set (rb := b mod P) in *.
    destruct (Z.compare_spec qa qb) as [Hq | Hq | Hq].
    + destruct (Z.compare_spec ra rb); destruct (Z.compare_spec a b);
        try reflexivity; exfalso; nia.
    + assert (Hab : a < b) by nia.
      apply Z.compare_lt_iff in Hab. rewrite Hab. reflexivity.
    + assert (Hab : b < a) by nia.
      apply Z.compare_gt_iff in Hab. rewrite Hab. reflexivity.
Qed.

Lemma split_T_0_fixed (w : nat) : forall (n : Z) (s : string),
  0 <= n < 10 ^ Z.of_nat w ->
  split_T_0 (fixed w n ++ s) = (fixed w n ++ split_T_0 s)%string.
Proof.
  induction w as [| w IH]; intros n s Hn.
  - reflexivity.
  - destruct (leading_digit w n Hn) as [Hq Hr].
    cbn [fixed append split_T_0].
    rewrite digit_char_not_T by assumption. rewrite IH by assumption.
    reflexivity.
Qed.

(** *** Numbers of any number of digits *)

Lemma fixed_snoc (w : nat) : forall n : Z,
  0 <= n < 10 ^ Z.of_nat (S w) ->
  fixed (S w) n
  = (fixed w (n / 10) ++ String (digit_char (n mod 10)) "")%string.
Proof.
  induction w as [| w IH]; intros n Hn.
  - cbn [fixed append]. change (10 ^ Z.of_nat 0) with 1.
    change (10 ^ Z.of_nat 1) with 10 in Hn.
    f_equal. apply digit_char_eq. div_lia.
  - pose proof (pow10_pos w) as Hp.
    assert (E10 : 10 ^ Z.of_nat (S w) = 10 * 10 ^ Z.of_nat w)
      by (rewrite Nat2Z.inj_succ, Z.pow_succ_r by lia; reflexivity).
    destruct (leading_digit (S w) n Hn) as [Hq Hr].
    change (fixed (S (S w)) n)
      with (String (digit_char (n / 10 ^ Z.of_nat (S w)))
              (fixed (S w) (n mod 10 ^ Z.of_nat (S w)))).
    rewrite (IH (n mod 10 ^ Z.of_nat (S w)) Hr).
    change (fixed (S w) (n / 10))
      with (String (digit_char (n / 10 / 10 ^ Z.of_nat w))
              (fixed w ((n / 10) mod 10 ^ Z.of_nat w))).
    cbn [append]. rewrite E10.
    set (P := 10 ^ Z.of_nat w) in *.
    assert (Hm : n mod (10 * P) = n mod 10 + 10 * ((n / 10) mod P))
      by (apply Z.rem_mul_r; lia).
    rewrite Hm.
    assert (Hr10 : 0 <= n mod 10 < 10) by (apply Z.mod_pos_bound; lia).
    replace ((n mod 10 + 10 * ((n / 10) mod P)) / 10) with ((n / 10) mod P)
      by (generalize ((n / 10) mod P); intros x; div_lia).
    replace ((n mod 10 + 10 * ((n / 10) mod P)) mod 10) with (n mod 10)
      by (generalize ((n / 10) mod P); intros x; div_lia).
    rewrite Z.div_div by lia. reflexivity.
Qed.

Lemma has_digits_div (w : nat) (n : Z) :
  has_digits (S w) n -> 10 <= n /\ has_digits w (n / 10).
Proof.
  intros [Hn [Hw | Hlow]]; [discriminate |].
  pose proof (pow10_pos w) as Hp.
  assert (E1 : 10 ^ Z.of_nat (S w) = 10 * 10 ^ Z.of_nat w)
    by (rewrite Nat2Z.inj_succ, Z.pow_succ_r by lia; reflexivity).
  assert (E2 : 10 ^ Z.of_nat (S (S w)) = 10 * 10 ^ Z.of_nat (S w))
    by (rewrite (Nat2Z.inj_succ (S w)), Z.pow_succ_r by lia; reflexivity).
  rewrite E2 in Hn. rewrite E1 in Hn, Hlow.
  set (P := 10 ^ Z.of_nat w) in *.
  split; [lia |]. unfold has_digits. rewrite E1. fold P.
  split; [div_lia |]. right. div_lia.
Qed.

Lemma digits_fixed (w : nat) : forall (fuel : nat) (n : Z) (acc : string),
  (w <= fuel)%nat -> has_digits w n ->
  digits (S fuel) n acc = (fixed (S w) n ++ acc)%string.
Proof.
  induction w as [| w IH]; intros fuel n acc Hf Hd.
  - destruct Hd as [Hn _]. change (10 ^ Z.of_nat 1) with 10 in Hn.
    rewrite digits_last by assumption.
    cbn [fixed append]. change (10 ^ Z.of_nat 0) with 1.
    f_equal. apply digit_char_eq. div_lia.
  - destruct fuel as [| fuel]; [lia |].
    pose proof Hd as [Hn _].
    destruct (has_digits_div w n Hd) as [H10 Hd'].
    rewrite digits_step by assumption.
    rewrite (IH fuel (n / 10) _ ltac:(lia) Hd').
    rewrite (fixed_snoc (S w) n Hn), append_assoc. reflexivity.
Qed.

(** A natural number of [S w] digits is written with these digits. *)
Lemma nat_toString_fixed (w : nat) (n : Z) :
  has_digits w n -> nat_toString n = fixed (S w) n.
Proof.
  intros Hd. unfold nat_toString.
  assert (Hf : (w <= Z.to_nat (Z.log2 n))%nat).
  { destruct Hd as [Hn [-> | Hlow]]; [lia |].
    pose proof (pow10_pos w) as Hp.
    assert (Hw : Z.of_nat w <= Z.log2 n); [| lia].
    apply Z.log2_le_pow2; [lia |].
    eapply Z.le_trans; [| exact Hlow].
    apply Z.pow_le_mono_l. lia. }
  rewrite (digits_fixed w _ n "" Hf Hd). apply append_nil_r.
Qed.

Lemma padStart_fixed (k w : nat) (n : Z) :
  padStart (k + S w) "0" (fixed (S w) n)
  = repeat_char k "0" (fixed (S w) n).
Proof.
  unfold padStart. f_equal.
  assert (Hlen : forall v m, String.length (fixed v m) = v).
  { clear. induction v as [| v IHv]; intros m; simpl; [| rewrite IHv];
      reflexivity. }
  rewrite Hlen. lia.
Qed.

Lemma fixed_leading_zeros (k w : nat) (n : Z) :
  0 <= n < 10 ^ Z.of_nat w ->
  fixed (k + w) n = repeat_char k "0" (fixed w n).
Proof.
  intros Hn. induction k as [| k IH]; [reflexivity |].
  cbn [Nat.add fixed repeat_char]. rewrite <- IH.
  assert (Hle : 10 ^ Z.of_nat w <= 10 ^ Z.of_nat (k + w))
    by (apply Z.pow_le_mono_r; lia).
  rewrite Z.div_small, Z.mod_small by lia. reflexivity.
Qed.

(** Every natural number has a number of digits. *)
Lemma has_digits_exists (w : nat) : forall n : Z,
  0 <= n < 10 ^ Z.of_nat (S w) -> exists v, (v <= w)%nat /\ has_digits v n.
Proof.
  induction w as [| w IH]; intros n Hn.
  - exists 0%nat. split; [lia |]. split; [assumption | left; reflexivity].
  - destruct (Z_lt_le_dec n (10 ^ Z.of_nat (S w))) as [Hlt | Hge].
    + destruct (IH n ltac:(lia)) as (v & Hv & Hd).
      exists v. split; [lia | assumption].
    + exists (S w). split; [lia |]. split; [assumption | right; assumption].
Qed.

(** A natural number below [10 ^ w], padded with zeros to [w] digits. *)
Lemma pad_fixed (w : nat) (n : Z) :
  0 <= n < 10 ^ Z.of_nat (S w) -> pad (S w) n = fixed (S w) n.
Proof.
  intros Hn. destruct (has_digits_exists w n Hn) as (v & Hv & Hd).
  unfold pad. rewrite (nat_toString_fixed v n Hd).
  replace (S w) with ((w - v) + S v)%nat by lia.
  rewrite padStart_fixed. symmetry. apply fixed_leading_zeros.
  destruct Hd as [Hd _]. assumption.
Qed.

End Calendar.

(** ** Period keys *)

Lemma fixed_compare_nil (w : nat) (a b : Z) :
  0 <= a < 10 ^ Z.of_nat w -> 0 <= b < 10 ^ Z.of_nat w ->
  String.compare (fixed w a) (fixed w b) = (a ?= b)%Z.
Proof.
  intros Ha Hb. rewrite <- (append_nil_r (fixed w a)), <- (append_nil_r (fixed w b)).
  rewrite fixed_compare by assumption. destruct (a ?= b)%Z; reflexivity.
Qed.

Section PeriodKeys.
Context {H : Host}.
Import JSDate.

Lemma YearFromTime_monotone (t1 t2 : Z) :
  t1 <= t2 -> YearFromTime t1 <= YearFromTime t2.
Proof.
  intros Ht. unfold YearFromTime.
  pose proof (civil_from_days_monotone _ _ (Day_monotone _ _ Ht)) as Hle.
  destruct (civil_from_days (Day t1)) as [[y1 m1] d1].
  destruct (civil_from_days (Day t2)) as [[y2 m2] d2].
  simpl in *. lia.
Qed.

Lemma has_digits_nonneg (w : nat) (n : Z) : has_digits w n -> 0 <= n.
Proof. intros [Hn _]. lia. Qed.

Lemma periodKey_yearly (w : nat) (t : Z) :
  has_digits w (YearFromTime (LocalTime t)) ->
  Trend.periodKey "yearly" (Some t)
  = Ok (fixed (S w) (YearFromTime (LocalTime t))).
Proof.
  intros Hy. unfold Trend.periodKey. cbn [String.eqb Ascii.eqb Bool.eqb].
  unfold getFullYear, int_toString. cbn [option_map].
  pose proof (has_digits_nonneg _ _ Hy) as H0.
  destruct (Z.ltb_spec (YearFromTime (LocalTime t)) 0); [lia |].
  rewrite (nat_toString_fixed w) by assumption. reflexivity.
Qed.

Lemma periodKey_monthly (w : nat) (t : Z) :
  has_digits w (YearFromTime (LocalTime t)) ->
  Trend.periodKey "monthly" (Some t)
  = Ok (fixed (S w) (YearFromTime (LocalTime t)) ++ "-"
        ++ fixed 2 (MonthFromTime (LocalTime t) + 1))%string.
Proof.
  intros Hy. unfold Trend.periodKey. cbn [String.eqb Ascii.eqb Bool.eqb].
  unfold getFullYear, getMonth, int_toString. cbn [option_map].
  pose proof (has_digits_nonneg _ _ Hy) as H0.
  destruct (Z.ltb_spec (YearFromTime (LocalTime t)) 0); [lia |].
  rewrite (nat_toString_fixed w) by assumption.
  assert (Hm : 1 <= MonthFromTime (LocalTime t) + 1 <= 12).
  { unfold MonthFromTime.
    pose proof (civil_from_days_bounds (Day (LocalTime t))) as Hb.
    destruct (civil_from_days (Day (LocalTime t))) as [[y m] d]. simpl. lia. }
  destruct (Z.ltb_spec (MonthFromTime (LocalTime t) + 1) 0); [lia |].
  change (padStart 2 "0" (nat_toString (MonthFromTime (LocalTime t) + 1)))
    with (pad 2 (MonthFromTime (LocalTime t) + 1)).
  rewrite pad_2 by lia. reflexivity.
Qed.

Lemma day_fields_bounds (t : Z) :
  1 <= MonthFromTime t + 1 <= 12 /\ 1 <= DateFromTime t <= 31.
Proof.
  unfold MonthFromTime, DateFromTime.
  pose proof (civil_from_days_bounds (Day t)) as Hb.
  destruct (civil_from_days (Day t)) as [[y m] d]. simpl. lia.
Qed.

Lemma split_T_0_day (m d : Z) (rest : string) :
  1 <= m <= 12 -> 1 <= d <= 31 ->
  split_T_0 ("-" ++ fixed 2 m ++ "-" ++ fixed 2 d ++ "T" ++ rest)
  = ("-" ++ fixed 2 m ++ "-" ++ fixed 2 d)%string.
Proof.
  intros Hm Hd.
  cbn [append split_T_0 Ascii.eqb Bool.eqb].
  rewrite split_T_0_fixed by (change (10 ^ Z.of_nat 2) with 100; lia).
  cbn [append split_T_0 Ascii.eqb Bool.eqb].
  rewrite split_T_0_fixed by (change (10 ^ Z.of_nat 2) with 100; lia).
  cbn [append split_T_0 Ascii.eqb Bool.eqb].
  rewrite append_nil_r. reflexivity.
Qed.

Lemma periodKey_daily (granularity : string) (t : Z) :
  granularity <> "monthly" -> granularity <> "yearly" ->
  0 <= YearFromTime t <= 9999 ->
  Trend.periodKey granularity (Some t)
  = Ok (fixed 4 (YearFromTime t) ++ "-" ++ fixed 2 (MonthFromTime t + 1)
        ++ "-" ++ fixed 2 (DateFromTime t))%string.
Proof.
  intros Hm Hy Hyear. unfold Trend.periodKey.
  apply String.eqb_neq in Hm, Hy. rewrite Hm, Hy.
  unfold toISOString, bind, iso_date, iso_year.
  destruct (Z.leb_spec 0 (YearFromTime t)); [| lia].
  destruct (Z.leb_spec (YearFromTime t) 9999); [| lia].
  cbn [andb].
  destruct (day_fields_bounds t) as [Hmb Hdb].
  rewrite pad_4, !pad_2 by lia.
  rewrite !append_assoc.
  rewrite split_T_0_fixed by (change (10 ^ Z.of_nat 4) with 10000; lia).
  rewrite split_T_0_day by assumption. reflexivity.
Qed.

(** Above the year 9999 the day is written with a sign and a year of six
    digits. *)
Lemma periodKey_daily_extended (granularity : string) (t : Z) :
  granularity <> "monthly" -> granularity <> "yearly" ->
  10000 <= YearFromTime t <= 999999 ->
  Trend.periodKey granularity (Some t)
  = Ok ("+" ++ fixed 6 (YearFromTime t) ++ "-" ++ fixed 2 (MonthFromTime t + 1)
        ++ "-" ++ fixed 2 (DateFromTime t))%string.
Proof.
  intros Hm Hy Hyear. unfold Trend.periodKey.
  apply String.eqb_neq in Hm, Hy. rewrite Hm, Hy.
  unfold toISOString, bind, iso_date, iso_year.
  destruct (Z.leb_spec (YearFromTime t) 9999); [lia |].
  rewrite andb_false_r.
  destruct (Z.ltb_spec (YearFromTime t) 0); [lia |].
  destruct (day_fields_bounds t) as [Hmb Hdb].
  rewrite (pad_fixed 5), !pad_2
    by (try change (10 ^ Z.of_nat 6) with 1000000; lia).
  rewrite !append_assoc.
  cbn [append split_T_0 Ascii.eqb Bool.eqb].
  rewrite split_T_0_fixed by (change (10 ^ Z.of_nat 6) with 1000000; lia).
  pose proof (split_T_0_day _ _ (iso_time t) Hmb Hdb) as E.
  cbn [append] in E. rewrite E. reflexivity.
Qed.

End PeriodKeys.

Lemma compare_cons_same (c : ascii) (s1 s2 : string) :
  String.compare (String c s1) (String c s2) = String.compare s1 s2.
Proof.
  cbn [String.compare]. unfold Ascii.compare. rewrite N.compare_refl.
  reflexivity.
Qed.

Lemma Ok_inj {A : Type} (a b : A) : Ok a = Ok b -> a = b.
Proof. congruence. Qed.

Lemma leb_compare (s1 s2 : string) :
  String.compare s1 s2 <> Gt -> String.leb s1 s2 = true.
Proof. unfold String.leb. destruct (String.compare s1 s2); congruence. Qed.

Section PeriodKeyOrder.
Context {H : Host}.
Import JSDate.

Lemma civil_fields (t : Z) :
  civil_from_days (Day t) = (YearFromTime t, MonthFromTime t + 1, DateFromTime t)
  /\ 1 <= MonthFromTime t + 1 <= 12 /\ 1 <= DateFromTime t <= 31.
Proof.
  unfold YearFromTime, MonthFromTime, DateFromTime.
  pose proof (civil_from_days_bounds (Day t)) as Hb.
  destruct (civil_from_days (Day t)) as [[y m] d]. simpl.
  split; [f_equal; f_equal; lia | lia].
Qed.

Lemma fields_monotone (t1 t2 : Z) :
  t1 <= t2 ->
  civil_le (YearFromTime t1, MonthFromTime t1 + 1, DateFromTime t1)
           (YearFromTime t2, MonthFromTime t2 + 1, DateFromTime t2).
Proof.
  intros Ht.
  destruct (civil_fields t1) as [<- _]. destruct (civil_fields t2) as [<- _].
  apply civil_from_days_monotone, Day_monotone, Ht.
Qed.

Lemma reads_local_time_true (granularity : string) :
  reads_local_time granularity = true
  <-> granularity = "monthly" \/ granularity = "yearly".
Proof.
  unfold reads_local_time. rewrite orb_true_iff, !String.eqb_eq. reflexivity.
Qed.

Lemma reads_local_time_false (granularity : string) :
  reads_local_time granularity = false
  <-> granularity <> "monthly" /\ granularity <> "yearly".
Proof.
  unfold reads_local_time. rewrite orb_false_iff, !String.eqb_neq. reflexivity.
Qed.

(** The key of a day as three numbers of fixed width, behind a common
    prefix. *)
Lemma day_key_compare (w : nat) (y1 m1 d1 y2 m2 d2 : Z) :
  0 <= y1 < 10 ^ Z.of_nat w -> 0 <= y2 < 10 ^ Z.of_nat w ->
  1 <= m1 <= 12 -> 1 <= m2 <= 12 -> 1 <= d1 <= 31 -> 1 <= d2 <= 31 ->
  civil_le (y1, m1, d1) (y2, m2, d2) ->
  String.compare
    (fixed w y1 ++ "-" ++ fixed 2 m1 ++ "-" ++ fixed 2 d1)
    (fixed w y2 ++ "-" ++ fixed 2 m2 ++ "-" ++ fixed 2 d2) <> Gt.
Proof.
  intros Hy1 Hy2 Hm1 Hm2 Hd1 Hd2 Hle. unfold civil_le in Hle.
  rewrite fixed_compare by assumption.
  destruct (Z.compare_spec y1 y2) as [Hy | Hy | Hy]; [| discriminate | lia].
  cbn [append]. rewrite compare_cons_same.
  rewrite fixed_compare by (change (10 ^ Z.of_nat 2) with 100; lia).
  destruct (Z.compare_spec m1 m2) as [Hm | Hm | Hm]; [| discriminate | lia].
  rewrite compare_cons_same.
  rewrite fixed_compare_nil by (change (10 ^ Z.of_nat 2) with 100; lia).
  intros Hgt. apply Z.compare_gt_iff in Hgt. lia.
Qed.

(** Where the years are written in the same way, a time that is not earlier,
    on the clock that the key reads, has a period key that is not below. *)
Lemma periodKey_leb (granularity : string) (t1 t2 : Z) (k1 k2 : string) :
  same_year_format granularity t1 t2 -> t1 <= t2 ->
  (reads_local_time granularity = true -> LocalTime t1 <= LocalTime t2) ->
  Trend.periodKey granularity (Some t1) = Ok k1 ->
  Trend.periodKey granularity (Some t2) = Ok k2 ->
  String.leb k1 k2 = true.
Proof.
  unfold same_year_format. intros Hfmt Ht Hlocal Hk1 Hk2.
  apply leb_compare.
  destruct (reads_local_time granularity) eqn:Eg.
  - destruct Hfmt as (w & Hw1 & Hw2). specialize (Hlocal eq_refl).
    pose proof (fields_monotone _ _ Hlocal) as Hloc. unfold civil_le in Hloc.
    destruct (civil_fields (LocalTime t1)) as (_ & Hlm1 & _).
    destruct (civil_fields (LocalTime t2)) as (_ & Hlm2 & _).
    pose proof Hw1 as [Hy1 _]. pose proof Hw2 as [Hy2 _].
    apply reads_local_time_true in Eg. destruct Eg as [-> | ->].
    + rewrite (periodKey_monthly w) in Hk1, Hk2 by assumption.
      apply Ok_inj in Hk1, Hk2. subst k1 k2.
      rewrite fixed_compare by assumption.
      destruct (Z.compare_spec (YearFromTime (LocalTime t1))
                  (YearFromTime (LocalTime t2))) as [Hy | Hy | Hy];
        [| discriminate | lia].
      cbn [append]. rewrite compare_cons_same.
      rewrite fixed_compare_nil by (change (10 ^ Z.of_nat 2) with 100; lia).
      intros Hgt. apply Z.compare_gt_iff in Hgt. lia.
    + rewrite (periodKey_yearly w) in Hk1, Hk2 by assumption.
      apply Ok_inj in Hk1, Hk2. subst k1 k2.
      rewrite fixed_compare_nil by assumption.
      intros Hgt. apply Z.compare_gt_iff in Hgt. lia.
  - apply reads_local_time_false in Eg. destruct Eg as [Hnm Hny].
    pose proof (fields_monotone _ _ Ht) as Hutc.
    destruct (civil_fields t1) as (_ & Hm1 & Hd1).
    destruct (civil_fields t2) as (_ & Hm2 & Hd2).
    destruct Hfmt as [[Hy1 Hy2] | [Hy1 Hy2]].
    + rewrite periodKey_daily in Hk1, Hk2 by assumption.
      apply Ok_inj in Hk1, Hk2. subst k1 k2.
      apply day_key_compare;
        try assumption; change (10 ^ Z.of_nat 4) with 10000; lia.
    + rewrite periodKey_daily_extended in Hk1, Hk2 by assumption.
      apply Ok_inj in Hk1, Hk2. subst k1 k2.
      cbn [append]. rewrite compare_cons_same.
      apply day_key_compare;
        try assumption; change (10 ^ Z.of_nat 6) with 1000000; lia.
Qed.

Lemma periodKey_Ok (granularity : string) (t1 t2 : Z) :
  same_year_format granularity t1 t2 ->
  exists k1 k2,
    Trend.periodKey granularity (Some t1) = Ok k1
    /\ Trend.periodKey granularity (Some t2) = Ok k2.
Proof.
  unfold same_year_format. intros Hfmt.
  destruct (reads_local_time granularity) eqn:Eg.
  - destruct Hfmt as (w & Hw1 & Hw2).
    apply reads_local_time_true in Eg. destruct Eg as [-> | ->].
    + rewrite !(periodKey_monthly w) by assumption. eauto.
    + rewrite !(periodKey_yearly w) by assumption. eauto.
  - apply reads_local_time_false in Eg. destruct Eg as [Hnm Hny].
    destruct Hfmt as [[Hy1 Hy2] | [Hy1 Hy2]].
    + rewrite !periodKey_daily by assumption. eauto.
    + rewrite !periodKey_daily_extended by assumption. eauto.
Qed.

End PeriodKeyOrder.

(** ** Unrecognized granularities *)

Lemma forEach_pointwise {A S : Type} (f g : S -> A -> result S) (l : list A)
  (s : S) :
  (forall s x, f s x = g s x) -> forEach f l s = forEach g l s.
Proof.
  intros Hfg. revert s. induction l as [| x l IH]; intros s; simpl.
  - reflexivity.
  - rewrite Hfg. destruct (g s x); simpl; [apply IH | reflexivity].
Qed.

Section Fallback.
Context {H : Host}.

Lemma periodKey_fallback (granularity : string) (date : Date) :
  granularity <> "monthly" -> granularity <> "yearly" ->
  Trend.periodKey granularity date
  = (s <- JSDate.toISOString date ;; Ok (JSDate.split_T_0 s)).
Proof.
  intros Hm Hy. unfold Trend.periodKey.
  apply String.eqb_neq in Hm, Hy. rewrite Hm, Hy. reflexivity.
Qed.

(** C10. For every value of the period parameter other than ["monthly"] and
    ["yearly"], the key of each record is the part of [toISOString()] before
    its ["T"] (for a year from 0 to 9999 the day as YYYY-MM-DD), and the
    handler returns what it returns for ["daily"], be it a trend or the
    exception of an invalid date. *)
Theorem unrecognized_period_behaves_as_daily
  (salesData : list SalesRecord) (state fromDate toDate customerId : param)
  (period : string) :
  period <> "monthly" -> period <> "yearly" ->
  (forall date,
     Trend.periodKey period date
     = (s <- JSDate.toISOString date ;; Ok (JSDate.split_T_0 s)))
  /\ (forall t,
        0 <= JSDate.YearFromTime t <= 9999 ->
        Trend.periodKey period (Some t)
        = Ok (fixed 4 (JSDate.YearFromTime t) ++ "-"
              ++ fixed 2 (JSDate.MonthFromTime t + 1) ++ "-"
              ++ fixed 2 (JSDate.DateFromTime t))%string)
  /\ Trend.sales_trend salesData state fromDate toDate customerId (Some period)
     = Trend.sales_trend salesData state fromDate toDate customerId
         (Some "daily").
Proof.
  intros Hm Hy. split; [| split].
  - intros date. apply periodKey_fallback; assumption.
  - intros t Ht. apply periodKey_daily; assumption.
  - unfold Trend.sales_trend, Trend.trendArray, Trend.trendData.
    f_equal. apply forEach_pointwise. intros o item.
    unfold Trend.accumulate.
    rewrite (periodKey_fallback period) by assumption.
    rewrite (periodKey_fallback "daily") by discriminate.
    reflexivity.
Qed.

End Fallback.

Lemma unrecognized_period_behaves_as_daily_witness :
  let data := [example_record "2016-01-05" "C1" "Ann" "Texas" "k" 100 1 0 10;
               example_record "2016-01-20" "C2" "Bob" "Texas" "k" 50 2 0 20] in
  Trend.sales_trend (H := NodeUTC.host) data None None None None (Some "monthy")
  = Ok [{| Trend.period := "2016-01-05"; Trend.sales := Fin 100;
           Trend.profit := Fin 10; Trend.quantity := Fin 1 |};
        {| Trend.period := "2016-01-20"; Trend.sales := Fin 50;
           Trend.profit := Fin 20; Trend.quantity := Fin 2 |}].
Proof.
  intros data.
  rewrite (proj2 (proj2 (unrecognized_period_behaves_as_daily
                           (H := NodeUTC.host) data None None None None
                           "monthy" ltac:(discriminate) ltac:(discriminate)))).
  vm_compute. reflexivity.
Defined.

(** ** The order of the trend *)

Lemma compare_Lt_trans (a : string) : forall b c : string,
  String.compare a b = Lt -> String.compare b c = Lt -> String.compare a c = Lt.
Proof.
  induction a as [| x a IH]; intros [| y b] [| z c]; simpl;
    try discriminate; auto.
  unfold Ascii.compare.
  destruct (N.compare_spec (N_of_ascii x) (N_of_ascii y)) as [Exy | Lxy | Gxy];
    try discriminate;
    destruct (N.compare_spec (N_of_ascii y) (N_of_ascii z)) as [Eyz | Lyz | Gyz];
    try discriminate; intros H1 H2;
    destruct (N.compare_spec (N_of_ascii x) (N_of_ascii z)) as [Exz | Lxz | Gxz];
    try reflexivity; try lia.
  eapply IH; eassumption.
Qed.

Lemma leb_trans (a b c : string) :
  String.leb a b = true -> String.leb b c = true -> String.leb a c = true.
Proof.
  unfold String.leb. intros Hab Hbc.
  destruct (String.compare a b) eqn:Eab; try discriminate;
    destruct (String.compare b c) eqn:Ebc; try discriminate.
  - apply String.compare_eq_iff in Eab. subst. rewrite Ebc. reflexivity.
  - apply String.compare_eq_iff in Eab. subst. rewrite Ebc. reflexivity.
  - apply String.compare_eq_iff in Ebc. subst. rewrite Eab. reflexivity.
  - rewrite (compare_Lt_trans a b c Eab Ebc). reflexivity.
Qed.

Lemma gt_num_of_comparison (c : comparison) :
  gt (num_of_comparison c) zero = true <-> c = Gt.
Proof. destruct c; vm_compute; split; congruence. Qed.

Section SortByKey.
Context {A : Type}.
Variable key : A -> string.

Local Abbreviation byKey :=
  (fun a b : A => num_of_comparison (String.compare (key a) (key b))).
Local Abbreviation keyLeb := (fun a b : A => String.leb (key a) (key b) = true).

Lemma sort_insert_by_key (x : A) (l : list A) :
  StronglySorted keyLeb l -> StronglySorted keyLeb (sort_insert byKey x l).
Proof.
  induction l as [| y l IH]; intros Hs; simpl.
  - repeat constructor.
  - apply StronglySorted_inv in Hs. destruct Hs as [Hs Hall].
    destruct (gt (num_of_comparison (String.compare (key x) (key y))) zero)
      eqn:E.
    + apply gt_num_of_comparison in E. constructor.
      * apply IH. assumption.
      * eapply Permutation_Forall.
        { apply Permutation_sym, sort_insert_Permutation. }
        constructor; [| assumption].
        unfold String.leb. rewrite String.compare_antisym, E. reflexivity.
    + assert (Hxy : String.leb (key x) (key y) = true).
      { unfold String.leb.
        destruct (String.compare (key x) (key y)) eqn:Ec; try reflexivity.
        exfalso. assert (Hgt : gt (num_of_comparison Gt) zero = true)
          by (apply gt_num_of_comparison; reflexivity).
        congruence. }
      constructor; [constructor; assumption |].
      constructor; [assumption |].
      rewrite Forall_forall in Hall |- *. intros z Hz.
      eapply leb_trans; [exact Hxy | apply Hall, Hz].
Qed.

Lemma Array_sort_by_key (l : list A) :
  StronglySorted keyLeb (Array_sort byKey l).
Proof.
  induction l as [| x l IH]; simpl.
  - constructor.
  - apply sort_insert_by_key, IH.
Qed.

End SortByKey.

Lemma sort_insert_pointwise {A : Type} (c c' : A -> A -> num) (x : A)
  (l : list A) :
  (forall y, In y l -> c x y = c' x y) ->
  sort_insert c x l = sort_insert c' x l.
Proof.
  induction l as [| y l IH]; intros Hc; simpl; [reflexivity |].
  rewrite Hc by (left; reflexivity).
  rewrite IH by (intros z Hz; apply Hc; right; assumption). reflexivity.
Qed.

(** Two comparison functions that agree on the members of an array sort it
    the same way. *)
Lemma Array_sort_pointwise {A : Type} (c c' : A -> A -> num) (l : list A) :
  (forall a b, In a l -> In b l -> c a b = c' a b) ->
  Array_sort c l = Array_sort c' l.
Proof.
  induction l as [| x l IH]; intros Hc; simpl; [reflexivity |].
  rewrite IH by (intros a b Ha Hb; apply Hc; right; assumption).
  apply sort_insert_pointwise. intros y Hy.
  apply Hc; [left; reflexivity | right].
  apply (Array_sort_In c' l y). assumption.
Qed.

Lemma StronglySorted_nth_error {A : Type} (R : A -> A -> Prop) (l : list A) :
  StronglySorted R l ->
  forall i j a b, (i < j)%nat ->
    nth_error l i = Some a -> nth_error l j = Some b -> R a b.
Proof.
  induction 1 as [| x l Hs IH Hall]; intros i j a b Hij Ha Hb.
  - destruct i; discriminate.
  - destruct j as [| j]; [lia |]. simpl in Hb.
    destruct i as [| i]; simpl in Ha.
    + injection Ha as <-. rewrite Forall_forall in Hall.
      apply Hall. eapply nth_error_In. eassumption.
    + apply (IH i j); [lia | assumption | assumption].
Qed.

Lemma NoDup_nth_error_neq {A : Type} (l : list A) (i j : nat) (a b : A) :
  NoDup l -> (i < j)%nat ->
  nth_error l i = Some a -> nth_error l j = Some b -> a <> b.
Proof.
  intros Hnd Hij Ha Hb Hab. subst b.
  assert (Hi : (i < List.length l)%nat)
    by (apply nth_error_Some; congruence).
  pose proof (proj1 (NoDup_nth_error l) Hnd i j Hi) as Heq.
  rewrite Ha, Hb in Heq. specialize (Heq eq_refl). lia.
Qed.

(** *** Period keys name no inherited member *)

(** The names of the inherited members begin with a small letter or with
    ["_"]. *)
Lemma low_start_not_inherited (s : string) :
  low_start s = true -> Obj.inherited s = false.
Proof.
  destruct s as [| c s]; [reflexivity |].
  unfold low_start, low. intros Hc.
  destruct c as [b0 b1 b2 b3 b4 b5 b6 b7].
  destruct b0, b1, b2, b3, b4, b5, b6, b7;
    try discriminate Hc; reflexivity.
Qed.

Lemma low_start_app (c : ascii) (s1 s2 : string) :
  low_start (String c s1 ++ s2) = low c.
Proof. reflexivity. Qed.

Lemma low_digit_char (x : Z) : low (JSDate.digit_char (x mod 10)) = true.
Proof.
  unfold low. assert (Hx : 0 <= x mod 10 < 10) by (apply Z.mod_pos_bound; lia).
  rewrite digit_char_code by lia. apply N.ltb_lt. lia.
Qed.

Lemma digits_head (fuel : nat) : forall (n : Z) (acc : string),
  exists c s, JSDate.digits (S fuel) n acc = String c s /\ low c = true.
Proof.
  induction fuel as [| fuel IH]; intros n acc.
  - exists (JSDate.digit_char (n mod 10)), acc. split; [| apply low_digit_char].
    simpl. destruct (n / 10 =? 0); reflexivity.
  - change (JSDate.digits (S (S fuel)) n acc)
      with (if n / 10 =? 0 then String (JSDate.digit_char (n mod 10)) acc
            else JSDate.digits (S fuel) (n / 10)
                   (String (JSDate.digit_char (n mod 10)) acc)).
    destruct (n / 10 =? 0); [| apply IH].
    exists (JSDate.digit_char (n mod 10)), acc. split; [reflexivity |].
    apply low_digit_char.
Qed.

Lemma int_toString_head (v : option Z) :
  exists c s, JSDate.int_toString v = String c s /\ low c = true.
Proof.
  destruct v as [n |]; [| exists "N"%char, "aN"; split; reflexivity].
  unfold JSDate.int_toString. destruct (n <? 0).
  - exists "-"%char, (JSDate.nat_toString (- n)). split; reflexivity.
  - apply digits_head.
Qed.

Lemma iso_year_head (y : Z) :
  exists c s, JSDate.iso_year y = String c s /\ low c = true.
Proof.
  unfold JSDate.iso_year.
  destruct ((0 <=? y) && (y <=? 9999));
    [| destruct (y <? 0);
       [exists "-"%char, (JSDate.pad 6 (- y)) | exists "+"%char, (JSDate.pad 6 y)];
       split; reflexivity].
  unfold JSDate.pad, JSDate.padStart.
  destruct (digits_head (Z.to_nat (Z.log2 y)) y "") as (c & s & E & Hc).
  fold (JSDate.nat_toString y) in E. rewrite E.
  destruct (4 - String.length (String c s))%nat as [| k].
  - exists c, s. split; [reflexivity | assumption].
  - exists "0"%char, (JSDate.repeat_char k "0" (String c s)).
    split; reflexivity.
Qed.

Lemma periodKey_low_start {H : Host} (granularity : string) (date : Date)
  (k : string) :
  Trend.periodKey granularity date = Ok k -> low_start k = true.
Proof.
  unfold Trend.periodKey.
  destruct (String.eqb granularity "monthly");
    [| destruct (String.eqb granularity "yearly")].
  - destruct (int_toString_head (JSDate.getFullYear date)) as (c & s & -> & Hc).
    intros E. apply Ok_inj in E. subst k. exact Hc.
  - destruct (int_toString_head (JSDate.getFullYear date)) as (c & s & -> & Hc).
    intros E. apply Ok_inj in E. subst k. exact Hc.
  - destruct date as [t |]; [| discriminate].
    unfold JSDate.toISOString, bind, JSDate.iso_date.
    destruct (iso_year_head (JSDate.YearFromTime t)) as (c & s & -> & Hc).
    intros E. apply Ok_inj in E. subst k.
    cbn [append JSDate.split_T_0].
    destruct (Ascii.eqb c "T"); [reflexivity | exact Hc].
Qed.

Lemma periodKey_not_inherited {H : Host} (granularity : string) (date : Date)
  (k : string) :
  Trend.periodKey granularity date = Ok k -> Obj.inherited k = false.
Proof.
  intros Hk. apply low_start_not_inherited.
  exact (periodKey_low_start granularity date k Hk).
Qed.

Section TrendOrder.
Context {H : Host}.
Variable granularity : string.

Local Abbreviation keyf := (period_of granularity).

Lemma period_of_Ok (item : SalesRecord) (k : string) :
  Trend.periodKey granularity (parseDate (Some (Order_Date item))) = Ok k ->
  period_of granularity item = k.
Proof. unfold period_of. intros ->. reflexivity. Qed.

Lemma trend_accumulate_update (o : Obj.t Trend.Entry) (item : SalesRecord) :
  (exists k,
     Trend.periodKey granularity (parseDate (Some (Order_Date item))) = Ok k) ->
  Trend.accumulate granularity o item
  = Ok (Obj.set o (keyf item) (trend_update keyf (Obj.get o (keyf item)) item)).
Proof.
  intros [k Hk]. rewrite (period_of_Ok item k Hk).
  unfold Trend.accumulate. rewrite Hk. cbn [bind]. unfold trend_update.
  rewrite (period_of_Ok item k Hk).
  rewrite (holds_object_own o k (periodKey_not_inherited _ _ _ Hk)).
  destruct (Obj.get o k) as [e |] eqn:E.
  - rewrite E. reflexivity.
  - rewrite get_set_same, set_set. reflexivity.
Qed.

Lemma trendData_group_by (fd : list SalesRecord) :
  (forall item, In item fd ->
     exists k,
       Trend.periodKey granularity (parseDate (Some (Order_Date item))) = Ok k) ->
  Trend.trendData granularity fd = Ok (group_by keyf (trend_update keyf) fd []).
Proof.
  unfold Trend.trendData, group_by. generalize (@nil (string * Trend.Entry)).
  induction fd as [| item fd IH]; intros o Hk; simpl.
  - reflexivity.
  - rewrite trend_accumulate_update by (apply Hk; left; reflexivity).
    cbn [bind]. apply IH. intros item' Hin. apply Hk. right. assumption.
Qed.

Lemma trend_fold_period (l : list SalesRecord) (e e' : Trend.Entry) :
  fold_left (fun acc item => Some (trend_update keyf acc item)) l (Some e)
  = Some e' ->
  Trend.period e' = Trend.period e.
Proof.
  revert e. induction l as [| item l IH]; intros e; simpl.
  - intros Heq. injection Heq as <-. reflexivity.
  - intros Heq. apply IH in Heq. rewrite Heq. reflexivity.
Qed.

Lemma trend_entry_period (fd : list SalesRecord) (k : string) (e : Trend.Entry) :
  In (k, e) (group_by keyf (trend_update keyf) fd []) -> Trend.period e = k.
Proof.
  intros Hin. apply group_by_In in Hin.
  destruct (group_of keyf k fd) as [| item g] eqn:Eg; [discriminate |].
  assert (Hk : keyf item = k).
  { apply (group_of_In keyf k fd item). rewrite Eg. left. reflexivity. }
  cbn [fold_left] in Hin. apply trend_fold_period in Hin.
  rewrite Hin. exact Hk.
Qed.

(** The trend of records whose period keys are defined, under a collation
    that orders these keys by their code units: the periods are distinct,
    each is the key of a record, and they are in ascending order. *)
Lemma trendArray_sorted (fd : list SalesRecord) :
  (forall r1 r2, In r1 fd -> In r2 fd ->
     localeCompare (keyf r1) (keyf r2) = String.compare (keyf r1) (keyf r2)) ->
  (forall item, In item fd ->
     exists k,
       Trend.periodKey granularity (parseDate (Some (Order_Date item))) = Ok k) ->
  exists out,
    Trend.trendArray granularity fd = Ok out
    /\ StronglySorted
         (fun a b => String.leb (Trend.period a) (Trend.period b) = true) out
    /\ NoDup (map Trend.period out)
    /\ (forall e, In e out ->
          exists item, In item fd /\ keyf item = Trend.period e).
Proof.
  intros Hcoll Hk. unfold Trend.trendArray.
  rewrite (trendData_group_by fd Hk). cbn [bind].
  set (o := group_by keyf (trend_update keyf) fd []).
  set (rounded :=
         map (fun item =>
                {| Trend.period := Trend.period item;
                   Trend.sales := Math_round (Trend.sales item);
                   Trend.profit := Math_round (Trend.profit item);
                   Trend.quantity := Trend.quantity item |}) (Obj.values o)).
  assert (Hperiods : map Trend.period rounded = map fst (Obj.entries o)).
  { unfold rounded, Obj.values. rewrite !map_map. simpl.
    apply map_ext_in. intros [k e] Hin.
    apply (proj1 (entries_In _ _)) in Hin. simpl.
    apply (trend_entry_period fd). exact Hin. }
  assert (Hkeys : Permutation (map Trend.period rounded)
                    (first_occurrences (map keyf fd))).
  { rewrite Hperiods.
    rewrite <- (group_by_first_occurrences keyf (trend_update keyf) fd).
    apply Permutation_map, entries_Permutation. }
  assert (Hmem : forall e, In e rounded ->
                   exists item, In item fd /\ keyf item = Trend.period e).
  { intros e He.
    assert (Hp : In (Trend.period e) (first_occurrences (map keyf fd))).
    { eapply Permutation_in; [exact Hkeys |]. apply in_map. assumption. }
    apply first_occurrences_In, in_map_iff in Hp.
    destruct Hp as (item & Hkey & Hin). exists item. auto. }
  exists (Array_sort Trend.byPeriod rounded). split; [reflexivity |].
  split; [| split].
  - rewrite (Array_sort_pointwise Trend.byPeriod
               (fun a b => num_of_comparison
                             (String.compare (Trend.period a) (Trend.period b)))).
    + apply (Array_sort_by_key Trend.period).
    + intros a b Ha Hb. unfold Trend.byPeriod.
      destruct (Hmem a Ha) as (ra & Hra & <-).
      destruct (Hmem b Hb) as (rb & Hrb & <-).
      rewrite Hcoll by assumption. reflexivity.
  - eapply Permutation_NoDup.
    + apply Permutation_sym.
      eapply perm_trans; [| exact Hkeys].
      apply Permutation_map, Array_sort_Permutation.
    + apply first_occurrences_NoDup.
  - intros e He. apply (proj1 (Array_sort_In _ _ _)) in He.
    apply Hmem, He.
Qed.

End TrendOrder.

(** ** The order of the period keys *)

(** C9, as stated, fails: the day 0999-12-31 comes before the day
    1000-01-01, yet its yearly key ["999"] and its monthly key ["999-12"] are
    above the keys ["1000"] and ["1000-01"] of the later day, the year being
    written without padding; and 9999-12-31 comes before the first day of the
    year 10000, whose daily key starts with a sign. *)
Lemma periodKey_order_counterexample :
  let d1 := (-30610310400000)%Z in
  let d2 := (-30610224000000)%Z in
  let d3 := 253402214400000%Z in
  let d4 := 253402300800000%Z in
  NodeUTC.parse "0999-12-31" = Some d1
  /\ NodeUTC.parse "1000-01-01" = Some d2
  /\ NodeUTC.parse "9999-12-31" = Some d3
  /\ d1 < d2 /\ d3 < d4
  /\ Trend.periodKey (H := NodeUTC.host) "yearly" (Some d1) = Ok "999"
  /\ Trend.periodKey (H := NodeUTC.host) "yearly" (Some d2) = Ok "1000"
  /\ String.leb "999" "1000" = false
  /\ Trend.periodKey (H := NodeUTC.host) "monthly" (Some d1) = Ok "999-12"
  /\ Trend.periodKey (H := NodeUTC.host) "monthly" (Some d2) = Ok "1000-01"
  /\ String.leb "999-12" "1000-01" = false
  /\ Trend.periodKey (H := NodeUTC.host) "daily" (Some d3) = Ok "9999-12-31"
  /\ Trend.periodKey (H := NodeUTC.host) "daily" (Some d4) = Ok "+010000-01-01"
  /\ String.leb "9999-12-31" "+010000-01-01" = false.
Proof. vm_compute. repeat split; reflexivity. Qed.

Section PeriodKeyTheorem.
Context {H : Host}.

Lemma comparable_dates_keys (granularity : string) (fd : list SalesRecord) :
  comparable_dates granularity fd ->
  forall item, In item fd ->
    exists t,
      Date_parse (Order_Date item) = Some t
      /\ Trend.periodKey granularity (Some t) = Ok (period_of granularity item).
Proof.
  intros Hdates item Hin.
  destruct (Hdates item item Hin Hin) as (t & t' & Hd & _ & Hfmt & _).
  exists t. split; [assumption |].
  unfold period_of, parseDate, new_Date. rewrite Hd.
  destruct (periodKey_Ok granularity t t' Hfmt) as (k & _ & -> & _).
  reflexivity.
Qed.

(** C9, amended. For every granularity and every two times [t1 <= t2] whose
    period keys write the year in the same way (monthly and yearly keys:
    local years that are natural numbers with the same number of digits, as
    are 1000 to 9999; daily keys: UTC years both from 0 to 9999, or both
    above), and, for the monthly and yearly keys, whose local clock readings
    are in the same order as the times: the period keys are defined and the
    key of [t1] is at most the key of [t2] in lexicographic order.  So, for
    records with such dates and a collation that orders their period keys by
    code units, the trend is returned, each entry is the period of some
    record, the periods are in strictly ascending lexicographic order, and
    every record of an earlier entry is dated before every record of a later
    entry. *)
Theorem periodKey_monotone (granularity : string) :
  (forall t1 t2 : Z,
     same_year_format granularity t1 t2 ->
     t1 <= t2 ->
     (reads_local_time granularity = true ->
      JSDate.LocalTime t1 <= JSDate.LocalTime t2) ->
     exists k1 k2,
       Trend.periodKey granularity (Some t1) = Ok k1
       /\ Trend.periodKey granularity (Some t2) = Ok k2
       /\ String.leb k1 k2 = true)
  /\ (forall fd : list SalesRecord,
        comparable_dates granularity fd ->
        (forall r1 r2, In r1 fd -> In r2 fd ->
           localeCompare (period_of granularity r1) (period_of granularity r2)
           = String.compare (period_of granularity r1)
               (period_of granularity r2)) ->
        exists out,
          Trend.trendArray granularity fd = Ok out
          /\ (forall e, In e out ->
                exists item,
                  In item fd /\ period_of granularity item = Trend.period e)
          /\ (forall i j e1 e2,
                (i < j)%nat ->
                nth_error out i = Some e1 -> nth_error out j = Some e2 ->
                String.ltb (Trend.period e1) (Trend.period e2) = true
                /\ (forall r1 r2 t1 t2,
                      In r1 fd -> In r2 fd ->
                      Date_parse (Order_Date r1) = Some t1 ->
                      Date_parse (Order_Date r2) = Some t2 ->
                      period_of granularity r1 = Trend.period e1 ->
                      period_of granularity r2 = Trend.period e2 ->
                      t1 < t2))).
Proof.
  split.
  - intros t1 t2 Hfmt Ht Hlocal.
    destruct (periodKey_Ok granularity t1 t2 Hfmt) as (k1 & k2 & Hk1 & Hk2).
    exists k1, k2. split; [assumption |]. split; [assumption |].
    exact (periodKey_leb granularity t1 t2 k1 k2 Hfmt Ht Hlocal Hk1 Hk2).
  - intros fd Hdates Hcoll.
    assert (Hk : forall item, In item fd ->
              exists k,
                Trend.periodKey granularity (parseDate (Some (Order_Date item)))
                = Ok k).
    { intros item Hin.
      destruct (comparable_dates_keys granularity fd Hdates item Hin)
        as (t & Hd & Hkey).
      unfold parseDate, new_Date. rewrite Hd. eauto. }
    destruct (trendArray_sorted granularity fd Hcoll Hk)
      as (out & Hout & Hsorted & Hnd & Hmem).
    exists out. split; [assumption |]. split; [assumption |].
    intros i j e1 e2 Hij He1 He2.
    assert (Hlt : String.ltb (Trend.period e1) (Trend.period e2) = true).
    { pose proof (StronglySorted_nth_error _ _ Hsorted i j e1 e2 Hij He1 He2)
        as Hle.
      assert (Hne : Trend.period e1 <> Trend.period e2).
      { apply (NoDup_nth_error_neq (map Trend.period out) i j); try assumption;
          apply map_nth_error; assumption. }
      unfold String.leb in Hle. unfold String.ltb.
      destruct (String.compare (Trend.period e1) (Trend.period e2)) eqn:Ec;
        try reflexivity; try discriminate.
      apply String.compare_eq_iff in Ec. contradiction. }
    split; [exact Hlt |].
    intros r1 r2 t1 t2 Hr1 Hr2 Hd1 Hd2 Hp1 Hp2.
    destruct (Z_lt_le_dec t1 t2) as [Ht | Ht]; [assumption |]. exfalso.
    destruct (Hdates r2 r1 Hr2 Hr1) as (t2' & t1' & Hd2' & Hd1' & Hfmt & Hloc).
    assert (t1' = t1) by congruence. assert (t2' = t2) by congruence.
    subst t1' t2'.
    destruct (comparable_dates_keys granularity fd Hdates r1 Hr1)
      as (t1' & Hd1'' & Hk1).
    destruct (comparable_dates_keys granularity fd Hdates r2 Hr2)
      as (t2' & Hd2'' & Hk2).
    assert (t1' = t1) by congruence. assert (t2' = t2) by congruence.
    subst t1' t2'. rewrite Hp1 in Hk1. rewrite Hp2 in Hk2.
    pose proof (periodKey_leb granularity t2 t1 _ _ Hfmt Ht
                  (fun Eg => Hloc Eg Ht) Hk2 Hk1) as Hle.
    unfold String.ltb in Hlt. unfold String.leb in Hle.
    rewrite String.compare_antisym in Hle.
    destruct (String.compare (Trend.period e1) (Trend.period e2));
      simpl in Hle; discriminate.
Qed.

End PeriodKeyTheorem.

Lemma periodKey_monotone_witness :
  (exists k1 k2,
     Trend.periodKey (H := NodeUTC.host) "monthly" (Some 1451952000000) = Ok k1
     /\ Trend.periodKey (H := NodeUTC.host) "monthly" (Some 1478563200000)
        = Ok k2
     /\ String.leb k1 k2 = true)
  /\ exists out,
       Trend.trendArray (H := NodeUTC.host) "monthly"
         [example_record "2016-11-08" "C1" "Ann" "Texas" "k" 100 1 0 10;
          example_record "2016-01-05" "C2" "Bob" "Texas" "k" 50 2 0 20]
       = Ok out
       /\ map Trend.period out = ["2016-01"; "2016-11"].
Proof.
  assert (Hd : forall t : Z,
            t = 1451952000000 \/ t = 1478563200000 ->
            has_digits 3 (JSDate.YearFromTime (JSDate.LocalTime (H := NodeUTC.host) t))).
  { assert (H2016 : has_digits 3 2016).
    { unfold has_digits. change (10 ^ Z.of_nat 4) with 10000.
      change (10 ^ Z.of_nat 3) with 1000. lia. }
    intros t [-> | ->]; exact H2016. }
  split.
  - apply (proj1 (periodKey_monotone (H := NodeUTC.host) "monthly")
             1451952000000 1478563200000).
    + exists 3%nat. split; apply Hd; auto.
    + lia.
    + intros _. vm_compute. discriminate.
  - destruct (proj2 (periodKey_monotone (H := NodeUTC.host) "monthly")
                [example_record "2016-11-08" "C1" "Ann" "Texas" "k" 100 1 0 10;
                 example_record "2016-01-05" "C2" "Bob" "Texas" "k" 50 2 0 20])
      as (out & Hout & _).
    + intros r1 r2 Hr1 Hr2.
      assert (Ht : forall r,
                In r [example_record "2016-11-08" "C1" "Ann" "Texas" "k" 100 1 0 10;
                      example_record "2016-01-05" "C2" "Bob" "Texas" "k" 50 2 0 20] ->
                exists t, Date_parse (Host := NodeUTC.host) (Order_Date r) = Some t
                          /\ (t = 1451952000000 \/ t = 1478563200000)).
      { intros r [<- | [<- | []]]; eexists; (split; [vm_compute; reflexivity |]);
          auto. }
      destruct (Ht r1 Hr1) as (t1 & Hd1 & Ht1).
      destruct (Ht r2 Hr2) as (t2 & Hd2 & Ht2).
      exists t1, t2. split; [assumption |]. split; [assumption |]. split.
      * exists 3%nat. split; apply Hd; assumption.
      * intros _ Hle. unfold JSDate.LocalTime. simpl. lia.
    + intros r1 r2 _ _. reflexivity.
    + exists out. split; [exact Hout |].
      vm_compute in Hout. injection Hout as <-. reflexivity.
Defined.

(** The local clock matters to the monthly and yearly keys: on a host whose
    clock is set back by one hour at 2016-12-31T23:30Z, the time 23:00Z reads
    as the local year 2017 and the later time 23:45Z as the local year
    2016. *)
Lemma local_clock_set_back_example :
  let t1 := 1483225200000 in
  let t2 := 1483227900000 in
  t1 < t2
  /\ JSDate.LocalTime (H := clock_set_back) t2
     < JSDate.LocalTime (H := clock_set_back) t1
  /\ Trend.periodKey (H := clock_set_back) "yearly" (Some t1) = Ok "2017"
  /\ Trend.periodKey (H := clock_set_back) "yearly" (Some t2) = Ok "2016"
  /\ String.leb "2017" "2016" = false.
Proof. vm_compute. repeat split; reflexivity. Qed.

(** * Further properties of the handlers *)

(** ** The list of states *)

Lemma sorted_strictly {A : Type} (key : A -> string) (l : list A) :
  StronglySorted (fun a b => String.leb (key a) (key b) = true) l ->
  NoDup (map key l) ->
  StronglySorted (fun a b => String.ltb (key a) (key b) = true) l.
Proof.
  induction 1 as [| x l Hs IH Hall]; intros Hnd; [constructor |].
  simpl in Hnd. inversion Hnd as [| ? ? Hnotin Hnd']; subst.
  constructor; [apply IH; assumption |].
  rewrite Forall_forall in Hall |- *. intros b Hb.
  specialize (Hall b Hb). unfold String.leb in Hall. unfold String.ltb.
  destruct (String.compare (key x) (key b)) eqn:Ec;
    try reflexivity; try discriminate.
  apply String.compare_eq_iff in Ec. exfalso. apply Hnotin.
  rewrite Ec. apply in_map. assumption.
Qed.

(** X1. The states handler returns the states of the records, each once, in
    strictly ascending order of their code units. *)
Theorem states_distinct_and_ascending (salesData : list SalesRecord) :
  StronglySorted (fun a b => String.ltb a b = true) (states salesData)
  /\ (forall s,
        In s (states salesData)
        <-> exists item, In item salesData /\ State item = s).
Proof.
  unfold states. rewrite new_Set_first_occurrences. split.
  - apply (sorted_strictly (fun s : string => s)).
    + apply (Array_sort_by_key (fun s : string => s)).
    + rewrite map_id. eapply Permutation_NoDup.
      * apply Permutation_sym, Array_sort_Permutation.
      * apply first_occurrences_NoDup.
  - intros s. rewrite Array_sort_In, first_occurrences_In, in_map_iff.
    split; intros (item & H1 & H2); exists item; auto.
Qed.

(** ** More on the filter *)

Section FilterComposition.
Context {H : Host}.

Lemma present_truthy (p : param) : ~ absent p -> truthy_param p = true.
Proof.
  intros Hp. destruct (truthy_param p) eqn:E; [reflexivity |].
  exfalso. apply Hp, truthy_param_false, E.
Qed.

(** X2. Filtering is idempotent, and filtering by state and by dates is
    filtering by state and then by dates; the customer pass can as well come
    first. *)
Theorem filterData_composition
  (data : list SalesRecord) (state fromDate toDate customerId : param) :
  filterData (filterData data state fromDate toDate) state fromDate toDate
  = filterData data state fromDate toDate
  /\ filterData (filterData data state None None) None fromDate toDate
     = filterData data state fromDate toDate
  /\ filterData (filterCustomer data customerId) state fromDate toDate
     = applyFilters data state fromDate toDate customerId.
Proof.
  unfold applyFilters, filterCustomer, filterData.
  split; [| split].
  - rewrite filter_filter. apply filter_ext. intros item.
    apply andb_diag.
  - rewrite filter_filter. apply filter_ext. intros item. simpl.
    rewrite !andb_true_r. reflexivity.
  - destruct (truthy_param customerId); [| reflexivity].
    rewrite !filter_filter. apply filter_ext. intros item. apply andb_comm.
Qed.

Lemma filterData_In (data : list SalesRecord) (state fromDate toDate : param)
  (item : SalesRecord) :
  In item (filterData data state fromDate toDate)
  <-> In item data /\ passes_state item state
      /\ passes_from item fromDate /\ passes_to item toDate.
Proof.
  unfold filterData. rewrite filter_In. cbv zeta.
  rewrite !andb_true_iff, stateMatch_spec, fromMatch_spec, toMatch_spec.
  reflexivity.
Qed.

(** X3. A record whose date does not parse is left out as soon as a bound is
    given, and kept without bounds when its state passes; a bound that is
    given and does not parse leaves no record. *)
Theorem filterData_unparseable_dates
  (data : list SalesRecord) (state fromDate toDate : param) :
  (forall item,
     Date_parse (Order_Date item) = None ->
     ~ absent fromDate \/ ~ absent toDate ->
     ~ In item (filterData data state fromDate toDate))
  /\ (forall item,
        In item data -> passes_state item state ->
        absent fromDate -> absent toDate ->
        In item (filterData data state fromDate toDate))
  /\ (~ absent fromDate -> new_Date fromDate = None ->
      filterData data state fromDate toDate = [])
  /\ (~ absent toDate -> new_Date toDate = None ->
      filterData data state fromDate toDate = []).
Proof.
  split; [| split; [| split]].
  - intros item Hd Hbound Hitem. apply filterData_In in Hitem.
    destruct Hitem as (_ & _ & Hf & Ht).
    destruct Hbound as [Hb | Hb].
    + destruct Hf as [Ha | (d & f & Hd' & _)]; [contradiction | congruence].
    + destruct Ht as [Ha | (d & t & Hd' & _)]; [contradiction | congruence].
  - intros item Hitem Hs Hf Ht. apply filterData_In.
    split; [assumption |]. split; [assumption |].
    split; left; assumption.
  - intros Hp Hnone.
    destruct (filterData data state fromDate toDate) as [| item l] eqn:E;
      [reflexivity |].
    exfalso.
    assert (Hitem : In item (filterData data state fromDate toDate))
      by (rewrite E; left; reflexivity).
    apply filterData_In in Hitem. destruct Hitem as (_ & _ & Hf & _).
    destruct Hf as [Ha | (d & f & _ & Hf & _)]; [contradiction | congruence].
  - intros Hp Hnone.
    destruct (filterData data state fromDate toDate) as [| item l] eqn:E;
      [reflexivity |].
    exfalso.
    assert (Hitem : In item (filterData data state fromDate toDate))
      by (rewrite E; left; reflexivity).
    apply filterData_In in Hitem. destruct Hitem as (_ & _ & _ & Ht).
    destruct Ht as [Ha | (d & t & _ & Ht & _)]; [contradiction | congruence].
Qed.

(** X4. With a customer id the filter keeps, among the records that pass the
    state and the dates, exactly those of that customer. *)
Theorem applyFilters_customer
  (data : list SalesRecord) (state fromDate toDate customerId : param)
  (item : SalesRecord) :
  In item (applyFilters data state fromDate toDate customerId)
  <-> In item (filterData data state fromDate toDate)
      /\ (absent customerId \/ customerId = Some (Customer_ID item)).
Proof.
  unfold applyFilters, filterCustomer.
  destruct (truthy_param customerId) eqn:E.
  - rewrite filter_In, strict_eq_true. split.
    + intros [Hin Hc]. auto.
    + intros [Hin [Ha | Hc]]; [| auto].
      apply truthy_param_false in Ha. congruence.
  - apply truthy_param_false in E. tauto.
Qed.

End FilterComposition.

Lemma filterData_unparseable_dates_witness :
  let good := example_record "2016-01-05" "C1" "Ann" "Texas" "k" 1 1 0 1 in
  let bad := example_record "not a date" "C2" "Bob" "Texas" "k" 2 1 0 1 in
  ~ In bad (filterData (H := NodeUTC.host) [good; bad]
              None (Some "2016-01-01") None)
  /\ In bad (filterData (H := NodeUTC.host) [good; bad] None None None)
  /\ filterData (H := NodeUTC.host) [good; bad] None (Some "yesterday") None = [].
Proof.
  intros good bad.
  pose proof (filterData_unparseable_dates (H := NodeUTC.host) [good; bad] None
                (Some "2016-01-01") None) as (Hout & _).
  pose proof (filterData_unparseable_dates (H := NodeUTC.host) [good; bad] None
                None None) as (_ & Hin & _).
  pose proof (filterData_unparseable_dates (H := NodeUTC.host) [good; bad] None
                (Some "yesterday") None) as (_ & _ & Hnone & _).
  split; [| split].
  - apply Hout; [reflexivity |].
    left. unfold absent. intros [E | E]; discriminate.
  - apply Hin; unfold passes_state, absent; simpl; auto.
  - apply Hnone; [| reflexivity].
    unfold absent. intros [E | E]; discriminate.
Defined.

(** ** The range of dates of a state *)

Section DateRangeProperties.
Import DateRange.

Lemma min2_of_Z (a x : Z) : min2 (of_Z a) (of_Z x) = of_Z (Z.min a x).
Proof.
  unfold min2. simpl. rewrite lt_of_Z.
  destruct (Z.ltb_spec x a); f_equal; lia.
Qed.

Lemma max2_of_Z (a x : Z) : max2 (of_Z a) (of_Z x) = of_Z (Z.max a x).
Proof.
  unfold max2, gt. simpl. rewrite lt_of_Z.
  destruct (Z.ltb_spec a x); f_equal; lia.
Qed.

Lemma fold_min2_of_Z (ts : list Z) (a : Z) :
  fold_left min2 (map of_Z ts) (of_Z a) = of_Z (fold_left Z.min ts a).
Proof.
  revert a. induction ts as [| t ts IH]; intros a; simpl; [reflexivity |].
  rewrite min2_of_Z. apply IH.
Qed.

Lemma fold_max2_of_Z (ts : list Z) (a : Z) :
  fold_left max2 (map of_Z ts) (of_Z a) = of_Z (fold_left Z.max ts a).
Proof.
  revert a. induction ts as [| t ts IH]; intros a; simpl; [reflexivity |].
  rewrite max2_of_Z. apply IH.
Qed.

Lemma fold_min_spec (ts : list Z) (a : Z) :
  In (fold_left Z.min ts a) (a :: ts)
  /\ forall t, In t (a :: ts) -> fold_left Z.min ts a <= t.
Proof.
  revert a. induction ts as [| x ts IH]; intros a; simpl.
  - split; [auto | intros t [<- | []]; lia].
  - destruct (IH (Z.min a x)) as [Hin Hle]. split.
    + destruct Hin as [E | Hin]; [| auto]. rewrite <- E.
      destruct (Z.min_spec a x) as [[_ ->] | [_ ->]]; auto.
    + intros t [<- | [<- | Ht]].
      * specialize (Hle (Z.min a x) (or_introl eq_refl)). lia.
      * specialize (Hle (Z.min a x) (or_introl eq_refl)). lia.
      * apply Hle. right. assumption.
Qed.

Lemma fold_max_spec (ts : list Z) (a : Z) :
  In (fold_left Z.max ts a) (a :: ts)
  /\ forall t, In t (a :: ts) -> t <= fold_left Z.max ts a.
Proof.
  revert a. induction ts as [| x ts IH]; intros a; simpl.
  - split; [auto | intros t [<- | []]; lia].
  - destruct (IH (Z.max a x)) as [Hin Hle]. split.
    + destruct Hin as [E | Hin]; [| auto]. rewrite <- E.
      destruct (Z.max_spec a x) as [[_ ->] | [_ ->]]; auto.
    + intros t [<- | [<- | Ht]].
      * specialize (Hle (Z.max a x) (or_introl eq_refl)). lia.
      * specialize (Hle (Z.max a x) (or_introl eq_refl)). lia.
      * apply Hle. right. assumption.
Qed.

Lemma Math_min_of_Z (t : Z) (ts : list Z) :
  Math_min (map of_Z (t :: ts)) = of_Z (fold_left Z.min ts t).
Proof. unfold Math_min. simpl. apply fold_min2_of_Z. Qed.

Lemma Math_max_of_Z (t : Z) (ts : list Z) :
  Math_max (map of_Z (t :: ts)) = of_Z (fold_left Z.max ts t).
Proof. unfold Math_max. simpl. apply fold_max2_of_Z. Qed.

Lemma fold_min2_NaN (l : list num) : fold_left min2 l NaN = NaN.
Proof. induction l as [| x l IH]; simpl; [reflexivity | exact IH]. Qed.

Lemma fold_max2_NaN (l : list num) : fold_left max2 l NaN = NaN.
Proof. induction l as [| x l IH]; simpl; [reflexivity | exact IH]. Qed.

Lemma min2_NaN_r (a : num) : min2 a NaN = NaN.
Proof. unfold min2. simpl. rewrite orb_true_r. reflexivity. Qed.

Lemma max2_NaN_r (a : num) : max2 a NaN = NaN.
Proof. unfold max2. simpl. rewrite orb_true_r. reflexivity. Qed.

(** One [NaN] among the values makes the minimum [NaN]. *)
Lemma Math_min_NaN (l : list num) : In NaN l -> Math_min l = NaN.
Proof.
  unfold Math_min. generalize PInf.
  induction l as [| x l IH]; intros acc Hin; [destruct Hin |]. simpl.
  destruct Hin as [-> | Hin].
  - rewrite min2_NaN_r. apply fold_min2_NaN.
  - apply IH. assumption.
Qed.

Lemma Date_of_number_of_Z (t : Z) :
  valid_time t -> Date_of_number (of_Z t) = Some t.
Proof.
  unfold valid_time, Date_of_number, of_Z. intros Ht.
  assert (Habs : Qle_bool (Qabs (inject_Z t)) (inject_Z maxTime) = true).
  { apply Qle_bool_iff. unfold Qabs, inject_Z, Qle, maxTime in *.
    cbn [Qnum Qden]. lia. }
  rewrite Habs. f_equal. unfold truncate.
  destruct (Qle_bool 0 (inject_Z t)); [apply Qfloor_Z | apply Qceiling_Z].
Qed.

End DateRangeProperties.

Lemma iso_day_fixed (t : Z) :
  0 <= JSDate.YearFromTime t <= 9999 ->
  iso_day t
  = (fixed 4 (JSDate.YearFromTime t) ++ "-"
     ++ fixed 2 (JSDate.MonthFromTime t + 1) ++ "-"
     ++ fixed 2 (JSDate.DateFromTime t))%string.
Proof.
  intros Hy. apply Ok_inj.
  rewrite <- (periodKey_daily (H := NodeUTC.host) "daily" t)
    by (discriminate || assumption).
  reflexivity.
Qed.

(** Within the years 0 to 9999 a later time has a day that is not below as a
    string. *)
Lemma iso_day_leb (t1 t2 : Z) :
  0 <= JSDate.YearFromTime t1 -> JSDate.YearFromTime t2 <= 9999 -> t1 <= t2 ->
  String.leb (iso_day t1) (iso_day t2) = true.
Proof.
  intros H1 H2 Ht.
  pose proof (YearFromTime_monotone t1 t2 Ht) as Hy.
  rewrite !iso_day_fixed by lia.
  pose proof (fields_monotone t1 t2 Ht) as Hle. unfold civil_le in Hle.
  destruct (civil_fields t1) as (_ & Hm1 & Hd1).
  destruct (civil_fields t2) as (_ & Hm2 & Hd2).
  apply leb_compare.
  rewrite fixed_compare by (change (10 ^ Z.of_nat 4) with 10000; lia).
  destruct (Z.compare_spec (JSDate.YearFromTime t1) (JSDate.YearFromTime t2))
    as [Ey | Ly | Gy]; [| discriminate | lia].
  cbn [append]. rewrite compare_cons_same.
  rewrite fixed_compare by (change (10 ^ Z.of_nat 2) with 100; lia).
  destruct (Z.compare_spec (JSDate.MonthFromTime t1 + 1)
              (JSDate.MonthFromTime t2 + 1)) as [Em | Lm | Gm];
    [| discriminate | lia].
  rewrite compare_cons_same.
  rewrite fixed_compare_nil by (change (10 ^ Z.of_nat 2) with 100; lia).
  intros Hgt. apply Z.compare_gt_iff in Hgt. lia.
Qed.

Section DateRangeHandler.
Context {H : Host}.
Import DateRange.

Lemma parsed_times (recs : list SalesRecord) :
  (forall item, In item recs ->
     exists t, Date_parse (Order_Date item) = Some t /\ valid_time t) ->
  exists ts,
    map (fun item => parseDate (Some (Order_Date item))) recs = map Some ts
    /\ (forall t, In t ts ->
          valid_time t
          /\ exists item, In item recs /\ Date_parse (Order_Date item) = Some t)
    /\ (forall item t, In item recs ->
          Date_parse (Order_Date item) = Some t -> In t ts).
Proof.
  induction recs as [| r recs IH]; intros Hall.
  - exists []. split; [reflexivity |]. split; [intros t [] | intros item t []].
  - destruct (Hall r (or_introl eq_refl)) as (t0 & Hd0 & Hv0).
    destruct IH as (ts & Hmap & Hts & Hin).
    { intros item Hitem. apply Hall. right. assumption. }
    exists (t0 :: ts). split; [| split].
    + cbn [map]. rewrite Hmap. unfold parseDate, new_Date. rewrite Hd0.
      reflexivity.
    + intros t [<- | Ht].
      * split; [assumption |]. exists r. split; [left; reflexivity | assumption].
      * destruct (Hts t Ht) as (Hv & item & Hitem & Hd).
        split; [assumption |]. exists item. split; [right |]; assumption.
    + intros item t [<- | Hitem] Hd.
      * left. congruence.
      * right. eapply Hin; eassumption.
Qed.

Lemma date_range_stateData (salesData : list SalesRecord) (state : string) :
  date_range salesData state
  = let stateData := records_of_state state salesData in
    if (List.length stateData =? 0)%nat then NotFound
    else
      let dates :=
        map (fun item => parseDate (Some (Order_Date item))) stateData in
      match
        (minISO <- JSDate.toISOString
                     (Date_of_number (Math_min (map valueOf dates))) ;;
         maxISO <- JSDate.toISOString
                     (Date_of_number (Math_max (map valueOf dates))) ;;
         Ok {| minDate := JSDate.split_T_0 minISO;
               maxDate := JSDate.split_T_0 maxISO |})
      with
      | Ok data => Success data
      | Throw error => ServerError error
      end.
Proof. reflexivity. Qed.

(** X5. The handler answers 404 exactly when no record has the state. *)
Theorem date_range_not_found_iff (salesData : list SalesRecord) (state : string) :
  date_range salesData state = NotFound
  <-> forall item, In item salesData -> State item <> state.
Proof.
  rewrite date_range_stateData. cbv zeta.
  destruct (records_of_state state salesData) as [| r recs] eqn:E.
  - split; [| reflexivity]. intros _ item Hin Hs.
    assert (Hr : In item (records_of_state state salesData)).
    { unfold records_of_state. apply filter_In. split; [assumption |].
      apply String.eqb_eq. assumption. }
    rewrite E in Hr. destruct Hr.
  - cbn [List.length Nat.eqb]. split.
    + intros Hnf.
      destruct (_ <- _ ;; _) in Hnf; discriminate.
    + intros Hno. exfalso.
      assert (Hr : In r (records_of_state state salesData))
        by (rewrite E; left; reflexivity).
      unfold records_of_state in Hr. apply filter_In in Hr.
      destruct Hr as [Hin Hs]. apply String.eqb_eq in Hs.
      exact (Hno r Hin Hs).
Qed.

(** X6. When the state has records and all their dates are valid, the handler
    returns the day of the earliest of these dates and the day of the latest,
    as [toISOString().split("T")[0]] writes them; within the years 0 to 9999
    the first is at most the second as a string. *)
Theorem date_range_of_valid_dates (salesData : list SalesRecord) (state : string) :
  records_of_state state salesData <> [] ->
  (forall item, In item (records_of_state state salesData) ->
     exists t, Date_parse (Order_Date item) = Some t /\ valid_time t) ->
  exists tmin tmax,
    (exists item, In item (records_of_state state salesData)
                  /\ Date_parse (Order_Date item) = Some tmin)
    /\ (exists item, In item (records_of_state state salesData)
                     /\ Date_parse (Order_Date item) = Some tmax)
    /\ (forall item t,
          In item (records_of_state state salesData) ->
          Date_parse (Order_Date item) = Some t -> tmin <= t <= tmax)
    /\ date_range salesData state
       = Success {| minDate := iso_day tmin; maxDate := iso_day tmax |}
    /\ (0 <= JSDate.YearFromTime tmin -> JSDate.YearFromTime tmax <= 9999 ->
        String.leb (iso_day tmin) (iso_day tmax) = true).
Proof.
  intros Hne Hall. rewrite date_range_stateData. cbv zeta.
  destruct (parsed_times _ Hall) as (ts & Hmap & Hts & Hin).
  rewrite Hmap.
  destruct (records_of_state state salesData) as [| r recs] eqn:E;
    [congruence |].
  destruct ts as [| t0 ts]; [discriminate |].
  cbn [List.length Nat.eqb]. rewrite map_map.
  change (map (fun x => valueOf (Some x)) (t0 :: ts)) with (map of_Z (t0 :: ts)).
  rewrite Math_min_of_Z, Math_max_of_Z.
  destruct (fold_min_spec ts t0) as [Hmin_in Hmin_le].
  destruct (fold_max_spec ts t0) as [Hmax_in Hmax_le].
  set (tmin := fold_left Z.min ts t0) in *.
  set (tmax := fold_left Z.max ts t0) in *.
  destruct (Hts tmin Hmin_in) as (Hvmin & Hitem_min).
  destruct (Hts tmax Hmax_in) as (Hvmax & Hitem_max).
  exists tmin, tmax.
  split; [assumption |]. split; [assumption |]. split; [| split].
  - intros item t Hitem Hd. specialize (Hin item t Hitem Hd).
    split; [apply Hmin_le | apply Hmax_le]; assumption.
  - rewrite !Date_of_number_of_Z by assumption. reflexivity.
  - intros H0 H9. apply iso_day_leb; try assumption.
    apply Hmax_le. assumption.
Qed.

(** X7. When a record of the state has a date that does not parse, the
    handler answers 500: the minimum of the time values is [NaN], and
    [toISOString] throws a [RangeError] on the invalid date made of it. *)
Theorem date_range_of_invalid_date (salesData : list SalesRecord) (state : string)
  (item : SalesRecord) :
  In item salesData -> State item = state ->
  Date_parse (Order_Date item) = None ->
  date_range salesData state = ServerError "RangeError: Invalid time value".
Proof.
  intros Hin Hs Hd. rewrite date_range_stateData. cbv zeta.
  assert (Hr : In item (records_of_state state salesData)).
  { unfold records_of_state. apply filter_In. split; [assumption |].
    apply String.eqb_eq. assumption. }
  destruct (records_of_state state salesData) as [| r recs] eqn:E;
    [destruct Hr |].
  cbn [List.length Nat.eqb].
  rewrite Math_min_NaN; [reflexivity |].
  rewrite map_map. apply in_map_iff. exists item. split; [| assumption].
  unfold parseDate, new_Date. rewrite Hd. reflexivity.
Qed.

End DateRangeHandler.

Lemma date_range_of_valid_dates_witness :
  DateRange.date_range (H := NodeUTC.host)
    [example_record "2016-06-15" "C1" "Ann" "X" "k" 1 1 0 1;
     example_record "2016-03-01" "C2" "Bob" "Y" "k" 1 1 0 1;
     example_record "2016-01-01" "C3" "Cid" "X" "k" 1 1 0 1] "X"
  = DateRange.Success
      {| DateRange.minDate := "2016-01-01"; DateRange.maxDate := "2016-06-15" |}.
Proof.
  destruct (date_range_of_valid_dates (H := NodeUTC.host)
              [example_record "2016-06-15" "C1" "Ann" "X" "k" 1 1 0 1;
               example_record "2016-03-01" "C2" "Bob" "Y" "k" 1 1 0 1;
               example_record "2016-01-01" "C3" "Cid" "X" "k" 1 1 0 1] "X")
    as (tmin & tmax & _ & _ & _ & Hr & _).
  - vm_compute. discriminate.
  - intros item Hitem. vm_compute in Hitem.
    destruct Hitem as [<- | [<- | []]]; eexists;
      (split; [vm_compute; reflexivity | vm_compute; discriminate]).
  - vm_compute. reflexivity.
Defined.

Lemma date_range_of_invalid_date_witness :
  DateRange.date_range (H := NodeUTC.host)
    [example_record "2016-06-15" "C1" "Ann" "X" "k" 1 1 0 1;
     example_record "15/06/2016" "C2" "Bob" "X" "k" 1 1 0 1] "X"
  = DateRange.ServerError "RangeError: Invalid time value".
Proof.
  apply (date_range_of_invalid_date (H := NodeUTC.host) _ "X"
           (example_record "15/06/2016" "C2" "Bob" "X" "k" 1 1 0 1)).
  - right. left. reflexivity.
  - reflexivity.
  - reflexivity.
Defined.

(** ** The charts of the dashboard *)

Lemma NoDup_firstn {A : Type} (n : nat) (l : list A) :
  NoDup l -> NoDup (firstn n l).
Proof.
  intros Hnd. rewrite <- (firstn_skipn n l) in Hnd.
  apply NoDup_app_remove_r in Hnd. assumption.
Qed.

Lemma rounded_group_totals (key : SalesRecord -> string) (fd : list SalesRecord) :
  Forall (fun item => is_finite (Sales item)) fd -> own_keys key fd ->
  group_totals key fd (Dashboard.rounded (Dashboard.salesBy key fd)).
Proof.
  intros Hfd Hown. split.
  - eapply Permutation_NoDup.
    + apply Permutation_sym, breakdown_labels_Permutation, Hown.
    + apply first_occurrences_NoDup.
  - intros e He. unfold Dashboard.rounded in He. apply in_map_iff in He.
    destruct He as ([k v] & <- & Hin).
    apply (proj1 (entries_In _ _)) in Hin.
    destruct (salesBy_In key fd k v Hfd Hown Hin) as [Hv Hitem].
    cbn [Dashboard.label Dashboard.sales fst snd]. rewrite Hv. auto.
Qed.

Lemma top10_group_totals (key : SalesRecord -> string) (fd : list SalesRecord) :
  Forall (fun item => is_finite (Sales item)) fd -> own_keys key fd ->
  group_totals key fd
    (Dashboard.top10 (Dashboard.rounded (Dashboard.salesBy key fd))).
Proof.
  intros Hfd Hown. destruct (rounded_group_totals key fd Hfd Hown) as [Hnd Hall].
  unfold Dashboard.top10, slice0. split.
  - rewrite <- firstn_map. apply NoDup_firstn.
    eapply Permutation_NoDup; [| exact Hnd].
    apply Permutation_map, Permutation_sym, Array_sort_Permutation.
  - intros e He. apply Hall. apply firstn_In_inv in He.
    apply (Array_sort_In Dashboard.bySalesDesc). assumption.
Qed.

(** X8. For records with finite sales, each entry of a chart whose keys name
    no member inherited from [Object.prototype] stands for a key that occurs
    in the filtered records, no key has two entries, and the sales of the
    entry are the rounded sum of the sales of the records of that key, added
    in binary64 in the order of the records. *)
Theorem charts_are_group_totals (fd : list SalesRecord) :
  Forall (fun item => is_finite (Sales item)) fd ->
  (own_keys City fd -> group_totals City fd (Dashboard.salesByCityArray fd))
  /\ (own_keys Product_Name fd ->
      group_totals Product_Name fd (Dashboard.salesByProductArray fd))
  /\ (own_keys Category fd ->
      group_totals Category fd (Dashboard.salesByCategoryArray fd))
  /\ (own_keys Sub_Category fd ->
      group_totals Sub_Category fd (Dashboard.salesBySubCategoryArray fd))
  /\ (own_keys Segment fd ->
      group_totals Segment fd (Dashboard.salesBySegmentArray fd)).
Proof.
  intros Hfd.
  split; [apply top10_group_totals, Hfd |].
  split; [apply top10_group_totals, Hfd |].
  split; [apply rounded_group_totals, Hfd |].
  split; [apply top10_group_totals, Hfd | apply rounded_group_totals, Hfd].
Qed.

(** The theorem on twelve cities; and on three sales of 0.15, 0.3 and 0.05 in
    one city, whose sum in binary64 is 0.49999999999999994: the chart shows
    0. *)
Lemma charts_are_group_totals_witness :
  group_totals City twelve_cities (Dashboard.salesByCityArray twelve_cities)
  /\ Dashboard.salesByCityArray
       [example_record "2016-01-05" "C1" "Ann" "Texas" "Austin" 0.15 1 0 0;
        example_record "2016-01-06" "C1" "Ann" "Texas" "Austin" 0.3 1 0 0;
        example_record "2016-01-07" "C1" "Ann" "Texas" "Austin" 0.05 1 0 0]
     = [{| Dashboard.label := "Austin"; Dashboard.sales := Fin 0 |}].
Proof.
  split; [| vm_compute; reflexivity].
  apply (charts_are_group_totals twelve_cities).
  - apply finite_forallb. vm_compute. reflexivity.
  - apply own_keys_forallb. vm_compute. reflexivity.
Defined.

Lemma StronglySorted_app_inv {A : Type} (R : A -> A -> Prop) (l1 l2 : list A) :
  StronglySorted R (l1 ++ l2) ->
  forall a b, In a l1 -> In b l2 -> R a b.
Proof.
  induction l1 as [| x l1 IH]; intros Hs a b Ha Hb; [destruct Ha |].
  simpl in Hs. apply StronglySorted_inv in Hs. destruct Hs as [Hs Hall].
  destruct Ha as [<- | Ha].
  - rewrite Forall_forall in Hall. apply Hall, in_or_app. right. assumption.
  - apply IH; assumption.
Qed.

Lemma slice_sort_largest {A : Type} (m : A -> num) (n : nat) (l : list A) :
  Forall (fun a => integral (m a)) l ->
  largest_of m l (slice0 n (Array_sort (fun a b => (m b - m a)%num) l)).
Proof.
  intros Hl. unfold largest_of, slice0.
  set (sorted := Array_sort (fun a b => (m b - m a)%num) l).
  exists (skipn n sorted). split.
  - rewrite firstn_skipn. apply Array_sort_Permutation.
  - apply (StronglySorted_app_inv (fun a b => ge (m a) (m b) = true)).
    rewrite firstn_skipn. apply (Array_sort_sorted m l Hl).
Qed.

(** X9. For records with finite sales whose keys name no inherited member,
    the ten entries of a top-10 output are the largest: every group that is
    left out has sales at most those of every entry that is kept. *)
Theorem top10_keeps_the_largest (fd : list SalesRecord) :
  Forall (fun item => is_finite (Sales item)) fd ->
  (own_keys City fd ->
   largest_of Dashboard.sales
     (Dashboard.rounded (Dashboard.salesBy City fd))
     (Dashboard.salesByCityArray fd))
  /\ (own_keys Product_Name fd ->
      largest_of Dashboard.sales
        (Dashboard.rounded (Dashboard.salesBy Product_Name fd))
        (Dashboard.salesByProductArray fd))
  /\ (own_keys Sub_Category fd ->
      largest_of Dashboard.sales
        (Dashboard.rounded (Dashboard.salesBy Sub_Category fd))
        (Dashboard.salesBySubCategoryArray fd))
  /\ largest_of (fun e => Analytics.totalSales (Analytics.fields e))
       (Analytics.productEntries fd) (Analytics.topProductsOf fd).
Proof.
  intros Hfd.
  split; [intros Hown;
          exact (slice_sort_largest Dashboard.sales 10 _
                   (rounded_integral City fd Hfd Hown)) |].
  split; [intros Hown;
          exact (slice_sort_largest Dashboard.sales 10 _
                   (rounded_integral Product_Name fd Hfd Hown)) |].
  split; [intros Hown;
          exact (slice_sort_largest Dashboard.sales 10 _
                   (rounded_integral Sub_Category fd Hfd Hown)) |].
  exact (slice_sort_largest
           (fun e => Analytics.totalSales (Analytics.fields e)) 10 _
           (productEntries_integral fd Hfd)).
Qed.

Lemma top10_keeps_the_largest_witness :
  largest_of Dashboard.sales
    (Dashboard.rounded (Dashboard.salesBy City twelve_cities))
    (Dashboard.salesByCityArray twelve_cities).
Proof.
  apply (top10_keeps_the_largest twelve_cities).
  - apply finite_forallb. vm_compute. reflexivity.
  - apply own_keys_forallb. vm_compute. reflexivity.
Defined.

(** ** A selection without records *)

(** X10. When the filters match no record, the dashboard shows cards that
    are all 0 and charts that are all empty, and the trend is the empty
    list, whatever the period. *)
Theorem empty_selection_gives_zero_cards_and_empty_series {H : Host}
  (salesData : list SalesRecord)
  (state fromDate toDate customerId period : param) :
  applyFilters salesData state fromDate toDate customerId = [] ->
  Dashboard.dashboard_data salesData state fromDate toDate customerId
  = {| Dashboard.cards :=
         {| Dashboard.totalSales := Fin 0; Dashboard.quantitySold := Fin 0;
            Dashboard.discountPercentage := Fin 0; Dashboard.profit := Fin 0 |};
       Dashboard.charts :=
         {| Dashboard.salesByCity := []; Dashboard.salesByProducts := [];
            Dashboard.salesByCategory := []; Dashboard.salesBySubCategory := [];
            Dashboard.salesBySegment := [] |} |}
  /\ Trend.sales_trend salesData state fromDate toDate customerId period = Ok [].
Proof.
  intros Hempty. unfold Dashboard.dashboard_data, Trend.sales_trend.
  rewrite Hempty. split; vm_compute; reflexivity.
Qed.

Lemma empty_selection_gives_zero_cards_and_empty_series_witness :
  Trend.sales_trend (H := NodeUTC.host)
    [example_record "2016-01-05" "C1" "Ann" "Texas" "k" 100 1 0 10]
    (Some "Ohio") None None None (Some "daily") = Ok [].
Proof.
  apply (empty_selection_gives_zero_cards_and_empty_series (H := NodeUTC.host)).
  vm_compute. reflexivity.
Defined.

(** ** The customer directory, sorted *)

Section SortByComparison.
Context {A : Type}.
Variable cmp : A -> A -> comparison.
Hypothesis cmp_antisym : forall a b, cmp b a = CompOpp (cmp a b).
Hypothesis cmp_trans :
  forall a b c, cmp a b <> Gt -> cmp b c <> Gt -> cmp a c <> Gt.

Lemma sort_insert_by_comparison (x : A) (l : list A) :
  StronglySorted (fun a b => cmp a b <> Gt) l ->
  StronglySorted (fun a b => cmp a b <> Gt)
    (sort_insert (fun a b => num_of_comparison (cmp a b)) x l).
Proof.
  induction l as [| y l IH]; intros Hs; simpl.
  - repeat constructor.
  - apply StronglySorted_inv in Hs. destruct Hs as [Hs Hall].
    destruct (gt (num_of_comparison (cmp x y)) zero) eqn:E.
    + apply gt_num_of_comparison in E. constructor.
      * apply IH. assumption.
      * eapply Permutation_Forall.
        { apply Permutation_sym, sort_insert_Permutation. }
        constructor; [| assumption].
        rewrite cmp_antisym, E. discriminate.
    + assert (Hxy : cmp x y <> Gt).
      { intros Hgt. apply gt_num_of_comparison in Hgt. congruence. }
      constructor; [constructor; assumption |].
      constructor; [assumption |].
      rewrite Forall_forall in Hall |- *. intros z Hz.
      eapply cmp_trans; [exact Hxy | apply Hall, Hz].
Qed.

Lemma Array_sort_by_comparison (l : list A) :
  StronglySorted (fun a b => cmp a b <> Gt)
    (Array_sort (fun a b => num_of_comparison (cmp a b)) l).
Proof.
  induction l as [| x l IH]; simpl.
  - constructor.
  - apply sort_insert_by_comparison, IH.
Qed.

End SortByComparison.

Lemma StronglySorted_map {A B : Type} (f : A -> B) (R : B -> B -> Prop)
  (l : list A) :
  StronglySorted (fun a b => R (f a) (f b)) l -> StronglySorted R (map f l).
Proof.
  induction 1 as [| x l Hs IH Hall]; simpl; constructor.
  - assumption.
  - apply Forall_map. assumption.
Qed.

(** X11. The customer directory has one entry for each record, with the id
    and the name of the record; when the collation of the host is a total
    preorder, the entries are in ascending order of their names, no entry
    being above a later one. *)
Theorem customers_one_entry_per_record_in_order {H : Host}
  (salesData : list SalesRecord) :
  Permutation (Customers.customers salesData) (map customer_of salesData)
  /\ ((forall a b, localeCompare b a = CompOpp (localeCompare a b)) ->
      (forall a b c, localeCompare a b <> Gt -> localeCompare b c <> Gt ->
                     localeCompare a c <> Gt) ->
      StronglySorted
        (fun a b => localeCompare (Customers.name a) (Customers.name b) <> Gt)
        (Customers.customers salesData)).
Proof.
  split; [apply customers_Permutation |].
  intros Hanti Htrans. unfold Customers.customers.
  destruct (Customers.map_alloc [] salesData) as [h objects].
  apply (StronglySorted_map (Customers.deref h)
           (fun a b => localeCompare (Customers.name a) (Customers.name b) <> Gt)).
  apply (Array_sort_by_comparison
           (fun a b => localeCompare (Customers.name (Customers.deref h a))
                         (Customers.name (Customers.deref h b)))).
  - intros a b. apply Hanti.
  - intros a b c. apply Htrans.
Qed.

Lemma compare_not_Gt_trans (a b c : string) :
  String.compare a b <> Gt -> String.compare b c <> Gt ->
  String.compare a c <> Gt.
Proof.
  intros Hab Hbc.
  assert (H1 : String.leb a b = true) by (apply leb_compare; assumption).
  assert (H2 : String.leb b c = true) by (apply leb_compare; assumption).
  pose proof (leb_trans a b c H1 H2) as H3. unfold String.leb in H3.
  destruct (String.compare a c); congruence.
Qed.

Lemma customers_one_entry_per_record_in_order_witness :
  StronglySorted
    (fun a b => String.compare (Customers.name a) (Customers.name b) <> Gt)
    (Customers.customers (H := NodeUTC.host)
       [example_record "2016-01-05" "C2" "Bob" "Texas" "k" 1 1 0 1;
        example_record "2016-01-06" "C1" "Ann" "Texas" "k" 1 1 0 1;
        example_record "2016-01-07" "C2" "Bob" "Texas" "k" 1 1 0 1]).
Proof.
  apply (proj2 (customers_one_entry_per_record_in_order (H := NodeUTC.host) _)).
  - intros a b. apply String.compare_antisym.
  - intros a b c. apply compare_not_Gt_trans.
Defined.

(** ** The trend: exceptions and totals *)

Section TrendTotals.
Context {H : Host}.

Lemma periodKey_special_Ok (granularity : string) (date : Date) :
  granularity = "monthly" \/ granularity = "yearly" ->
  exists k, Trend.periodKey granularity date = Ok k.
Proof.
  intros [-> | ->]; unfold Trend.periodKey; cbn [String.eqb Ascii.eqb Bool.eqb];
    eauto.
Qed.

(** X12. With the period ["monthly"] (also the default) or ["yearly"] the
    trend handler never throws: a record whose date does not parse is counted
    under the period ["NaN-NaN"], respectively ["NaN"]. *)
Theorem trend_by_month_or_year_never_throws
  (salesData : list SalesRecord) (state fromDate toDate customerId period : param) :
  period = None \/ period = Some "monthly" \/ period = Some "yearly" ->
  (exists out,
     Trend.sales_trend salesData state fromDate toDate customerId period = Ok out)
  /\ (forall item,
        Date_parse (Order_Date item) = None ->
        period_of "monthly" item = "NaN-NaN" /\ period_of "yearly" item = "NaN").
Proof.
  intros Hp. split.
  - unfold Trend.sales_trend.
    set (g := match period with Some p => p | None => "monthly" end).
    assert (Hg : g = "monthly" \/ g = "yearly").
    { subst g. destruct Hp as [-> | [-> | ->]]; auto. }
    set (fd := applyFilters salesData state fromDate toDate customerId).
    unfold Trend.trendArray. rewrite (trendData_group_by g fd).
    + cbn [bind]. eauto.
    + intros item _. apply periodKey_special_Ok, Hg.
  - intros item Hd. unfold period_of, parseDate, new_Date. rewrite Hd.
    split; reflexivity.
Qed.

Lemma forEach_throws (granularity : string) (fd : list SalesRecord) :
  granularity <> "monthly" -> granularity <> "yearly" ->
  (exists item, In item fd /\ Date_parse (Order_Date item) = None) ->
  forall o,
    forEach (Trend.accumulate granularity) fd o
    = Throw "RangeError: Invalid time value".
Proof.
  intros Hm Hy. induction fd as [| r fd IH]; intros (item & Hin & Hd) o.
  - destruct Hin.
  - cbn [forEach].
    destruct (Date_parse (Order_Date r)) as [t |] eqn:Er.
    + rewrite trend_accumulate_update.
      * cbn [bind]. apply IH. exists item. split; [| assumption].
        destruct Hin as [-> | Hin]; [congruence | assumption].
      * rewrite periodKey_fallback by assumption.
        unfold parseDate, new_Date. rewrite Er. cbn. eauto.
    + unfold Trend.accumulate. rewrite periodKey_fallback by assumption.
      unfold parseDate, new_Date. rewrite Er. reflexivity.
Qed.

(** X13. With any other period, ["daily"] among them, one filtered record
    whose date does not parse makes the handler fail: [toISOString] throws a
    [RangeError], and no trend is returned. *)
Theorem trend_by_day_throws_on_unparseable_date
  (salesData : list SalesRecord) (state fromDate toDate customerId : param)
  (period : string) (item : SalesRecord) :
  period <> "monthly" -> period <> "yearly" ->
  In item (applyFilters salesData state fromDate toDate customerId) ->
  Date_parse (Order_Date item) = None ->
  Trend.sales_trend salesData state fromDate toDate customerId (Some period)
  = Throw "RangeError: Invalid time value".
Proof.
  intros Hm Hy Hin Hd. unfold Trend.sales_trend, Trend.trendArray, Trend.trendData.
  rewrite forEach_throws; [reflexivity | assumption | assumption |].
  exists item. auto.
Qed.

Lemma trend_fold (keyf : SalesRecord -> string) (l : list SalesRecord)
  (e : Trend.Entry) :
  fold_left (fun acc item => Some (trend_update keyf acc item)) l (Some e)
  = Some
      {| Trend.period := Trend.period e;
         Trend.sales :=
           fold_left (fun sum item => (sum + Sales item)%num) l (Trend.sales e);
         Trend.profit :=
           fold_left (fun sum item => (sum + Profit item)%num) l (Trend.profit e);
         Trend.quantity :=
           fold_left (fun sum item => (sum + Quantity item)%num) l
             (Trend.quantity e) |}.
Proof.
  revert e. induction l as [| item l IH]; intros e; simpl.
  - destruct e; reflexivity.
  - rewrite IH. reflexivity.
Qed.

Lemma trend_entry_totals (keyf : SalesRecord -> string) (fd : list SalesRecord)
  (k : string) (e : Trend.Entry) :
  In (k, e) (group_by keyf (trend_update keyf) fd []) ->
  group_of keyf k fd <> []
  /\ e = {| Trend.period := k;
            Trend.sales := reduce_sum Sales (group_of keyf k fd);
            Trend.profit := reduce_sum Profit (group_of keyf k fd);
            Trend.quantity := reduce_sum Quantity (group_of keyf k fd) |}.
Proof.
  intros Hin. apply group_by_In in Hin.
  destruct (group_of keyf k fd) as [| item g] eqn:Eg; [discriminate |].
  assert (Hk : keyf item = k).
  { apply (group_of_In keyf k fd item). rewrite Eg. left. reflexivity. }
  split; [discriminate |].
  cbn [fold_left] in Hin. rewrite trend_fold in Hin.
  injection Hin as <-. unfold reduce_sum. cbn. rewrite Hk. reflexivity.
Qed.

(** X14. When the period key of every filtered record is defined, each entry
    of the trend is the total of the records of its period, of which there is
    one at least: sales and profit are rounded sums, the quantity is the sum
    as it is. *)
Theorem trend_entries_are_period_totals
  (granularity : string) (fd : list SalesRecord) :
  (forall item, In item fd ->
     exists k,
       Trend.periodKey granularity (parseDate (Some (Order_Date item))) = Ok k) ->
  exists out,
    Trend.trendArray granularity fd = Ok out
    /\ forall e, In e out ->
         let group := group_of (period_of granularity) (Trend.period e) fd in
         group <> []
         /\ Trend.sales e = Math_round (reduce_sum Sales group)
         /\ Trend.profit e = Math_round (reduce_sum Profit group)
         /\ Trend.quantity e = reduce_sum Quantity group.
Proof.
  intros Hk. unfold Trend.trendArray.
  rewrite (trendData_group_by granularity fd Hk). cbn [bind].
  eexists. split; [reflexivity |].
  intros e He. apply (proj1 (Array_sort_In _ _ _)) in He.
  unfold Obj.values in He. rewrite map_map in He. apply in_map_iff in He.
  destruct He as ([k acc] & <- & Hin).
  apply (proj1 (entries_In _ _)) in Hin.
  apply trend_entry_totals in Hin. destruct Hin as [Hne ->].
  cbn. auto.
Qed.

End TrendTotals.

Lemma trend_by_month_or_year_never_throws_witness :
  exists out,
    Trend.sales_trend (H := NodeUTC.host)
      [example_record "2016-01-05" "C1" "Ann" "Texas" "k" 100 1 0 10;
       example_record "not a date" "C2" "Bob" "Texas" "k" 50 2 0 20]
      None None None None None = Ok out.
Proof.
  apply (trend_by_month_or_year_never_throws (H := NodeUTC.host)).
  left. reflexivity.
Defined.

Lemma trend_by_day_throws_on_unparseable_date_witness :
  Trend.sales_trend (H := NodeUTC.host)
    [example_record "2016-01-05" "C1" "Ann" "Texas" "k" 100 1 0 10;
     example_record "not a date" "C2" "Bob" "Texas" "k" 50 2 0 20]
    None None None None (Some "daily")
  = Throw "RangeError: Invalid time value".
Proof.
  apply (trend_by_day_throws_on_unparseable_date (H := NodeUTC.host) _
           None None None None "daily"
           (example_record "not a date" "C2" "Bob" "Texas" "k" 50 2 0 20)).
  - discriminate.
  - discriminate.
  - vm_compute. right. left. reflexivity.
  - reflexivity.
Defined.

Lemma trend_entries_are_period_totals_witness :
  exists out,
    Trend.trendArray (H := NodeUTC.host) "monthly"
      [example_record "2016-01-05" "C1" "Ann" "Texas" "k" 100 1 0 10;
       example_record "2016-01-20" "C2" "Bob" "Texas" "k" 50 2 0 20] = Ok out
    /\ map Trend.sales out = [Fin 150].
Proof.
  destruct (trend_entries_are_period_totals (H := NodeUTC.host) "monthly"
              [example_record "2016-01-05" "C1" "Ann" "Texas" "k" 100 1 0 10;
               example_record "2016-01-20" "C2" "Bob" "Texas" "k" 50 2 0 20])
    as (out & Hout & _).
  - intros item _. apply (periodKey_special_Ok (H := NodeUTC.host)).
    left. reflexivity.
  - exists out. split; [exact Hout |].
    vm_compute in Hout. injection Hout as <-. reflexivity.
Defined.

(** ** The analytics: entries and counts *)

Lemma productPerformance_entry (fd : list SalesRecord) (k : string)
  (acc : Analytics.ProductPerformance) :
  In (k, acc) (Analytics.productPerformance fd) ->
  exists first rest,
    group_of Product_Name k fd = first :: rest
    /\ Analytics.category acc = Category first
    /\ Analytics.totalProfit acc = reduce_sum Profit (first :: rest)
    /\ Analytics.totalQuantity acc = reduce_sum Quantity (first :: rest).
Proof.
  intros Hin. rewrite productPerformance_group_by in Hin.
  apply group_by_own_In in Hin. destruct Hin as [_ Hin].
  destruct (group_of Product_Name k fd) as [| item g] eqn:Eg;
    [discriminate |].
  exists item, g. split; [reflexivity |].
  cbn [fold_left] in Hin. rewrite product_fold in Hin.
  injection Hin as <-. cbn. auto.
Qed.

(** X15. Each top product carries the category of the first filtered record
    of the product (a later record of the same product with another category
    does not change it), the rounded sum of the profits of its records and
    the sum, not rounded, of their quantities. *)
Theorem topProducts_category_profit_quantity (fd : list SalesRecord)
  (e : Analytics.TopProduct) :
  In e (Analytics.topProductsOf fd) ->
  exists first rest,
    group_of Product_Name (Analytics.productName (Analytics.fields e)) fd
    = first :: rest
    /\ Analytics.category (Analytics.fields e) = Category first
    /\ Analytics.totalProfit (Analytics.fields e)
       = Math_round (reduce_sum Profit (first :: rest))
    /\ Analytics.totalQuantity (Analytics.fields e)
       = reduce_sum Quantity (first :: rest).
Proof.
  intros He. apply topProductsOf_In in He.
  unfold Analytics.productEntries, Obj.values in He.
  rewrite map_map in He. apply in_map_iff in He.
  destruct He as ([k acc] & <- & Hin).
  apply (proj1 (entries_In _ _)) in Hin.
  destruct (productPerformance_In fd k acc Hin) as (Hname & _).
  destruct (productPerformance_entry fd k acc Hin)
    as (first & rest & Hg & Hc & Hp & Hq).
  exists first, rest. cbn. rewrite Hname, Hc, Hp, Hq. auto.
Qed.

Lemma topProducts_category_profit_quantity_witness :
  let other :=
    {| Order_Date := "2016-01-06"; Customer_ID := "C2"; Customer_Name := "Bob";
       Segment := "s"; City := "c"; State := "Texas"; Region := "r";
       Category := "Office"; Sub_Category := "x"; Product_Name := "Chair";
       Sales := Fin 5; Quantity := Fin 3; Discount := Fin 0; Profit := Fin 1 |} in
  let fd := [example_record "2016-01-05" "C1" "Ann" "Texas" "Chair" 10 1 0 2.5;
             other] in
  let e :=
    {| Analytics.fields :=
         {| Analytics.productName := "Chair"; Analytics.category := "Chair";
            Analytics.totalSales := Fin 15; Analytics.totalProfit := Fin 4;
            Analytics.totalQuantity := Fin 4; Analytics.orderCount := Fin 2 |};
       Analytics.avgOrderValue := Fin 8 |} in
  exists first rest,
    group_of Product_Name "Chair" fd = first :: rest
    /\ Analytics.category (Analytics.fields e) = Category first
    /\ Analytics.totalProfit (Analytics.fields e)
       = Math_round (reduce_sum Profit (first :: rest))
    /\ Analytics.totalQuantity (Analytics.fields e)
       = reduce_sum Quantity (first :: rest).
Proof.
  intros other fd e.
  assert (Hin : In e (Analytics.topProductsOf fd))
    by (vm_compute; left; reflexivity).
  exact (topProducts_category_profit_quantity fd e Hin).
Defined.

Lemma first_occurrences_length (l : list string) :
  (List.length (first_occurrences l) <= List.length l)%nat.
Proof.
  apply NoDup_incl_length; [apply first_occurrences_NoDup |].
  intros x Hx. apply first_occurrences_In. assumption.
Qed.

Lemma distinct_count (l ids : list string) :
  NoDup l -> (forall x, In x l <-> In x ids) ->
  List.length l = List.length (new_Set String.eqb ids).
Proof.
  intros Hnd Hsame. rewrite new_Set_first_occurrences.
  apply Permutation_length, NoDup_Permutation.
  - assumption.
  - apply first_occurrences_NoDup.
  - intros x. rewrite first_occurrences_In. apply Hsame.
Qed.

(** X16. In the summary, [totalOrders] is the number of filtered records,
    and [uniqueCustomers] and [totalCategories] are the numbers of distinct
    customer ids and of distinct categories among them: the length of any
    list that holds each of these values once; neither exceeds
    [totalOrders]. *)
Theorem summary_counts (fd : list SalesRecord) :
  Analytics.totalOrders (Analytics.summaryOf fd) = List.length fd
  /\ (Analytics.uniqueCustomers (Analytics.summaryOf fd) <= List.length fd)%nat
  /\ (Analytics.totalCategories (Analytics.summaryOf fd) <= List.length fd)%nat
  /\ (forall ids, NoDup ids ->
        (forall x, In x ids <-> exists item, In item fd /\ Customer_ID item = x) ->
        List.length ids = Analytics.uniqueCustomers (Analytics.summaryOf fd))
  /\ (forall cats, NoDup cats ->
        (forall x, In x cats <-> exists item, In item fd /\ Category item = x) ->
        List.length cats = Analytics.totalCategories (Analytics.summaryOf fd)).
Proof.
  cbn [Analytics.summaryOf Analytics.totalOrders Analytics.uniqueCustomers
       Analytics.totalCategories].
  split; [reflexivity |].
  split.
  { rewrite new_Set_first_occurrences, <- (length_map Customer_ID fd).
    apply first_occurrences_length. }
  split.
  { rewrite new_Set_first_occurrences, <- (length_map Category fd).
    apply first_occurrences_length. }
  split.
  - intros ids Hnd Hsame. apply distinct_count; [assumption |].
    intros x. rewrite Hsame, in_map_iff.
    split; intros (item & H1 & H2); exists item; auto.
  - intros cats Hnd Hsame. apply distinct_count; [assumption |].
    intros x. rewrite Hsame, in_map_iff.
    split; intros (item & H1 & H2); exists item; auto.
Qed.

Lemma summary_counts_witness :
  List.length ["C1"; "C2"]
  = Analytics.uniqueCustomers
      (Analytics.summaryOf
         [example_record "2016-01-05" "C1" "Ann" "Texas" "a" 1 1 0 1;
          example_record "2016-01-06" "C2" "Bob" "Texas" "b" 1 1 0 1;
          example_record "2016-01-07" "C1" "Ann" "Texas" "c" 1 1 0 1]).
Proof.
  apply (summary_counts _).
  - repeat constructor; simpl; intuition discriminate.
  - intros x. split.
    + intros [<- | [<- | []]]; eexists; split;
        [left; reflexivity | reflexivity | right; left; reflexivity | reflexivity].
    + intros (item & [<- | [<- | [<- | []]]] & <-); simpl; auto.
Defined.

Lemma sum_nat_Permutation (l l' : list nat) :
  Permutation l l' -> sum_nat l = sum_nat l'.
Proof.
  induction 1 as [| x l l' _ IH | x y l | l l' l'' _ IH1 _ IH2]; simpl.
  - reflexivity.
  - rewrite IH. reflexivity.
  - lia.
  - congruence.
Qed.

Lemma sum_of_Z_counts (ns : list nat) (a : nat) :
  Z.of_nat (a + sum_nat ns) <= 2 ^ 53 ->
  fold_left add (map of_nat ns) (of_nat a) = of_nat (a + sum_nat ns).
Proof.
  revert a. induction ns as [| n ns IH]; intros a Hb; simpl.
  - rewrite Nat.add_0_r. reflexivity.
  - simpl in Hb.
    change (of_nat a + of_nat n)%num
      with (of_Z (Z.of_nat a) + of_Z (Z.of_nat n))%num.
    rewrite add_of_Z by lia.
    replace (Z.of_nat a + Z.of_nat n) with (Z.of_nat (a + n)) by lia.
    fold (of_nat (a + n)). rewrite IH by lia. f_equal. lia.
Qed.

Lemma one_key_matches (k : string) (ks : list string) :
  NoDup ks -> In k ks ->
  sum_nat (map (fun k' => if String.eqb k k' then 1%nat else 0%nat) ks) = 1%nat.
Proof.
  induction ks as [| k0 ks IH]; intros Hnd Hin; [destruct Hin |].
  inversion Hnd as [| ? ? Hnotin Hnd']; subst. simpl.
  destruct (String.eqb_spec k k0) as [-> | Hne].
  - assert (Hz : sum_nat (map (fun k' => if String.eqb k0 k' then 1%nat else 0%nat)
                            ks) = 0%nat).
    { clear IH Hnd Hnd' Hin. induction ks as [| k1 ks IHks]; [reflexivity |].
      simpl. destruct (String.eqb_spec k0 k1) as [-> | Hne].
      - exfalso. apply Hnotin. left. reflexivity.
      - apply IHks. intros Hin. apply Hnotin. right. assumption. }
    rewrite Hz. reflexivity.
  - destruct Hin as [-> | Hin]; [congruence |].
    apply IH; assumption.
Qed.

Lemma group_sizes_cons (key : SalesRecord -> string) (item : SalesRecord)
  (fd : list SalesRecord) (ks : list string) :
  sum_nat (map (fun k => List.length (group_of key k (item :: fd))) ks)
  = (sum_nat (map (fun k => if String.eqb (key item) k then 1 else 0) ks)
     + sum_nat (map (fun k => List.length (group_of key k fd)) ks))%nat.
Proof.
  induction ks as [| k ks IH]; [reflexivity |].
  cbn [map sum_nat fold_right]. fold (sum_nat
    (map (fun k => List.length (group_of key k (item :: fd))) ks)).
  fold (sum_nat (map (fun k => if String.eqb (key item) k then 1%nat else 0%nat) ks)).
  fold (sum_nat (map (fun k => List.length (group_of key k fd)) ks)).
  rewrite IH. unfold group_of at 1. cbn [filter].
  fold (group_of key k fd).
  destruct (String.eqb (key item) k); cbn [List.length]; lia.
Qed.

(** The groups of the keys divide the records: their sizes add up to the
    number of records. *)
Lemma group_sizes_add_up (key : SalesRecord -> string) (fd : list SalesRecord)
  (ks : list string) :
  NoDup ks -> (forall item, In item fd -> In (key item) ks) ->
  sum_nat (map (fun k => List.length (group_of key k fd)) ks) = List.length fd.
Proof.
  intros Hnd. induction fd as [| item fd IH]; intros Hks.
  - simpl. clear. induction ks as [| k ks IHks]; [reflexivity |].
    simpl. apply IHks.
  - rewrite group_sizes_cons.
    rewrite one_key_matches by (assumption || (apply Hks; left; reflexivity)).
    rewrite IH by (intros i Hi; apply Hks; right; assumption).
    reflexivity.
Qed.

Lemma orders_add_up (key : SalesRecord -> string) (fd : list SalesRecord)
  (ks : list string) :
  Permutation ks (first_occurrences (map key fd)) ->
  Z.of_nat (List.length fd) <= 2 ^ 53 ->
  fold_left add
    (map (fun k => of_nat (List.length (group_of key k fd))) ks) zero
  = of_nat (List.length fd).
Proof.
  intros Hperm Hb.
  assert (Hsum : sum_nat (map (fun k => List.length (group_of key k fd)) ks)
                 = List.length fd).
  { apply group_sizes_add_up.
    - eapply Permutation_NoDup;
        [apply Permutation_sym, Hperm | apply first_occurrences_NoDup].
    - intros item Hin. eapply Permutation_in; [apply Permutation_sym, Hperm |].
      apply first_occurrences_In, in_map. assumption. }
  rewrite <- (map_map (fun k => List.length (group_of key k fd)) of_nat).
  change zero with (of_nat 0). rewrite sum_of_Z_counts; rewrite Hsum.
  - reflexivity.
  - simpl. assumption.
Qed.

Lemma filter_length_le {A : Type} (f : A -> bool) (l : list A) :
  (List.length (filter f l) <= List.length l)%nat.
Proof.
  induction l as [| x l IH]; simpl; [lia |].
  destruct (f x); simpl; lia.
Qed.

(** The counters of a grouping object of the analytics add up to the number
    of the records whose key names no inherited member. *)
Lemma counters_add_up {V : Type} (key : SalesRecord -> string)
  (upd : option V -> SalesRecord -> V) (counter : V -> num)
  (fd : list SalesRecord) :
  Z.of_nat (List.length fd) <= 2 ^ 53 ->
  (forall k v, In (k, v) (group_by key upd (own_records key fd) []) ->
     counter v = count_up (List.length (group_of key k fd))) ->
  fold_left add
    (map (fun p => counter (snd p))
       (Obj.entries (group_by key upd (own_records key fd) []))) zero
  = of_nat (List.length (own_records key fd)).
Proof.
  intros Hb Hcount.
  pose proof (filter_length_le (fun item => negb (Obj.inherited (key item))) fd)
    as Hown. fold (own_records key fd) in Hown.
  rewrite (map_ext_in _
             (fun p => of_nat (List.length
                                 (group_of key (fst p) (own_records key fd))))).
  - rewrite <- (map_map fst
                  (fun k => of_nat (List.length
                                      (group_of key k (own_records key fd))))).
    apply orders_add_up; [| lia].
    rewrite <- (group_by_first_occurrences key upd (own_records key fd)).
    apply Permutation_map, entries_Permutation.
  - intros [k v] Hin. apply (proj1 (entries_In _ _)) in Hin.
    cbn [fst snd]. rewrite (Hcount k v Hin).
    destruct (group_by_own_In key upd fd k v Hin) as [Hk _].
    rewrite (group_of_own_records key k fd Hk).
    apply count_up_of_nat.
    pose proof (filter_length_le (fun item => String.eqb (key item) k) fd) as Hg.
    fold (group_of key k fd) in Hg. lia.
Qed.

(** X17. Every filtered record whose region names no member inherited from
    [Object.prototype] is counted in exactly one region, and likewise for
    the products: for an array of at most 2^53 records, the [orders] of the
    regional performance add up to the number of these records, and so do
    the [orderCount] of the products before the ten largest are kept; when
    no key names an inherited member, this number is [totalOrders]. *)
Theorem order_counts_add_up_to_totalOrders (fd : list SalesRecord) :
  Z.of_nat (List.length fd) <= 2 ^ 53 ->
  (reduce_sum (fun e => Analytics.orders (Analytics.regionFields e))
     (Analytics.regionArray fd)
   = of_nat (List.length (own_records Region fd))
   /\ (own_keys Region fd ->
       reduce_sum (fun e => Analytics.orders (Analytics.regionFields e))
         (Analytics.regionArray fd)
       = of_nat (Analytics.totalOrders (Analytics.summaryOf fd))))
  /\ (reduce_sum (fun e => Analytics.orderCount (Analytics.fields e))
        (Analytics.productEntries fd)
      = of_nat (List.length (own_records Product_Name fd))
      /\ (own_keys Product_Name fd ->
          reduce_sum (fun e => Analytics.orderCount (Analytics.fields e))
            (Analytics.productEntries fd)
          = of_nat (Analytics.totalOrders (Analytics.summaryOf fd)))).
Proof.
  intros Hb.
  assert (Hr : reduce_sum (fun e => Analytics.orders (Analytics.regionFields e))
                 (Analytics.regionArray fd)
               = of_nat (List.length (own_records Region fd))).
  { rewrite reduce_sum_map.
    unfold Analytics.regionArray, Obj.values. rewrite !map_map.
    cbn [Analytics.regionFields Analytics.orders].
    rewrite regionalPerformance_group_by.
    apply (counters_add_up Region region_update Analytics.orders fd Hb).
    intros k v Hin. rewrite <- regionalPerformance_group_by in Hin.
    apply regionalPerformance_In in Hin. apply Hin. }
  assert (Hp : reduce_sum (fun e => Analytics.orderCount (Analytics.fields e))
                 (Analytics.productEntries fd)
               = of_nat (List.length (own_records Product_Name fd))).
  { rewrite reduce_sum_map.
    unfold Analytics.productEntries, Obj.values. rewrite !map_map.
    cbn [Analytics.fields Analytics.orderCount].
    rewrite productPerformance_group_by.
    apply (counters_add_up Product_Name product_update Analytics.orderCount
             fd Hb).
    intros k v Hin. rewrite <- productPerformance_group_by in Hin.
    apply productPerformance_In in Hin. apply Hin. }
  cbn [Analytics.summaryOf Analytics.totalOrders].
  split; (split; [assumption |]); intros Hown.
  - rewrite Hr, (own_keys_own_records Region fd Hown). reflexivity.
  - rewrite Hp, (own_keys_own_records Product_Name fd Hown). reflexivity.
Qed.

(** The theorem on three records of two regions, one of them named
    ["constructor"]: its record is counted in no region. *)
Lemma order_counts_add_up_to_totalOrders_witness :
  let fd := [example_record "2016-01-05" "C1" "Ann" "Texas" "West" 1 1 0 1;
             example_record "2016-01-06" "C2" "Bob" "Texas" "constructor" 1 1 0 1;
             example_record "2016-01-07" "C1" "Ann" "Texas" "West" 1 1 0 1] in
  reduce_sum (fun e => Analytics.orders (Analytics.regionFields e))
    (Analytics.regionArray fd) = Fin 2
  /\ Analytics.totalOrders (Analytics.summaryOf fd) = 3%nat.
Proof.
  intros fd. split; [| reflexivity].
  rewrite (proj1 (proj1 (order_counts_add_up_to_totalOrders fd
                           ltac:(vm_compute; discriminate)))).
  vm_compute. reflexivity.
Defined.

(** ** The number of entries of a top-10 output *)

Lemma rounded_length (key : SalesRecord -> string) (fd : list SalesRecord) :
  own_keys key fd ->
  List.length (Dashboard.rounded (Dashboard.salesBy key fd))
  = List.length (first_occurrences (map key fd)).
Proof.
  intros Hown. rewrite <- (length_map Dashboard.label).
  apply Permutation_length, breakdown_labels_Permutation, Hown.
Qed.

Lemma top10_length (key : SalesRecord -> string) (fd : list SalesRecord) :
  own_keys key fd ->
  List.length (Dashboard.top10 (Dashboard.rounded (Dashboard.salesBy key fd)))
  = Nat.min 10 (List.length (first_occurrences (map key fd))).
Proof.
  intros Hown. unfold Dashboard.top10, slice0.
  rewrite length_firstn, Array_sort_length, rounded_length by assumption.
  reflexivity.
Qed.

(** X18. A top-10 chart of the dashboard whose keys name no member inherited
    from [Object.prototype] has one entry for each distinct key of the
    filtered records, up to ten: its length is the smaller of 10 and the
    number of distinct keys.  The top products of the analytics have one
    entry, up to ten, for each distinct product name that names no inherited
    member. *)
Theorem top10_has_ten_entries_or_all (fd : list SalesRecord) :
  (own_keys City fd ->
   List.length (Dashboard.salesByCityArray fd)
   = Nat.min 10 (List.length (first_occurrences (map City fd))))
  /\ (own_keys Product_Name fd ->
      List.length (Dashboard.salesByProductArray fd)
      = Nat.min 10 (List.length (first_occurrences (map Product_Name fd))))
  /\ (own_keys Sub_Category fd ->
      List.length (Dashboard.salesBySubCategoryArray fd)
      = Nat.min 10 (List.length (first_occurrences (map Sub_Category fd))))
  /\ List.length (Analytics.topProductsOf fd)
     = Nat.min 10
         (List.length
            (first_occurrences
               (map Product_Name (own_records Product_Name fd)))).
Proof.
  split; [apply top10_length |].
  split; [apply top10_length |].
  split; [apply top10_length |].
  unfold Analytics.topProductsOf, slice0.
  rewrite length_firstn, Array_sort_length.
  unfold Analytics.productEntries, Obj.values. rewrite !length_map.
  rewrite <- productPerformance_keys, length_map.
  f_equal. apply Permutation_length, entries_Permutation.
Qed.

Lemma top10_has_ten_entries_or_all_witness :
  List.length (Dashboard.salesByCityArray twelve_cities) = 10%nat.
Proof.
  rewrite (proj1 (top10_has_ten_entries_or_all twelve_cities))
    by (apply own_keys_forallb; vm_compute; reflexivity).
  vm_compute. reflexivity.
Defined.
